(** * EmberAlert: the prediction-serving path, embedded and verified

    A shallow embedding of the wildfire-risk serving core of the repository:

    - [api_service/app/services/cache_service.py]  (class [CacheService])
    - [api_service/app/services/prediction_service.py]  (class [PredictionService])
    - [transformers/feature_engineering.py]  (class [FeatureEngineer])

    Python floats are IEEE-754 binary64 numbers and are modelled by the
    kernel's primitive floats; dictionaries are insertion-ordered association
    lists; the Redis server, the wall clock and the record of model
    invocations form an explicit world that is threaded through a state and
    exception monad. *)

From Stdlib Require Import ZArith List String Ascii Lia Bool Floats Uint63.
From Stdlib Require Import Permutation Sorted OrdersEx.
From stdpp Require Import base gmap strings list.
Import ListNotations.

Set Warnings "-inexact-float,-register-all".
#[local] Open Scope string_scope.
#[local] Open Scope Z_scope.

(** ** Python numbers *)

Module PyNum.

(** Nearest integer to [a / b], ties to the even one ([0 <= a], [0 < b]). *)
Definition rhe_div (a b : Z) : Z :=
  let q := a / b in
  match 2 * (a mod b) ?= b with
  | Lt => q
  | Gt => q + 1
  | Eq => if Z.even q then q else q + 1
  end.

(** [m * 2^e * 10^j] as a fraction [num / den] of integers. *)
Definition scaled_parts (m : positive) (e j : Z) : Z * Z :=
  let num := Zpos m * (if 0 <=? e then 2 ^ e else 1) * (if 0 <=? j then 10 ^ j else 1) in
  let den := (if 0 <=? e then 1 else 2 ^ (- e)) * (if 0 <=? j then 1 else 10 ^ (- j)) in
  (num, den).

(** Nearest integer (ties to even) to [m * 2^e * 10^j]. *)
Definition scaled (m : positive) (e j : Z) : Z :=
  let '(num, den) := scaled_parts m e j in rhe_div num den.

(** The binary64 number nearest to [(-1)^s * d * 10^p] (ties to even):
    what [strtod] returns for the decimal string of digits [d] and
    exponent [p]. *)
Definition dec_to_float (s : bool) (d p : Z) : spec_float :=
  match d with
  | Zpos n =>
      if 0 <=? p then binary_round prec emax s (n * Z.to_pos (10 ^ p)) 0
      else SFdiv prec emax (S754_finite s n 0)
                           (S754_finite false (Z.to_pos (10 ^ (- p))) 0)
  | _ => S754_zero s
  end.

(** [round(x, ndigits)] on a float, for [0 <= ndigits]: the exact binary
    value is rounded half-even to [ndigits] decimal places and the decimal
    result is converted back to the nearest float; infinities, NaN and
    zeros round to themselves. *)
Definition py_round (x : float) (ndigits : Z) : float :=
  match Prim2SF x with
  | S754_finite s m e => SF2Prim (dec_to_float s (scaled m e ndigits) (- ndigits))
  | _ => x
  end.

(** numpy's [clip(x, lo, hi)] on scalars: [minimum(maximum(x, lo), hi)],
    both of which return a NaN first argument unchanged. *)
Definition np_maximum (a b : float) : float :=
  if is_nan a then a else if (b <? a)%float then a else b.

Definition np_minimum (a b : float) : float :=
  if is_nan a then a else if (a <? b)%float then a else b.

Definition np_clip (x lo hi : float) : float :=
  np_minimum (np_maximum x lo) hi.

(** [a / b] on integers, [b <> 0]: the float nearest to the exact
    quotient. *)
Definition int_truediv (a b : Z) : float :=
  let s := xorb (a <? 0) (b <? 0) in
  match Z.abs a, Z.abs b with
  | Zpos p, Zpos q =>
      SF2Prim (SFdiv prec emax (S754_finite s p 0) (S754_finite false q 0))
  | _, _ => if s then neg_zero else zero
  end.

(** *** Decimal text *)

Definition digit_char (d : Z) : ascii := ascii_of_N (48 + Z.to_N d).

Fixpoint dec_digits_aux (fuel : nat) (n : Z) (acc : string) : string :=
  match fuel with
  | O => acc
  | S fuel' =>
      let acc' := String (digit_char (n mod 10)) acc in
      if n <? 10 then acc' else dec_digits_aux fuel' (n / 10) acc'
  end.

(** Decimal digits of [0 <= n], most significant first. *)
Definition dec_digits (n : Z) : string :=
  dec_digits_aux (S (Z.to_nat (Z.log2 n))) n "".

(** [int.__repr__]. *)
Definition int_repr (n : Z) : string :=
  if n <? 0 then "-" ++ dec_digits (- n) else dec_digits n.

Fixpoint zeros (n : nat) : string :=
  match n with O => "" | S n' => String "0" (zeros n') end.

(** [n] written with at least [w] digits, zero-padded on the left. *)
Definition pad_digits (w : nat) (n : Z) : string :=
  let s := dec_digits n in zeros (w - String.length s) ++ s.

Fixpoint strip_zeros_rev (s : list ascii) : list ascii :=
  match s with
  | "0"%char :: s' => strip_zeros_rev s'
  | _ => s
  end.

Definition strip_trailing_zeros (s : string) : string :=
  string_of_list_ascii (rev (strip_zeros_rev (rev (list_ascii_of_string s)))).

(** *** [float.__repr__]: the shortest decimal string that reads back as
    the same float *)

(** [floor (m * 2^e * 10^j)]. *)
Definition floor_scaled (m : positive) (e j : Z) : Z :=
  let '(num, den) := scaled_parts m e j in num / den.

(** The least [k] with [m * 2^e < 10^k]. *)
Definition decpt_of (m : positive) (e : Z) : Z :=
  let est := ((Z.log2 (Zpos m) + e) * 30103) / 100000 in
  let fix search (fuel : nat) (k : Z) : Z :=
    match fuel with
    | O => k
    | S fuel' => if floor_scaled m e (- k) =? 0 then k else search fuel' (k + 1)
    end in
  search 6%nat (est - 1).

Definition same_float (x y : spec_float) : bool :=
  match x, y with
  | S754_finite s1 m1 e1, S754_finite s2 m2 e2 =>
      Bool.eqb s1 s2 && Pos.eqb m1 m2 && Z.eqb e1 e2
  | S754_zero s1, S754_zero s2 => Bool.eqb s1 s2
  | S754_infinity s1, S754_infinity s2 => Bool.eqb s1 s2
  | S754_nan, S754_nan => true
  | _, _ => false
  end.

(** The [n]-digit decimal [d * 10^(k-n)] that reads back as [m * 2^e], if
    there is one: of the two [n]-digit neighbours of the value, the one
    that round-trips, and the nearer one when both do. *)
Definition candidate (m : positive) (e k : Z) (n : Z) : option Z :=
  let '(num, den) := scaled_parts m e (n - k) in
  let lo := num / den in
  let hi := lo + 1 in
  let ok d := same_float (dec_to_float false d (k - n)) (S754_finite false m e) in
  match ok lo, ok hi with
  | true, true =>
      match 2 * (num mod den) ?= den with
      | Lt => Some lo
      | Gt => Some hi
      | Eq => Some (if Z.even lo then lo else hi)
      end
  | true, false => Some lo
  | false, true => Some hi
  | false, false => None
  end.

(** Shortest round-tripping digits and the position of the decimal point:
    the value is [0.d1d2... * 10^decpt]. *)
Definition shortest_digits (m : positive) (e : Z) : string * Z :=
  let k := decpt_of m e in
  let fix search (fuel : nat) (n : Z) : string * Z :=
    match fuel with
    | O => (dec_digits (scaled m e (17 - k)), k)
    | S fuel' =>
        match candidate m e k n with
        | Some d =>
            let s := dec_digits d in
            (strip_trailing_zeros s, k - n + Z.of_nat (String.length s))
        | None => search fuel' (n + 1)
        end
    end in
  search 17%nat 1.

(** Layout of [repr]: scientific notation when the decimal point falls
    left of [-3] or right of [16], positional with at least one
    fractional digit otherwise. *)
Definition repr_layout (digits : string) (decpt : Z) : string :=
  let n := Z.of_nat (String.length digits) in
  if (decpt <=? -4) || (16 <? decpt) then
    let ex := decpt - 1 in
    let mant :=
      match digits with
      | String c EmptyString => String c EmptyString
      | String c rest => String c ("." ++ rest)
      | EmptyString => "0"
      end in
    mant ++ "e" ++ (if ex <? 0 then "-" else "+") ++ pad_digits 2 (Z.abs ex)
  else if decpt <=? 0 then
    "0." ++ zeros (Z.to_nat (- decpt)) ++ digits
  else if n <=? decpt then
    digits ++ zeros (Z.to_nat (decpt - n)) ++ ".0"
  else
    substring 0 (Z.to_nat decpt) digits ++ "."
      ++ substring (Z.to_nat decpt) (Z.to_nat (n - decpt)) digits.

Definition float_repr (x : float) : string :=
  match Prim2SF x with
  | S754_nan => "nan"
  | S754_infinity s => if s then "-inf" else "inf"
  | S754_zero s => if s then "-0.0" else "0.0"
  | S754_finite s m e =>
      let '(digits, decpt) := shortest_digits m e in
      (if s then "-" else "") ++ repr_layout digits decpt
  end.

End PyNum.

(** ** [hashlib.md5] (RFC 1321) over 32-bit words with wrap-around *)

Module Hashlib.

Definition wrap32 (x : Z) : Z := x mod 2 ^ 32.

Definition rotl32 (x c : Z) : Z :=
  wrap32 (Z.lor (Z.shiftl x c) (Z.shiftr x (32 - c))).

Definition not32 (x : Z) : Z := Z.lxor x 0xffffffff.

Definition sines : list Z :=
  [ 0xd76aa478; 0xe8c7b756; 0x242070db; 0xc1bdceee;
    0xf57c0faf; 0x4787c62a; 0xa8304613; 0xfd469501;
    0x698098d8; 0x8b44f7af; 0xffff5bb1; 0x895cd7be;
    0x6b901122; 0xfd987193; 0xa679438e; 0x49b40821;
    0xf61e2562; 0xc040b340; 0x265e5a51; 0xe9b6c7aa;
    0xd62f105d; 0x02441453; 0xd8a1e681; 0xe7d3fbc8;
    0x21e1cde6; 0xc33707d6; 0xf4d50d87; 0x455a14ed;
    0xa9e3e905; 0xfcefa3f8; 0x676f02d9; 0x8d2a4c8a;
    0xfffa3942; 0x8771f681; 0x6d9d6122; 0xfde5380c;
    0xa4beea44; 0x4bdecfa9; 0xf6bb4b60; 0xbebfbc70;
    0x289b7ec6; 0xeaa127fa; 0xd4ef3085; 0x04881d05;
    0xd9d4d039; 0xe6db99e5; 0x1fa27cf8; 0xc4ac5665;
    0xf4292244; 0x432aff97; 0xab9423a7; 0xfc93a039;
    0x655b59c3; 0x8f0ccc92; 0xffeff47d; 0x85845dd1;
    0x6fa87e4f; 0xfe2ce6e0; 0xa3014314; 0x4e0811a1;
    0xf7537e82; 0xbd3af235; 0x2ad7d2bb; 0xeb86d391 ].

Definition shifts : list Z :=
  [ 7; 12; 17; 22; 7; 12; 17; 22; 7; 12; 17; 22; 7; 12; 17; 22;
    5; 9; 14; 20; 5; 9; 14; 20; 5; 9; 14; 20; 5; 9; 14; 20;
    4; 11; 16; 23; 4; 11; 16; 23; 4; 11; 16; 23; 4; 11; 16; 23;
    6; 10; 15; 21; 6; 10; 15; 21; 6; 10; 15; 21; 6; 10; 15; 21 ].

(** The running state [(A, B, C, D)]. *)
Definition state : Type := Z * Z * Z * Z.

Definition init : state := (0x67452301, 0xefcdab89, 0x98badcfe, 0x10325476).

(** [n] bytes of [x], least significant first. *)
Fixpoint le_bytes (n : nat) (x : Z) : list Z :=
  match n with
  | O => []
  | S n' => x mod 256 :: le_bytes n' (x / 256)
  end.

Fixpoint of_le_bytes (bs : list Z) : Z :=
  match bs with
  | [] => 0
  | b :: bs' => b + 256 * of_le_bytes bs'
  end.

(** The message followed by [0x80], zeros up to 56 modulo 64, and the bit
    length on 64 bits. *)
Definition pad (msg : list Z) : list Z :=
  let len := Z.of_nat (List.length msg) in
  let nzeros := (55 - len) mod 64 in
  (msg ++ 0x80 :: repeat 0 (Z.to_nat nzeros) ++ le_bytes 8 ((8 * len) mod 2 ^ 64))%list.

Fixpoint words (n : nat) (bs : list Z) : list Z :=
  match n with
  | O => []
  | S n' => of_le_bytes (firstn 4 bs) :: words n' (skipn 4 bs)
  end.

Definition step (M : list Z) (st : state) (i : Z) : state :=
  let '(a, b, c, d) := st in
  let f :=
    if i <? 16 then Z.lor (Z.land b c) (Z.land (not32 b) d)
    else if i <? 32 then Z.lor (Z.land d b) (Z.land (not32 d) c)
    else if i <? 48 then Z.lxor b (Z.lxor c d)
    else Z.lxor c (Z.lor b (not32 d)) in
  let g :=
    if i <? 16 then i
    else if i <? 32 then (5 * i + 1) mod 16
    else if i <? 48 then (3 * i + 5) mod 16
    else (7 * i) mod 16 in
  let f' := wrap32 (f + a + nth (Z.to_nat i) sines 0 + nth (Z.to_nat g) M 0) in
  (d, wrap32 (b + rotl32 f' (nth (Z.to_nat i) shifts 0)), b, c).

Definition compress (st : state) (chunk : list Z) : state :=
  let M := words 16 chunk in
  let '(a, b, c, d) := fold_left (step M) (map Z.of_nat (seq 0 64)) st in
  let '(a0, b0, c0, d0) := st in
  (wrap32 (a0 + a), wrap32 (b0 + b), wrap32 (c0 + c), wrap32 (d0 + d)).

Fixpoint absorb (nchunks : nat) (st : state) (bs : list Z) : state :=
  match nchunks with
  | O => st
  | S n' => absorb n' (compress st (firstn 64 bs)) (skipn 64 bs)
  end.

Definition md5 (msg : list Z) : state :=
  let p := pad msg in
  absorb (List.length p / 64)%nat init p.

Definition hex_char (d : Z) : ascii :=
  ascii_of_N (Z.to_N (if d <? 10 then 48 + d else 87 + d)).

Definition hex_byte (b : Z) : string :=
  String (hex_char (b / 16)) (String (hex_char (b mod 16)) EmptyString).

Definition digest_bytes (st : state) : list Z :=
  let '(a, b, c, d) := st in
  (le_bytes 4 a ++ le_bytes 4 b ++ le_bytes 4 c ++ le_bytes 4 d)%list.

(** [hashlib.md5(msg).hexdigest()]. *)
Definition hexdigest (msg : list Z) : string :=
  String.concat "" (map hex_byte (digest_bytes (md5 msg))).

(** [str.encode()] on text whose characters are single bytes, which is
    what [json.dumps] emits (it escapes everything beyond ASCII). *)
Definition encode (s : string) : list Z :=
  map (fun c => Z.of_N (N_of_ascii c)) (list_ascii_of_string s).

End Hashlib.

(** ** Python values and [json.dumps] *)

Module Py.

(** The values that occur in requests and predictions.  A [Dict] lists its
    items in insertion order; its keys are pairwise distinct. *)
Inductive value : Type :=
| None_
| Bool (b : bool)
| Int (n : Z)
| Float (x : float)
| Str (s : string)
| Dict (items : list (string * value)).

Definition dict : Type := list (string * value).

(** [d.get(k)] *)
Fixpoint dict_get (k : string) (d : dict) : option value :=
  match d with
  | [] => None
  | (k', v) :: d' => if String.eqb k k' then Some v else dict_get k d'
  end.

(** [d[k] = v]: an existing key keeps its position, a new one goes last. *)
Fixpoint dict_set (k : string) (v : value) (d : dict) : dict :=
  match d with
  | [] => [(k, v)]
  | (k', v') :: d' =>
      if String.eqb k k' then (k, v) :: d' else (k', v') :: dict_set k v d'
  end.

Definition keys (d : dict) : list string := map fst d.

(** Truth value of [if d:] for a dictionary. *)
Definition truthy (d : dict) : bool :=
  match d with [] => false | _ => true end.

(** *** String literals of JSON, as [json.dumps] writes them (every
    character outside [' '..'~'] escaped) *)

Definition quote_char : ascii := ascii_of_N 34.
Definition backslash : ascii := ascii_of_N 92.

Definition hex4 (n : Z) : string :=
  String (Hashlib.hex_char (n / 4096 mod 16))
    (String (Hashlib.hex_char (n / 256 mod 16))
       (String (Hashlib.hex_char (n / 16 mod 16))
          (String (Hashlib.hex_char (n mod 16)) EmptyString))).

Definition escape_char (c : ascii) : string :=
  let n := Z.of_N (N_of_ascii c) in
  if n =? 34 then String backslash (String quote_char EmptyString)
  else if n =? 92 then String backslash (String backslash EmptyString)
  else if n =? 10 then String backslash "n"
  else if n =? 13 then String backslash "r"
  else if n =? 9 then String backslash "t"
  else if n =? 8 then String backslash "b"
  else if n =? 12 then String backslash "f"
  else if (n <? 32) || (126 <? n) then String backslash ("u" ++ hex4 n)
  else String c EmptyString.

Fixpoint escape (s : string) : string :=
  match s with
  | EmptyString => EmptyString
  | String c s' => escape_char c ++ escape s'
  end.

Definition json_string (s : string) : string :=
  String quote_char (escape s ++ String quote_char EmptyString).

(** *** Key order of [sort_keys=True]: [sorted(d.items())], by code point *)

Definition key_ltb (a b : string) : bool :=
  match String_as_OT.compare a b with Lt => true | _ => false end.

Fixpoint insert_item {A : Type} (x : string * A) (l : list (string * A))
  : list (string * A) :=
  match l with
  | [] => [x]
  | y :: l' => if key_ltb (fst y) (fst x) then y :: insert_item x l' else x :: l
  end.

Definition sort_items {A : Type} (l : list (string * A)) : list (string * A) :=
  fold_right insert_item [] l.

(** [float] as the encoder writes it: [float.__repr__], with JavaScript's
    names for the non-finite values. *)
Definition json_float (x : float) : string :=
  match Prim2SF x with
  | S754_nan => "NaN"
  | S754_infinity s => if s then "-Infinity" else "Infinity"
  | _ => PyNum.float_repr x
  end.

Definition json_member (kv : string * string) : string :=
  json_string (fst kv) ++ ": " ++ snd kv.

(** [json.dumps(v, sort_keys=sort_keys)] with the default separators. *)
Fixpoint dumps (sort_keys : bool) (v : value) : string :=
  match v with
  | None_ => "null"
  | Bool b => if b then "true" else "false"
  | Int n => PyNum.int_repr n
  | Float x => json_float x
  | Str s => json_string s
  | Dict items =>
      let rendered := map (fun kv => (fst kv, dumps sort_keys (snd kv))) items in
      let ordered := if sort_keys then sort_items rendered else rendered in
      "{" ++ String.concat ", " (map json_member ordered) ++ "}"
  end.

End Py.

(** ** [datetime] *)

Module Datetime.

Record datetime : Type := mkDatetime {
  year : Z; month : Z; day : Z;
  hour : Z; minute : Z; second : Z; microsecond : Z }.

Definition is_leap (y : Z) : bool :=
  (y mod 4 =? 0) && (negb (y mod 100 =? 0) || (y mod 400 =? 0)).

Definition days_before_month (y m : Z) : Z :=
  nth (Z.to_nat (m - 1)) [0; 31; 59; 90; 120; 151; 181; 212; 243; 273; 304; 334] 0
  + (if (2 <? m) && is_leap y then 1 else 0).

(** [d.timetuple().tm_yday] *)
Definition tm_yday (d : datetime) : Z :=
  days_before_month (year d) (month d) + day d.

(** [d.isoformat()] *)
Definition isoformat (d : datetime) : string :=
  PyNum.pad_digits 4 (year d) ++ "-" ++ PyNum.pad_digits 2 (month d) ++ "-"
    ++ PyNum.pad_digits 2 (day d) ++ "T" ++ PyNum.pad_digits 2 (hour d) ++ ":"
    ++ PyNum.pad_digits 2 (minute d) ++ ":" ++ PyNum.pad_digits 2 (second d)
    ++ (if microsecond d =? 0 then "" else "." ++ PyNum.pad_digits 6 (microsecond d)).

End Datetime.
Export Datetime.

(** ** The model's input: feature rows and frames *)

(** One row of model input, the dictionary built by [_prepare_features]. *)
Record Features : Type := mkFeatures {
  f_temperature : float;
  f_humidity : float;
  f_wind_speed : float;
  f_wind_direction : Py.value;
  f_pressure : Py.value;
  f_month : Z;
  f_hour : Z;
  f_day_of_year : Z }.

(** A two-dimensional [pandas.DataFrame]: its rows. *)
Definition DataFrame : Type := list Features.

(** The scoring model: [model.predict(frame)], a sequence of raw scores. *)
Definition Model : Type := DataFrame -> list float.

(** ** The world: Redis server, wall clock, record of model invocations *)

Variant redis_error : Type := ConnectionError | TimeoutError | ResponseError.

(** A JSON text held by Redis.  The only texts stored are those written by
    [json.dumps], and [json.loads] reads such a text back as the document it
    was written from; the text is represented by that document. *)
Variant json_text : Type := Text (doc : Py.dict).

Definition json_dumps (d : Py.dict) : json_text := Text d.
Definition json_loads (t : json_text) : Py.dict := let 'Text d := t in d.

Record Redis : Type := mkRedis {
  kv : gmap string (json_text * Z);   (* key -> value, instant of expiry *)
  server_time : Z;                    (* the server's clock, in seconds *)
  fault : option redis_error;         (* [Some e]: every command raises [e] *)
  keyspace_hits : Z;
  keyspace_misses : Z }.

Record World : Type := mkWorld {
  redis : Redis;
  clock : nat -> datetime;            (* what successive [datetime.now()] return *)
  ticks : nat;                        (* how many times the clock was read *)
  model_calls : list DataFrame }.     (* arguments of [model.predict], oldest first *)

Variant exn : Type :=
| RedisError (e : redis_error)
| ValueError (msg : string)
| IndexError (msg : string).

(** Computations that read and change the world and may raise. *)
Definition M (A : Type) : Type := World -> (exn + A) * World.

Definition ret {A : Type} (a : A) : M A := fun w => (inr a, w).

Definition bind {A B : Type} (m : M A) (f : A -> M B) : M B :=
  fun w => match m w with
           | (inr a, w') => f a w'
           | (inl e, w') => (inl e, w')
           end.

Definition raise {A : Type} (e : exn) : M A := fun w => (inl e, w).

(** [try: body  except Exception as e: handler(e)] *)
Definition try_except {A : Type} (body : M A) (handler : exn -> M A) : M A :=
  fun w => match body w with
           | (inr a, w') => (inr a, w')
           | (inl e, w') => handler e w'
           end.

Notation "x <- m ;; k" := (bind m (fun x => k))
  (at level 100, m at next level, right associativity).
Notation "m ;;; k" := (bind m (fun _ => k))
  (at level 100, right associativity).

Fixpoint mapM {A B : Type} (f : A -> M B) (l : list A) : M (list B) :=
  match l with
  | [] => ret []
  | a :: l' => b <- f a ;; bs <- mapM f l' ;; ret (b :: bs)
  end.

(** [datetime.now()] *)
Definition datetime_now : M datetime :=
  fun w => (inr (clock w (ticks w)),
            mkWorld (redis w) (clock w) (Datatypes.S (ticks w)) (model_calls w)).

(** [model.predict(X)] *)
Definition model_predict (m : Model) (X : DataFrame) : M (list float) :=
  fun w => (inr (m X),
            mkWorld (redis w) (clock w) (ticks w) (model_calls w ++ [X])%list).

(** *** Redis commands, as the client sees them *)

Module RedisClient.

Definition with_redis {A : Type} (f : Redis -> (redis_error + A) * Redis) : M A :=
  fun w =>
    match fault (redis w) with
    | Some e => (inl (RedisError e), w)
    | None =>
        let '(r, rd) := f (redis w) in
        (match r with inl e => inl (RedisError e) | inr a => inr a end,
         mkWorld rd (clock w) (ticks w) (model_calls w))
    end.

(** The value under [key], unless the key is absent or has expired. *)
Definition live (rd : Redis) (key : string) : option json_text :=
  match kv rd !! key with
  | Some (v, expiry) => if server_time rd <? expiry then Some v else None
  | None => None
  end.

(** [GET key] *)
Definition get (key : string) : M (option json_text) :=
  with_redis (fun rd =>
    match live rd key with
    | Some v =>
        (inr (Some v),
         mkRedis (kv rd) (server_time rd) (fault rd)
                 (keyspace_hits rd + 1) (keyspace_misses rd))
    | None =>
        (inr None,
         mkRedis (kv rd) (server_time rd) (fault rd)
                 (keyspace_hits rd) (keyspace_misses rd + 1))
    end).

(** [SETEX key ttl value]; the server refuses a non-positive [ttl]. *)
Definition setex (key : string) (ttl : Z) (v : json_text) : M unit :=
  with_redis (fun rd =>
    if ttl <=? 0 then (inl ResponseError, rd)
    else (inr tt,
          mkRedis (<[key := (v, server_time rd + ttl)]> (kv rd)) (server_time rd)
                  (fault rd) (keyspace_hits rd) (keyspace_misses rd))).

Definition is_live (rd : Redis) (entry : string * (json_text * Z)) : bool :=
  server_time rd <? snd (snd entry).

(** [KEYS prefix*] *)
Definition keys (prefix : string) : M (list string) :=
  with_redis (fun rd =>
    (inr (map fst (List.filter (fun e => is_live rd e && String.prefix prefix (fst e))
                               (map_to_list (kv rd)))), rd)).

(** [DEL key ...] *)
Definition delete (ks : list string) : M unit :=
  with_redis (fun rd =>
    (inr tt,
     mkRedis (fold_right (fun k m => base.delete k m) (kv rd) ks) (server_time rd)
             (fault rd) (keyspace_hits rd) (keyspace_misses rd))).

(** [INFO stats]: the two counters the service reads. *)
Definition info_stats : M (Z * Z) :=
  with_redis (fun rd => (inr (keyspace_hits rd, keyspace_misses rd), rd)).

(** [DBSIZE] *)
Definition dbsize : M Z :=
  with_redis (fun rd =>
    (inr (Z.of_nat (List.length (List.filter (is_live rd) (map_to_list (kv rd))))), rd)).

End RedisClient.

(** ** [api_service/app/config.py] *)

Record Config : Type := mkConfig {
  CACHE_TTL : Z;
  MODEL_VERSION : string }.

(** ** [cache_service.py]: class [CacheService] *)

Module CacheService.

(** The client object built by [redis.Redis(...)]. *)
Variant RedisConn : Type := Conn.

(** [self.redis_client] is [None] when the connection attempt of
    [__init__] failed. *)
Record t : Type := mk { redis_client : option RedisConn }.

(** [__init__]: only [redis.ConnectionError] is handled. *)
Definition init : M t :=
  fun w =>
    match RedisClient.with_redis (fun rd => (inr tt, rd)) w with
    | (inr _, w') => (inr (mk (Some Conn)), w')
    | (inl (RedisError ConnectionError), w') => (inr (mk None), w')
    | (inl e, w') => (inl e, w')
    end.

Definition _generate_key (data : Py.dict) : string :=
  let sorted_data := Py.dumps true (Py.Dict data) in
  "prediction:" ++ Hashlib.hexdigest (Hashlib.encode sorted_data).

Definition get (self : t) (request_data : Py.dict) : M (option Py.dict) :=
  match redis_client self with
  | None => ret None
  | Some _ =>
      try_except
        (let key := _generate_key request_data in
         cached <- RedisClient.get key ;;
         match cached with
         | Some text => ret (Some (json_loads text))
         | None => ret None
         end)
        (fun _ => ret None)
  end.

Definition set (cfg : Config) (self : t) (request_data prediction : Py.dict)
    (ttl : option Z) : M unit :=
  match redis_client self with
  | None => ret tt
  | Some _ =>
      try_except
        (let key := _generate_key request_data in
         let ttl :=
           match ttl with
           | Some n => if n =? 0 then CACHE_TTL cfg else n
           | None => CACHE_TTL cfg
           end in
         RedisClient.setex key ttl (json_dumps prediction))
        (fun _ => ret tt)
  end.

Definition clear_all (self : t) : M unit :=
  match redis_client self with
  | None => ret tt
  | Some _ =>
      try_except
        (ks <- RedisClient.keys "prediction:" ;;
         match ks with
         | [] => ret tt
         | _ => RedisClient.delete ks
         end)
        (fun _ => ret tt)
  end.

Definition _calculate_hit_rate (hits misses : Z) : float :=
  let total := hits + misses in
  if total =? 0 then 0%float
  else (PyNum.int_truediv hits total * 100)%float.

Definition get_stats (self : t) : M Py.dict :=
  match redis_client self with
  | None => ret [("connected", Py.Bool false)]
  | Some _ =>
      try_except
        (info <- RedisClient.info_stats ;;
         total_keys <- RedisClient.dbsize ;;
         ret [("connected", Py.Bool true);
              ("total_keys", Py.Int total_keys);
              ("hits", Py.Int (fst info));
              ("misses", Py.Int (snd info));
              ("hit_rate", Py.Float (_calculate_hit_rate (fst info) (snd info)))])
        (fun _ => ret [("connected", Py.Bool false)])
  end.

End CacheService.

(** ** [pandas.DataFrame(data)] for the two shapes of [data] the service
    passes *)

Module Pandas.

(** A list of dictionaries: one row per dictionary. *)
Definition DataFrame_of_records (data : list Features) : DataFrame := data.

(** A non-empty list of two-dimensional frames: the constructor stacks them
    into a three-dimensional block and refuses it. *)
Definition DataFrame_of_frames (data : list DataFrame) : M DataFrame :=
  match data with
  | [] => ret []
  | _ => raise (ValueError "Must pass 2-d input")
  end.

End Pandas.

(** ** [prediction_service.py]: class [PredictionService] *)

(** A validated request, [PredictionRequest(...).dict()]: five required
    floats, and two optional entries that hold a float, [None], or the
    schema's integer default. *)
Record Request : Type := mkRequest {
  latitude : float;
  longitude : float;
  temperature : float;
  humidity : float;
  wind_speed : float;
  wind_direction : Py.value;
  pressure : Py.value }.

(** The dictionary itself, in the order of the schema's fields. *)
Definition to_dict (r : Request) : Py.dict :=
  [("latitude", Py.Float (latitude r));
   ("longitude", Py.Float (longitude r));
   ("temperature", Py.Float (temperature r));
   ("humidity", Py.Float (humidity r));
   ("wind_speed", Py.Float (wind_speed r));
   ("wind_direction", wind_direction r);
   ("pressure", pressure r)].

Module PredictionService.

Record t : Type := mk {
  model : Model;
  model_version : string }.

(** The dictionary [features] of [_prepare_features]. *)
Definition features_at (request_data : Request) (now : datetime) : Features :=
  {| f_temperature := temperature request_data;
     f_humidity := humidity request_data;
     f_wind_speed := wind_speed request_data;
     f_wind_direction := wind_direction request_data;
     f_pressure := pressure request_data;
     f_month := month now;
     f_hour := hour now;
     f_day_of_year := tm_yday now |}.

Definition _prepare_features (request_data : Request) : M DataFrame :=
  now <- datetime_now ;;
  let features := features_at request_data now in
  ret (Pandas.DataFrame_of_records [features]).

Definition _get_risk_level (risk_score : float) : string :=
  if (risk_score <? 0.3)%float then "LOW"
  else if (risk_score <? 0.6)%float then "MODERATE"
  else if (risk_score <? 0.8)%float then "HIGH"
  else "EXTREME".

(** [round(max(0, x), 3)]: [max] keeps the integer [0] unless [x > 0]. *)
Definition round_max0 (x : float) : Py.value :=
  if (0 <? x)%float then Py.Float (PyNum.py_round x 3) else Py.Int 0.

(** [round(min(1, x), 3)]: [min] keeps the integer [1] unless [x < 1]. *)
Definition round_min1 (x : float) : Py.value :=
  if (x <? 1)%float then Py.Float (PyNum.py_round x 3) else Py.Int 1.

Definition _calculate_factors (request_data : Request) : Py.dict :=
  let temp := temperature request_data in
  let humidity := humidity request_data in
  let wind := wind_speed request_data in
  [("temperature_factor", round_max0 ((temp - 70) / 40)%float);
   ("humidity_factor", round_max0 ((50 - humidity) / 50)%float);
   ("wind_factor", round_min1 (wind / 20)%float)].

(** The dictionary [prediction] built from the clipped score. *)
Definition build_prediction (self : t) (req : Request) (risk_score : float)
    (risk_level : string) (factors : Py.dict) (now : datetime) : Py.dict :=
  [("latitude", Py.Float (latitude req));
   ("longitude", Py.Float (longitude req));
   ("risk_score", Py.Float (PyNum.py_round risk_score 3));
   ("risk_level", Py.Str risk_level);
   ("timestamp", Py.Str (isoformat now));
   ("model_version", Py.Str (model_version self));
   ("contributing_factors", Py.Dict factors);
   ("from_cache", Py.Bool false)].

(** [cached] when [if cached:] holds. *)
Definition hit (cached : option Py.dict) : option Py.dict :=
  match cached with
  | Some c => if Py.truthy c then Some c else None
  | None => None
  end.

Definition predict_single (cfg : Config) (cache_service : CacheService.t)
    (self : t) (request_data : Request) : M Py.dict :=
  cached <- CacheService.get cache_service (to_dict request_data) ;;
  match hit cached with
  | Some cached => ret (Py.dict_set "from_cache" (Py.Bool true) cached)
  | None =>
      features <- _prepare_features request_data ;;
      scores <- model_predict (model self) features ;;
      match scores with
      | [] => raise (IndexError "index 0 is out of bounds")
      | risk_score :: _ =>
          let risk_score := PyNum.np_clip risk_score 0 1 in
          let risk_level := _get_risk_level risk_score in
          let factors := _calculate_factors request_data in
          now <- datetime_now ;;
          let prediction :=
            build_prediction self request_data risk_score risk_level factors now in
          CacheService.set cfg cache_service (to_dict request_data) prediction None ;;;
          ret prediction
      end
  end.

(** First loop of [predict_batch]: cached results in place, [None] as the
    placeholder of every miss, and the misses with their indices. *)
Fixpoint partition_requests (cache_service : CacheService.t) (i : nat)
    (requests : list Request)
  : M (list (option Py.dict) * list Request * list nat) :=
  match requests with
  | [] => ret ([], [], [])
  | req :: rest =>
      cached <- CacheService.get cache_service (to_dict req) ;;
      match hit cached with
      | Some cached =>
          r <- partition_requests cache_service (Datatypes.S i) rest ;;
          let '(predictions, uncached_requests, uncached_indices) := r in
          ret (Some (Py.dict_set "from_cache" (Py.Bool true) cached) :: predictions,
               uncached_requests, uncached_indices)
      | None =>
          r <- partition_requests cache_service (Datatypes.S i) rest ;;
          let '(predictions, uncached_requests, uncached_indices) := r in
          ret (None :: predictions, req :: uncached_requests, i :: uncached_indices)
      end
  end.

(** Second loop of [predict_batch], over
    [enumerate(zip(uncached_requests, risk_scores))]. *)
Fixpoint fill_predictions (cfg : Config) (cache_service : CacheService.t)
    (self : t) (pairs : list (Request * float)) (uncached_indices : list nat)
    (predictions : list (option Py.dict)) : M (list (option Py.dict)) :=
  match pairs with
  | [] => ret predictions
  | (req, score) :: rest =>
      let score := PyNum.np_clip score 0 1 in
      let risk_level := _get_risk_level score in
      now <- datetime_now ;;
      let prediction :=
        build_prediction self req score risk_level (_calculate_factors req) now in
      CacheService.set cfg cache_service (to_dict req) prediction None ;;;
      match uncached_indices with
      | [] => raise (IndexError "list index out of range")
      | original_idx :: indices' =>
          fill_predictions cfg cache_service self rest indices'
            (<[original_idx := Some prediction]> predictions)
      end
  end.

Definition predict_batch (cfg : Config) (cache_service : CacheService.t)
    (self : t) (requests : list Request) : M (list (option Py.dict)) :=
  r <- partition_requests cache_service 0 requests ;;
  let '(predictions, uncached_requests, uncached_indices) := r in
  match uncached_requests with
  | [] => ret predictions
  | _ =>
      frames <- mapM _prepare_features uncached_requests ;;
      features_batch <- Pandas.DataFrame_of_frames frames ;;
      risk_scores <- model_predict (model self) features_batch ;;
      fill_predictions cfg cache_service self
        (combine uncached_requests risk_scores) uncached_indices predictions
  end.

End PredictionService.

(** ** [transformers/feature_engineering.py]: class [FeatureEngineer] *)

Module FeatureEngineer.

Definition TEMP_HIGH : float := 85.
Definition HUMIDITY_LOW : float := 30.
Definition WIND_HIGH : float := 15.

(** A weather observation as [WeatherExtractor.get_current_weather]
    returns it; [w_conditions] is [None] when the key is missing. *)
Record WeatherData : Type := mkWeatherData {
  w_latitude : float;
  w_longitude : float;
  w_timestamp : datetime;
  w_temperature : float;
  w_humidity : float;
  w_wind_speed : float;
  w_wind_direction : float;
  w_conditions : option string;
  w_pressure : float }.

(** The dictionary returned by [create_features]. *)
Record EtlFeatures : Type := mkEtlFeatures {
  e_temperature : float;
  temp_risk : float;
  e_humidity : float;
  humidity_risk : float;
  e_wind_speed : float;
  wind_risk : float;
  composite_risk : float;
  e_month : Z;
  e_hour : Z;
  e_day_of_year : Z;
  is_fire_season : Z;
  temp_humidity_interaction : float;
  wind_temp_interaction : float;
  condition_risk : float }.

Definition condition_map : list (string * float) :=
  [("Clear", 0.8); ("Clouds", 0.5); ("Rain", 0.1);
   ("Drizzle", 0.2); ("Thunderstorm", 0.3); ("Snow", 0)]%float.

Fixpoint lookup_default (k : string) (l : list (string * float)) (default : float)
  : float :=
  match l with
  | [] => default
  | (k', v) :: l' => if String.eqb k k' then v else lookup_default k l' default
  end.

(** What Python's float arithmetic raises. *)
Inductive arith_exn : Type :=
| ZeroDivisionError (msg : string).

Section WithExp.

(** [numpy.exp] on a scalar. *)
Variable np_exp : float -> float.

(** [value] and [threshold] are Python floats, so the division raises on a
    zero [threshold] of either sign; the sigmoid is computed by numpy, which
    does not raise. *)
Definition _normalize_risk (value threshold : float) (higher_is_riskier : bool)
  : arith_exn + float :=
  if (threshold =? 0)%float then inl (ZeroDivisionError "float division by zero")
  else
    let normalized :=
      if higher_is_riskier then ((value - threshold) / threshold)%float
      else ((threshold - value) / threshold)%float in
    let risk := (1 / (1 + np_exp (-5 * normalized)))%float in
    inr (PyNum.np_clip risk 0 1).

Definition create_features (weather_data : WeatherData) : arith_exn + EtlFeatures :=
  let temp := w_temperature weather_data in
  match _normalize_risk temp TEMP_HIGH true with
  | inl e => inl e
  | inr temp_risk =>
  let humidity := w_humidity weather_data in
  match _normalize_risk humidity HUMIDITY_LOW false with
  | inl e => inl e
  | inr humidity_risk =>
  let wind_speed := w_wind_speed weather_data in
  match _normalize_risk wind_speed WIND_HIGH true with
  | inl e => inl e
  | inr wind_risk =>
  let timestamp := w_timestamp weather_data in
  inr {| e_temperature := temp;
         temp_risk := temp_risk;
         e_humidity := humidity;
         humidity_risk := humidity_risk;
         e_wind_speed := wind_speed;
         wind_risk := wind_risk;
         composite_risk :=
           (0.4 * temp_risk + 0.3 * humidity_risk + 0.3 * wind_risk)%float;
         e_month := month timestamp;
         e_hour := hour timestamp;
         e_day_of_year := tm_yday timestamp;
         is_fire_season :=
           if (6 <=? month timestamp) && (month timestamp <=? 10) then 1 else 0;
         temp_humidity_interaction := (temp_risk * humidity_risk)%float;
         wind_temp_interaction := (wind_risk * temp_risk)%float;
         condition_risk :=
           lookup_default
             (match w_conditions weather_data with Some c => c | None => "Clear" end)
             condition_map 0.5%float |}
  end end end.

End WithExp.

Definition create_risk_label (risk_score : float) : string :=
  if (risk_score <? 0.3)%float then "LOW"
  else if (risk_score <? 0.6)%float then "MODERATE"
  else if (risk_score <? 0.8)%float then "HIGH"
  else "EXTREME".

End FeatureEngineer.

(** ** [models/schemas.py]: the ranges [PredictionRequest] enforces *)

Definition in_range (lo hi x : float) : bool := ((lo <=? x) && (x <=? hi))%float.

Definition optional_in_range (lo hi : float) (default : Z) (v : Py.value) : bool :=
  match v with
  | Py.Float x => in_range lo hi x
  | Py.None_ => true
  | Py.Int n => n =? default
  | _ => false
  end.

Definition validated (r : Request) : bool :=
  in_range (-90) 90 (latitude r) && in_range (-180) 180 (longitude r)
  && in_range (-50) 150 (temperature r) && in_range 0 100 (humidity r)
  && in_range 0 200 (wind_speed r)
  && optional_in_range 0 360 0 (wind_direction r)
  && optional_in_range 900 1100 1013 (pressure r).

(** ** Vocabulary of the statements *)

(** The lookup of [request_data] finds nothing to serve. *)
Definition cache_miss (cache_service : CacheService.t) (request_data : Request)
    (w : World) : Prop :=
  match fst (CacheService.get cache_service (to_dict request_data) w) with
  | inr cached => PredictionService.hit cached = None
  | inl _ => False
  end.

(** The lookup of [request_data] finds the non-empty document [doc]. *)
Definition cache_hit (cache_service : CacheService.t) (request_data : Request)
    (w : World) (doc : Py.dict) : Prop :=
  match fst (CacheService.get cache_service (to_dict request_data) w) with
  | inr cached => PredictionService.hit cached = Some doc
  | inl _ => False
  end.

(** [dt] seconds pass on the Redis server. *)
Definition elapse (dt : Z) (w : World) : World :=
  let rd := redis w in
  mkWorld (mkRedis (kv rd) (server_time rd + dt) (fault rd)
                   (keyspace_hits rd) (keyspace_misses rd))
          (clock w) (ticks w) (model_calls w).

(** The part of a prediction that the score, its category and the
    explanatory factors make up. *)
Definition scoring (p : Py.dict) : option Py.value * option Py.value * option Py.value :=
  (Py.dict_get "risk_score" p, Py.dict_get "risk_level" p,
   Py.dict_get "contributing_factors" p).

Definition outcome {A B : Type} (f : A -> B) (r : exn + A) : exn + B :=
  match r with inl e => inl e | inr a => inr (f a) end.

(** [0 <= x <= 1] on floats. *)
Definition in_unit (x : float) : Prop :=
  (0 <=? x)%float = true /\ (x <=? 1)%float = true.

(** The 128-bit number a digest spells. *)
Definition digest_num (st : Hashlib.state) : Z :=
  let '(a, b, c, d) := st in a + 2 ^ 32 * b + 2 ^ 64 * c + 2 ^ 96 * d.

(** [p i] holds for every [0 <= i < n]. *)
Fixpoint all_below (n : nat) (p : Z -> bool) : bool :=
  match n with
  | O => true
  | Datatypes.S k => p (Z.of_nat k) && all_below k p
  end.

(** [n / 1000] read as a float lies in [[0, 1]]. *)
Definition thousandth_in_unit (n : Z) : bool :=
  let r := SF2Prim (PyNum.dec_to_float false n (-3)) in
  ((0 <=? r) && (r <=? 1))%float.

(** [ttl or config.CACHE_TTL] *)
Definition effective_ttl (cfg : Config) (ttl : option Z) : Z :=
  match ttl with
  | Some n => if n =? 0 then CACHE_TTL cfg else n
  | None => CACHE_TTL cfg
  end.

(** The cache has no backend to talk to: the connection attempt failed at
    start-up, or every command raises. *)
Definition unavailable (cache_service : CacheService.t) (w : World) : Prop :=
  CacheService.redis_client cache_service = None
  \/ exists e, fault (redis w) = Some e.

(** Two requests with the same weather, whatever their coordinates. *)
Definition same_weather (r1 r2 : Request) : Prop :=
  temperature r1 = temperature r2 /\ humidity r1 = humidity r2
  /\ wind_speed r1 = wind_speed r2 /\ wind_direction r1 = wind_direction r2
  /\ pressure r1 = pressure r2.

(** ** Sample data *)

Definition example_config : Config := mkConfig 3600 "v1.0".

Definition example_cache : CacheService.t := CacheService.mk (Some CacheService.Conn).

Definition example_now : datetime := mkDatetime 2025 1 22 10 30 0 0.

(** An empty, reachable Redis server at instant [1000]. *)
Definition example_world : World :=
  mkWorld (mkRedis ∅ 1000 None 0 0) (fun _ => example_now) 0 [].

(** The same server, unreachable. *)
Definition example_world_down : World :=
  mkWorld (mkRedis ∅ 1000 (Some ConnectionError) 0 0) (fun _ => example_now) 0 [].

(** A model that gives every row the score [s]. *)
Definition constant_model (s : float) : Model := fun X => map (fun _ => s) X.

Definition example_service (s : float) : PredictionService.t :=
  PredictionService.mk (constant_model s) "v1.0".

(** The request of the schema's documentation. *)
Definition example_request : Request :=
  mkRequest 34.05 (-118.25) 95 25 20 (Py.Float 180) (Py.Float 1010).

(** The same weather somewhere else. *)
Definition example_request_moved : Request :=
  mkRequest 37.77 (-122.42) 95 25 20 (Py.Float 180) (Py.Float 1010).

Definition example_request_cool : Request :=
  mkRequest 34.05 (-118.25) 60 70 5 (Py.Int 0) (Py.Int 1013).

Definition example_weather : FeatureEngineer.WeatherData :=
  FeatureEngineer.mkWeatherData 34.05 (-118.25) (mkDatetime 2024 7 4 15 0 0 0)
    95 25 20 180 (Some "Clear") 1010.

(** The float [1 + a / 2^52], for [0 <= a < 2^52]. *)
Definition float_of_mantissa (a : Z) : float :=
  SF2Prim (S754_finite false (Z.to_pos (2 ^ 52 + a)) (-52)).

(** A family of pairwise distinct valid requests, indexed by [0 <= i <= 2^128]. *)
Definition request_of_index (i : Z) : Request :=
  mkRequest (float_of_mantissa (i mod 2 ^ 52))
            (float_of_mantissa ((i / 2 ^ 52) mod 2 ^ 52))
            (float_of_mantissa (i / 2 ^ 104))
            50 10 (Py.Int 0) (Py.Int 1013).

(** The digest of the canonical text of a dictionary. *)
Definition key_digest (data : Py.dict) : Hashlib.state :=
  Hashlib.md5 (Hashlib.encode (Py.dumps true (Py.Dict data))).

(** Words and digests within 32 bits. *)
Definition word32 (x : Z) : Prop := 0 <= x < 2 ^ 32.

Definition state32 (st : Hashlib.state) : Prop :=
  let '(a, b, c, d) := st in word32 a /\ word32 b /\ word32 c /\ word32 d.


(** The sample world after the sample request and its moved twin have been
    served once each: both are cached. *)
Definition example_world_warm : World :=
  snd (PredictionService.predict_single example_config example_cache
         (example_service 0.7) example_request_moved
         (snd (PredictionService.predict_single example_config example_cache
                 (example_service 0.7) example_request example_world))).

(** ** [ml_service/models/xgboost_model.py]: class [FireRiskXGBoost] *)

Module FireRiskXGBoost.

(** [predict]: the wrapped model's scores, clipped element by element. *)
Definition predict (model : Model) (X : DataFrame) : list float :=
  let predictions := model X in
  map (fun s => PyNum.np_clip s 0 1) predictions.

End FireRiskXGBoost.

(** ** [app/routes/prediction.py]: the prediction endpoints, from the
    validated request on *)

Module PredictionRoutes.

(** The JSON bodies the endpoints build; [message] keeps the exception whose
    text [str(e)] is sent. *)
Inductive body : Type :=
| Result (result : Py.dict)
| BatchResponse (predictions : list (option Py.dict)) (total : nat)
    (model_version : string)
| ErrorBody (error : string) (message : exn).

(** A body with its HTTP status. *)
Definition Response : Type := (body * Z)%type.

(** [predict], after [PredictionRequest] has accepted the body. *)
Definition predict (cfg : Config) (cache_service : CacheService.t)
    (prediction_service : PredictionService.t) (validated : Request)
  : World -> Response * World :=
  fun w =>
    match PredictionService.predict_single cfg cache_service prediction_service
            validated w with
    | (inr result, w') => ((Result result, 200), w')
    | (inl e, w') => ((ErrorBody "Prediction failed" e, 500), w')
    end.

(** [predict_batch], after [BatchPredictionRequest] has accepted the body. *)
Definition predict_batch (cfg : Config) (cache_service : CacheService.t)
    (prediction_service : PredictionService.t) (requests_list : list Request)
  : World -> Response * World :=
  fun w =>
    match PredictionService.predict_batch cfg cache_service prediction_service
            requests_list w with
    | (inr results, w') =>
        ((BatchResponse results (List.length results)
            (PredictionService.model_version prediction_service), 200), w')
    | (inl e, w') => ((ErrorBody "Batch prediction failed" e, 500), w')
    end.

End PredictionRoutes.

(** ** More vocabulary *)

(** What [CacheService.get] hands back in world [w]. *)
Definition lookup (cache_service : CacheService.t) (data : Py.dict) (w : World)
  : option Py.dict :=
  match CacheService.redis_client cache_service, fault (redis w) with
  | Some _, None =>
      option_map json_loads
        (RedisClient.live (redis w) (CacheService._generate_key data))
  | _, _ => None
  end.

(** The document [predict_single] and [predict_batch] serve for a request,
    if any. *)
Definition served (cache_service : CacheService.t) (request_data : Request)
    (w : World) : option Py.dict :=
  PredictionService.hit (lookup cache_service (to_dict request_data) w).

(** Two worlds whose Redis servers hold the same entries at the same
    instant and are equally reachable. *)
Definition same_store (w w' : World) : Prop :=
  kv (redis w') = kv (redis w) /\ server_time (redis w') = server_time (redis w)
  /\ fault (redis w') = fault (redis w).

(** The store is reachable through a connected client. *)
Definition reachable (cache_service : CacheService.t) (w : World) : Prop :=
  CacheService.redis_client cache_service <> None /\ fault (redis w) = None.

(** A float that is not a number, or lies in [[0, 1]]. *)
Definition nan_or_unit (x : float) : Prop := is_nan x = true \/ in_unit x.

(** Position of a category on the scale LOW < MODERATE < HIGH < EXTREME. *)
Definition level_rank (level : string) : Z :=
  if String.eqb level "LOW" then 0
  else if String.eqb level "MODERATE" then 1
  else if String.eqb level "HIGH" then 2
  else 3.

(** The sample world with every Redis command timing out. *)
Definition example_world_timeout : World :=
  mkWorld (mkRedis ∅ 1000 (Some TimeoutError) 0 0) (fun _ => example_now) 0 [].

(** ** Vocabulary for rounding and decimal text *)

(** Where the fraction [N / D] lies on the integer grid: the integer below
    it, and the position of the remainder with respect to the midpoint. *)
Definition cellq (N D : Z) : Z * location :=
  (N / D,
   if N mod D =? 0 then loc_Exact else loc_Inexact (2 * (N mod D) ?= D)).

(** The same for [N / D] on the grid of step [2^e]. *)
Definition cell (N D e : Z) : Z * location :=
  if 0 <=? e then cellq N (D * 2 ^ e) else cellq (N * 2 ^ (- e)) D.

(** The exponent [binary_round_aux] truncates to when it is started on the
    grid of step [2^e]. *)
Definition target (N D e : Z) : Z :=
  fexp prec emax (Zdigits2 (fst (cell N D e)) + e).

(** [N / D] rounded to binary64 from its position on the grid of step
    [2^e]. *)
Definition round_cell (s : bool) (N D e : Z) : spec_float :=
  binary_round_aux prec emax s (fst (cell N D e)) e (snd (cell N D e)).

(** The decimal [d * 10^p] as a fraction of integers. *)
Definition dec_frac (d p : Z) : Z * Z :=
  if 0 <=? p then (d * 10 ^ p, 1) else (d, 10 ^ (- p)).

(** A grid position as the record [binary_round_aux] shifts. *)
Definition cell_record (c : Z * location) : shr_record :=
  shr_record_of_loc (fst c) (snd c).

(** *** Reading a number back from its text, as [json.loads] does *)

Definition is_digit (c : ascii) : bool :=
  ((48 <=? N_of_ascii c) && (N_of_ascii c <=? 57))%N.

Definition digit_value (c : ascii) : Z := Z.of_N (N_of_ascii c) - 48.

Fixpoint digits_value_from (acc : Z) (s : string) : Z :=
  match s with
  | EmptyString => acc
  | String c s' => digits_value_from (acc * 10 + digit_value c) s'
  end.

(** The number a string of decimal digits denotes. *)
Definition digits_value (s : string) : Z := digits_value_from 0 s.

Fixpoint all_digits (s : string) : bool :=
  match s with
  | EmptyString => true
  | String c s' => is_digit c && all_digits s'
  end.

(** The longest prefix of digits, and what follows it. *)
Fixpoint take_digits (s : string) : string * string :=
  match s with
  | EmptyString => (EmptyString, EmptyString)
  | String c s' =>
      if is_digit c then let '(d, r) := take_digits s' in (String c d, r)
      else (EmptyString, s)
  end.

(** An unsigned decimal numeral [int[.frac][e(+|-)exp]] as a pair [(d, p)]
    of value [d * 10^p]. *)
Definition read_decimal (s : string) : Z * Z :=
  let '(int_part, r1) := take_digits s in
  let '(frac, r2) :=
    match r1 with
    | String c r => if Ascii.eqb c "." then take_digits r else (EmptyString, r1)
    | EmptyString => (EmptyString, r1)
    end in
  let ex :=
    match r2 with
    | String c (String sg r) =>
        if Ascii.eqb c "e" then
          if Ascii.eqb sg "-" then - digits_value (fst (take_digits r))
          else digits_value (fst (take_digits r))
        else 0
    | _ => 0
    end in
  (digits_value (int_part ++ frac), ex - Z.of_nat (String.length frac)).

Definition read_number (negative : bool) (s : string) : spec_float :=
  let '(d, p) := read_decimal s in PyNum.dec_to_float negative d p.

(** The float a JSON number text denotes. *)
Definition read_float (s : string) : spec_float :=
  if String.eqb s "NaN" then S754_nan
  else if String.eqb s "Infinity" then S754_infinity false
  else if String.eqb s "-Infinity" then S754_infinity true
  else
    match s with
    | String c s' => if Ascii.eqb c "-" then read_number true s' else read_number false s
    | EmptyString => S754_nan
    end.

(** [10^(est - 2) <= 2^b] for the estimate [est] that [decpt_of] makes
    from the binary exponent [b]. *)
Definition est_ok (b : Z) : bool :=
  let t := (b * 30103) / 100000 - 2 in
  10 ^ Z.max 0 t * 2 ^ Z.max 0 (- b) <=? 2 ^ Z.max 0 b * 10 ^ Z.max 0 (- t).

(** No character of the text is a comma. *)
Fixpoint no_comma (s : string) : bool :=
  match s with
  | EmptyString => true
  | String c s' => negb (Ascii.eqb c ",") && no_comma s'
  end.

(** The text without its leading minus sign, if it has one. *)
Definition unsigned_text (s : string) : string :=
  match s with
  | String c s' => if Ascii.eqb c "-" then s' else s
  | EmptyString => s
  end.

(** [None] or a number: what an optional field of a request holds. *)
Definition plain_value (v : Py.value) : bool :=
  match v with
  | Py.None_ | Py.Int _ | Py.Float _ => true
  | _ => false
  end.

(** * Properties *)

(** ** Order of binary64 numbers *)

Lemma SFcompare_antisym (x y : spec_float) :
  SFcompare y x = option_map CompOpp (SFcompare x y).
Proof.
  destruct x as [sx|sx| |sx mx ex], y as [sy|sy| |sy my ey]; simpl; try reflexivity;
    try (destruct sx; reflexivity); try (destruct sy; reflexivity);
    try (destruct sx, sy; reflexivity).
  destruct sx, sy; simpl; try reflexivity;
    rewrite (Z.compare_antisym ex ey); destruct (ex ?= ey); simpl; try reflexivity;
    rewrite (Pos.compare_cont_antisym mx my Eq); simpl;
    destruct (Pos.compare_cont Eq mx my); reflexivity.
Qed.

Lemma SFleb_ltb_false (a x : spec_float) :
  SFleb a x = true -> SFltb x a = false.
Proof.
  unfold SFleb, SFltb. rewrite (SFcompare_antisym a x).
  destruct (SFcompare a x) as [[]|]; simpl; congruence.
Qed.

Lemma SFltb_leb (a x : spec_float) : SFltb a x = true -> SFleb a x = true.
Proof. unfold SFleb, SFltb. destruct (SFcompare a x) as [[]|]; congruence. Qed.

Ltac cmp_cases :=
  repeat match goal with
  | |- context [Z.compare ?a ?b] => destruct (Z.compare_spec a b)
  | H : context [Z.compare ?a ?b] |- _ => destruct (Z.compare_spec a b)
  | |- context [Pos.compare ?a ?b] => destruct (Pos.compare_spec a b)
  | H : context [Pos.compare ?a ?b] |- _ => destruct (Pos.compare_spec a b)
  end.

Lemma SFleb_trans (x y z : spec_float) :
  SFleb x y = true -> SFleb y z = true -> SFleb x z = true.
Proof.
  unfold SFleb, SFcompare.
  destruct x as [sx|sx| |sx mx ex], y as [sy|sy| |sy my ey], z as [sz|sz| |sz mz ez];
    try (destruct sx); try (destruct sy); try (destruct sz); simpl;
    try congruence;
    change (Pos.compare_cont Eq) with Pos.compare;
    intros H1 H2; cmp_cases; simpl in *; try congruence; try lia.
Qed.

Lemma leb_ltb_false (a x : float) : (a <=? x)%float = true -> (x <? a)%float = false.
Proof. rewrite FloatAxioms.leb_spec, FloatAxioms.ltb_spec. apply SFleb_ltb_false. Qed.

Lemma leb_trans (x y z : float) :
  (x <=? y)%float = true -> (y <=? z)%float = true -> (x <=? z)%float = true.
Proof. rewrite !FloatAxioms.leb_spec. apply SFleb_trans. Qed.

Lemma ltb_leb (a x : float) : (a <? x)%float = true -> (a <=? x)%float = true.
Proof. rewrite FloatAxioms.leb_spec, FloatAxioms.ltb_spec. apply SFltb_leb. Qed.

(** A score at or above a threshold is not below any lower one. *)
Lemma not_below (lo a x : float) :
  (lo <=? a)%float = true -> (a <=? x)%float = true -> (x <? lo)%float = false.
Proof. intros Hlo Hx. apply leb_ltb_false. exact (leb_trans _ _ _ Hlo Hx). Qed.

(** ** Risk categorization *)

(** C6. The category of a score follows half-open thresholds: scores of
    [0, 0.3) are LOW, of [0.3, 0.6) MODERATE, of [0.6, 0.8) HIGH and of
    [0.8, 1.0] EXTREME, so that 0.3 is MODERATE, 0.6 is HIGH, and 0.8 and 1.0
    are EXTREME; the offline transform's [create_risk_label] assigns the same
    categories. *)
Theorem risk_level_thresholds (x : float) :
  ((0 <=? x)%float = true -> (x <? 0.3)%float = true ->
     PredictionService._get_risk_level x = "LOW") /\
  ((0.3 <=? x)%float = true -> (x <? 0.6)%float = true ->
     PredictionService._get_risk_level x = "MODERATE") /\
  ((0.6 <=? x)%float = true -> (x <? 0.8)%float = true ->
     PredictionService._get_risk_level x = "HIGH") /\
  ((0.8 <=? x)%float = true -> (x <=? 1)%float = true ->
     PredictionService._get_risk_level x = "EXTREME") /\
  PredictionService._get_risk_level 0.3 = "MODERATE" /\
  PredictionService._get_risk_level 0.6 = "HIGH" /\
  PredictionService._get_risk_level 0.8 = "EXTREME" /\
  PredictionService._get_risk_level 1 = "EXTREME" /\
  FeatureEngineer.create_risk_label x = PredictionService._get_risk_level x.
Proof.
  unfold PredictionService._get_risk_level, FeatureEngineer.create_risk_label.
  repeat split; try reflexivity.
  - intros _ H. now rewrite H.
  - intros H3 H6. now rewrite (leb_ltb_false _ _ H3), H6.
  - intros H6 H8.
    rewrite (not_below 0.3 0.6 x eq_refl H6), (leb_ltb_false _ _ H6), H8.
    reflexivity.
  - intros H8 _.
    rewrite (not_below 0.3 0.8 x eq_refl H8), (not_below 0.6 0.8 x eq_refl H8),
      (leb_ltb_false _ _ H8).
    reflexivity.
Qed.

Lemma risk_level_thresholds_witness :
  PredictionService._get_risk_level 0 = "LOW" /\
  PredictionService._get_risk_level 0.2999 = "LOW" /\
  PredictionService._get_risk_level 0.5999 = "MODERATE" /\
  PredictionService._get_risk_level 0.7999 = "HIGH" /\
  PredictionService._get_risk_level 0.9 = "EXTREME".
Proof.
  refine (conj _ (conj _ (conj _ (conj _ _)))).
  - apply (proj1 (risk_level_thresholds 0)); reflexivity.
  - apply (proj1 (risk_level_thresholds 0.2999)); reflexivity.
  - apply (proj1 (proj2 (risk_level_thresholds 0.5999))); reflexivity.
  - apply (proj1 (proj2 (proj2 (risk_level_thresholds 0.7999)))); reflexivity.
  - apply (proj1 (proj2 (proj2 (proj2 (risk_level_thresholds 0.9))))); reflexivity.
Defined.

(** ** Clamping and rounding of scores *)

Lemma digits2_pos_gt (m : positive) : Zpos m < 2 ^ Zpos (digits2_pos m).
Proof.
  induction m as [m IH|m IH|]; simpl digits2_pos.
  - rewrite Pos2Z.inj_succ, Z.pow_succ_r by lia. lia.
  - rewrite Pos2Z.inj_succ, Z.pow_succ_r by lia. lia.
  - reflexivity.
Qed.

(** A canonical mantissa has at most 53 bits. *)
Lemma valid_mantissa_bound (s : bool) (m : positive) (e : Z) :
  valid_binary (S754_finite s m e) = true -> Zpos m < 2 ^ 53.
Proof.
  unfold valid_binary, SpecFloat.valid_binary, bounded, canonical_mantissa, fexp.
  intros H. apply andb_true_iff in H as [H _]. apply Z.eqb_eq in H.
  assert (Hd : Zpos (digits2_pos m) <= 53) by (unfold prec in H; lia).
  pose proof (digits2_pos_gt m) as Hm.
  assert (2 ^ Zpos (digits2_pos m) <= 2 ^ 53) by (apply Z.pow_le_mono_r; lia).
  lia.
Qed.

Lemma rhe_div_bound (a b n : Z) :
  0 <= a -> 0 < b -> a <= n * b -> 0 <= PyNum.rhe_div a b <= n.
Proof.
  intros Ha Hb Hab. unfold PyNum.rhe_div.
  pose proof (Z.div_mod a b ltac:(lia)) as Hdm.
  pose proof (Z.mod_pos_bound a b Hb) as Hr.
  assert (Hq : 0 <= a / b) by (apply Z.div_pos; lia).
  assert (Hqn : a / b <= n) by (apply Z.div_le_upper_bound; lia).
  assert (Hstrict : a / b = n -> a mod b = 0) by nia.
  destruct (Z.compare_spec (2 * (a mod b)) b) as [He|Hl|Hg].
  - destruct (Z.even (a / b)); [lia|].
    assert (a / b <> n) by (intros E; apply Hstrict in E; lia). lia.
  - lia.
  - assert (a / b <> n) by (intros E; apply Hstrict in E; lia). lia.
Qed.

(** A float of [[0, 1]] scaled by a thousand rounds into [[0, 1000]]. *)
Lemma scaled_unit (m : positive) (e : Z) :
  valid_binary (S754_finite false m e) = true ->
  SFleb (S754_finite false m e) (Prim2SF 1) = true ->
  0 <= PyNum.scaled m e 3 <= 1000.
Proof.
  intros Hv Hle. apply valid_mantissa_bound in Hv.
  change (2 ^ 53) with 9007199254740992 in Hv.
  change (Prim2SF 1) with (S754_finite false 4503599627370496 (-52)) in Hle.
  unfold SFleb, SFcompare in Hle.
  change (Pos.compare_cont Eq) with Pos.compare in Hle.
  rewrite Pos2Z.inj_compare in Hle.
  unfold PyNum.scaled, PyNum.scaled_parts.
  change (0 <=? 3) with true. cbv iota. change (10 ^ 3) with 1000.
  destruct (Z.compare_spec e (-52)) as [He|He|He]; try discriminate.
  - subst e. change (0 <=? -52) with false. cbv iota.
    change (2 ^ (- -52)) with 4503599627370496.
    destruct (Z.compare_spec (Zpos m) 4503599627370496) as [Hm|Hm|Hm];
      try discriminate; apply rhe_div_bound; lia.
  - assert (Hneg : (0 <=? e) = false) by (apply Z.leb_gt; lia).
    rewrite Hneg.
    assert (Hp : 2 ^ 53 <= 2 ^ (- e)) by (apply Z.pow_le_mono_r; lia).
    change (2 ^ 53) with 9007199254740992 in Hp.
    set (b := 2 ^ (- e)) in *. clearbody b.
    apply rhe_div_bound; lia.
Qed.

Lemma all_below_spec (n : nat) (p : Z -> bool) :
  all_below n p = true -> forall i, 0 <= i < Z.of_nat n -> p i = true.
Proof.
  induction n as [|k IH]; intros H i Hi; [lia|].
  simpl in H. apply andb_true_iff in H as [Hk Hrest].
  destruct (Z.eq_dec i (Z.of_nat k)) as [->|Hne]; [exact Hk|].
  apply IH; [exact Hrest|lia].
Qed.

Lemma unit_table_ok : all_below 1001 thousandth_in_unit = true.
Proof. vm_compute. reflexivity. Qed.

Lemma thousandths_in_unit (n : Z) :
  0 <= n <= 1000 -> in_unit (SF2Prim (PyNum.dec_to_float false n (-3))).
Proof.
  intros Hn.
  assert (H : thousandth_in_unit n = true).
  { apply (all_below_spec 1001 thousandth_in_unit unit_table_ok).
    change (Z.of_nat 1001) with 1001. lia. }
  unfold thousandth_in_unit in H. apply andb_true_iff in H. exact H.
Qed.

(** Rounding to three decimals keeps a score of [[0, 1]] in [[0, 1]]. *)
Lemma py_round_unit (x : float) : in_unit x -> in_unit (PyNum.py_round x 3).
Proof.
  intros [H0 H1]. unfold PyNum.py_round.
  pose proof (Prim2SF_valid x) as Hv.
  pose proof H0 as H0'. pose proof H1 as H1'.
  rewrite FloatAxioms.leb_spec in H0', H1'.
  destruct (Prim2SF x) as [s|s| |s m e]; try (split; assumption).
  destruct s; [discriminate H0'|].
  apply thousandths_in_unit. apply scaled_unit; assumption.
Qed.

Lemma is_nan_false_eqb (x : float) : is_nan x = false -> (x =? x)%float = true.
Proof. unfold is_nan. destruct (x =? x)%float; simpl; congruence. Qed.

(** [np.clip(x, 0, 1)] of a number lies in [[0, 1]]. *)
Lemma np_clip_unit (x : float) : is_nan x = false -> in_unit (PyNum.np_clip x 0 1).
Proof.
  intros Hx. unfold PyNum.np_clip, PyNum.np_maximum. rewrite Hx.
  destruct (0 <? x)%float eqn:Hpos.
  - unfold PyNum.np_minimum. rewrite Hx.
    destruct (x <? 1)%float eqn:Hlt.
    + split; [apply ltb_leb; exact Hpos | apply ltb_leb; exact Hlt].
    + split; reflexivity.
  - split; reflexivity.
Qed.

(** [np.clip] returns a NaN score as it is. *)
Lemma np_clip_nan : PyNum.np_clip nan 0 1 = nan.
Proof. reflexivity. Qed.

(** ** The cache never raises and leaves clock and model alone *)

Lemma world_eta (w : World) :
  mkWorld (redis w) (clock w) (ticks w) (model_calls w) = w.
Proof. destruct w; reflexivity. Qed.

(** What [CacheService.get] returns, case by case. *)
Lemma get_cases (cs : CacheService.t) (d : Py.dict) (w : World) :
  CacheService.get cs d w =
  match CacheService.redis_client cs, fault (redis w) with
  | Some _, None =>
      let rd := redis w in
      match RedisClient.live rd (CacheService._generate_key d) with
      | Some text =>
          (inr (Some (json_loads text)),
           mkWorld (mkRedis (kv rd) (server_time rd) (fault rd)
                            (keyspace_hits rd + 1) (keyspace_misses rd))
                   (clock w) (ticks w) (model_calls w))
      | None =>
          (inr None,
           mkWorld (mkRedis (kv rd) (server_time rd) (fault rd)
                            (keyspace_hits rd) (keyspace_misses rd + 1))
                   (clock w) (ticks w) (model_calls w))
      end
  | _, _ => (inr None, w)
  end.
Proof.
  unfold CacheService.get, try_except, bind, RedisClient.get, RedisClient.with_redis, ret.
  destruct (CacheService.redis_client cs); [|reflexivity].
  destruct (fault (redis w)); [reflexivity|].
  cbv zeta. destruct (RedisClient.live (redis w) (CacheService._generate_key d));
    reflexivity.
Qed.

(** What [CacheService.set] does, case by case. *)
Lemma set_cases (cfg : Config) (cs : CacheService.t) (d p : Py.dict)
    (ttl : option Z) (w : World) :
  CacheService.set cfg cs d p ttl w =
  match CacheService.redis_client cs, fault (redis w) with
  | Some _, None =>
      let rd := redis w in
      if effective_ttl cfg ttl <=? 0 then (inr tt, w)
      else
        (inr tt,
         mkWorld (mkRedis (<[CacheService._generate_key d :=
                              (json_dumps p, server_time rd + effective_ttl cfg ttl)]>
                            (kv rd))
                          (server_time rd) (fault rd)
                          (keyspace_hits rd) (keyspace_misses rd))
                 (clock w) (ticks w) (model_calls w))
  | _, _ => (inr tt, w)
  end.
Proof.
  unfold CacheService.set, try_except, RedisClient.setex, RedisClient.with_redis, ret.
  fold (effective_ttl cfg ttl).
  destruct (CacheService.redis_client cs); [|reflexivity].
  destruct (fault (redis w)); [reflexivity|].
  cbv zeta. destruct (effective_ttl cfg ttl <=? 0); [|reflexivity].
  now rewrite world_eta.
Qed.

Lemma get_frame (cs : CacheService.t) (d : Py.dict) (w : World) :
  exists c w', CacheService.get cs d w = (inr c, w')
    /\ clock w' = clock w /\ ticks w' = ticks w /\ model_calls w' = model_calls w.
Proof.
  rewrite get_cases.
  destruct (CacheService.redis_client cs); [|eauto 10].
  destruct (fault (redis w)); [eauto 10|].
  cbv zeta. destruct (RedisClient.live (redis w) (CacheService._generate_key d));
    eauto 10.
Qed.

Lemma set_frame (cfg : Config) (cs : CacheService.t) (d p : Py.dict)
    (ttl : option Z) (w : World) :
  exists w', CacheService.set cfg cs d p ttl w = (inr tt, w')
    /\ clock w' = clock w /\ ticks w' = ticks w /\ model_calls w' = model_calls w.
Proof.
  rewrite set_cases.
  destruct (CacheService.redis_client cs); [|eauto 10].
  destruct (fault (redis w)); [eauto 10|].
  cbv zeta. destruct (effective_ttl cfg ttl <=? 0); eauto 10.
Qed.

(** ** [predict_single], hit and miss *)

Lemma predict_single_miss (cfg : Config) (cs : CacheService.t)
    (svc : PredictionService.t) (req : Request) (w : World)
    (raw : float) (rest : list float) :
  cache_miss cs req w ->
  PredictionService.model svc
    [PredictionService.features_at req (clock w (ticks w))] = raw :: rest ->
  exists w',
    PredictionService.predict_single cfg cs svc req w =
      (inr (PredictionService.build_prediction svc req (PyNum.np_clip raw 0 1)
              (PredictionService._get_risk_level (PyNum.np_clip raw 0 1))
              (PredictionService._calculate_factors req)
              (clock w (Datatypes.S (ticks w)))), w')
    /\ model_calls w' =
       (model_calls w ++ [[PredictionService.features_at req (clock w (ticks w))]])%list.
Proof.
  unfold cache_miss. intros Hmiss Hmodel.
  destruct (get_frame cs (to_dict req) w) as (c & w1 & Hget & Hc & Ht & Hm).
  rewrite Hget in Hmiss. simpl in Hmiss.
  unfold PredictionService.predict_single, bind at 1. rewrite Hget, Hmiss.
  unfold PredictionService._prepare_features, Pandas.DataFrame_of_records,
    datetime_now, model_predict, bind, ret.
  cbn [clock ticks model_calls redis]. rewrite Hc, Ht, Hmodel.
  match goal with
  | |- context [CacheService.set ?a ?b ?c ?d ?e ?f] =>
      destruct (set_frame a b c d e f) as (w' & Hset & Hc' & Ht' & Hm')
  end.
  rewrite Hset. exists w'. split; [reflexivity|].
  rewrite Hm'. cbn [model_calls]. now rewrite Hm.
Qed.



Lemma predict_single_miss_empty (cfg : Config) (cs : CacheService.t)
    (svc : PredictionService.t) (req : Request) (w : World) :
  cache_miss cs req w ->
  PredictionService.model svc
    [PredictionService.features_at req (clock w (ticks w))] = [] ->
  fst (PredictionService.predict_single cfg cs svc req w)
  = inl (IndexError "index 0 is out of bounds").
Proof.
  unfold cache_miss. intros Hmiss Hmodel.
  destruct (get_frame cs (to_dict req) w) as (c & w1 & Hget & Hc & Ht & Hm).
  rewrite Hget in Hmiss. simpl in Hmiss.
  unfold PredictionService.predict_single, bind at 1. rewrite Hget, Hmiss.
  unfold PredictionService._prepare_features, Pandas.DataFrame_of_records,
    datetime_now, model_predict, bind, ret.
  cbn [clock ticks model_calls redis]. rewrite Hc, Ht, Hmodel. reflexivity.
Qed.

(** ** Score clamping *)

(** C5, as the code has it. On a cache miss a raw score that is a number is
    clamped: the returned risk_score lies in [[0, 1]]; a raw 1.5 gives 1.0 and
    EXTREME, a raw -0.3 gives 0.0 and LOW. *)
Theorem clamped_score_in_unit (cfg : Config) (cs : CacheService.t)
    (svc : PredictionService.t) (req : Request) (w : World)
    (raw : float) (rest : list float) :
  cache_miss cs req w ->
  PredictionService.model svc
    [PredictionService.features_at req (clock w (ticks w))] = raw :: rest ->
  is_nan raw = false ->
  exists p w' s,
    PredictionService.predict_single cfg cs svc req w = (inr p, w')
    /\ Py.dict_get "risk_score" p = Some (Py.Float s)
    /\ in_unit s
    /\ (raw = 1.5%float ->
        s = 1%float /\ Py.dict_get "risk_level" p = Some (Py.Str "EXTREME"))
    /\ (raw = (-0.3)%float ->
        s = 0%float /\ Py.dict_get "risk_level" p = Some (Py.Str "LOW")).
Proof.
  intros Hmiss Hmodel Hnan.
  destruct (predict_single_miss cfg cs svc req w raw rest Hmiss Hmodel)
    as (w' & Hrun & _).
  eexists _, w', _. split; [exact Hrun|].
  split; [reflexivity|].
  split; [apply py_round_unit, np_clip_unit, Hnan|].
  split; intros ->; split; reflexivity.
Qed.

Lemma clamped_score_in_unit_witness :
  exists p w',
    PredictionService.predict_single example_config example_cache
      (example_service 1.5) example_request example_world = (inr p, w')
    /\ Py.dict_get "risk_score" p = Some (Py.Float 1)
    /\ Py.dict_get "risk_level" p = Some (Py.Str "EXTREME").
Proof.
  destruct (clamped_score_in_unit example_config example_cache (example_service 1.5)
              example_request example_world 1.5%float [])
    as (p & w' & s & Hrun & Hs & _ & Hhigh & _).
  - vm_compute. reflexivity.
  - reflexivity.
  - reflexivity.
  - destruct (Hhigh eq_refl) as [-> Hlevel].
    exists p, w'. repeat split; assumption.
Defined.

(** A raw score that is not a number passes through [np.clip] and the
    rounding unchanged: the returned risk_score is NaN, outside [[0, 1]]. *)
Lemma nan_score_not_clamped :
  exists p w',
    PredictionService.predict_single example_config example_cache
      (example_service nan) example_request example_world = (inr p, w')
    /\ Py.dict_get "risk_score" p = Some (Py.Float nan)
    /\ Py.dict_get "risk_level" p = Some (Py.Str "EXTREME")
    /\ ~ in_unit nan.
Proof.
  eexists _, _. split; [vm_compute; reflexivity|].
  split; [reflexivity|]. split; [reflexivity|].
  intros [H _]. discriminate H.
Qed.

(** ** Rounding happens when the result is assembled *)

(** C9. On a cache miss the category is that of the full-precision clamped
    score, the emitted risk_score is that score rounded to three decimals,
    and each contributing factor is computed from the unrounded inputs and
    rounded last. *)
Theorem rounding_at_result_boundary (cfg : Config) (cs : CacheService.t)
    (svc : PredictionService.t) (req : Request) (w : World)
    (raw : float) (rest : list float) :
  cache_miss cs req w ->
  PredictionService.model svc
    [PredictionService.features_at req (clock w (ticks w))] = raw :: rest ->
  exists p w',
    PredictionService.predict_single cfg cs svc req w = (inr p, w')
    /\ Py.dict_get "risk_level" p
       = Some (Py.Str (PredictionService._get_risk_level (PyNum.np_clip raw 0 1)))
    /\ Py.dict_get "risk_score" p
       = Some (Py.Float (PyNum.py_round (PyNum.np_clip raw 0 1) 3))
    /\ Py.dict_get "contributing_factors" p
       = Some (Py.Dict
           [("temperature_factor",
             if (0 <? (temperature req - 70) / 40)%float
             then Py.Float (PyNum.py_round ((temperature req - 70) / 40)%float 3)
             else Py.Int 0);
            ("humidity_factor",
             if (0 <? (50 - humidity req) / 50)%float
             then Py.Float (PyNum.py_round ((50 - humidity req) / 50)%float 3)
             else Py.Int 0);
            ("wind_factor",
             if (wind_speed req / 20 <? 1)%float
             then Py.Float (PyNum.py_round (wind_speed req / 20)%float 3)
             else Py.Int 1)]).
Proof.
  intros Hmiss Hmodel.
  destruct (predict_single_miss cfg cs svc req w raw rest Hmiss Hmodel)
    as (w' & Hrun & _).
  eexists _, w'. split; [exact Hrun|]. repeat split.
Qed.

(** A raw score of 0.2996 is LOW although its rounded value 0.3 would be
    MODERATE. *)
Lemma rounding_at_result_boundary_witness :
  exists p w',
    PredictionService.predict_single example_config example_cache
      (example_service 0.2996) example_request example_world = (inr p, w')
    /\ Py.dict_get "risk_level" p = Some (Py.Str "LOW")
    /\ Py.dict_get "risk_score" p = Some (Py.Float 0.3)
    /\ PredictionService._get_risk_level 0.3 = "MODERATE".
Proof.
  destruct (rounding_at_result_boundary example_config example_cache
              (example_service 0.2996) example_request example_world 0.2996%float [])
    as (p & w' & Hrun & Hlevel & Hscore & _).
  - vm_compute. reflexivity.
  - reflexivity.
  - exists p, w'. split; [exact Hrun|]. split; [exact Hlevel|].
    split; [exact Hscore|reflexivity].
Defined.

(** ** Where the temporal features come from *)

(** C8. The serving path reads month, hour and day of year from the clock at
    prediction time, whatever the request; the offline transform reads them
    from the observation's own timestamp, whatever the clock. *)
Theorem temporal_feature_sources :
  (forall (req : Request) (w : World),
     exists row,
       PredictionService._prepare_features req w
       = (inr [row], mkWorld (redis w) (clock w) (Datatypes.S (ticks w)) (model_calls w))
       /\ f_month row = month (clock w (ticks w))
       /\ f_hour row = hour (clock w (ticks w))
       /\ f_day_of_year row = tm_yday (clock w (ticks w)))
  /\ (forall (np_exp : float -> float) (obs : FeatureEngineer.WeatherData),
        exists f,
          FeatureEngineer.create_features np_exp obs = inr f
          /\ FeatureEngineer.e_month f = month (FeatureEngineer.w_timestamp obs)
          /\ FeatureEngineer.e_hour f = hour (FeatureEngineer.w_timestamp obs)
          /\ FeatureEngineer.e_day_of_year f
             = tm_yday (FeatureEngineer.w_timestamp obs)).
Proof.
  split.
  - intros req w. eexists. split; [reflexivity|]. repeat split.
  - intros np_exp obs. eexists. split; [reflexivity|]. repeat split.
Qed.

(** ** Coordinates do not influence the score *)

Lemma same_weather_features (r1 r2 : Request) (now : datetime) :
  same_weather r1 r2 ->
  PredictionService.features_at r1 now = PredictionService.features_at r2 now.
Proof.
  intros (Ht & Hh & Hw & Hd & Hp). unfold PredictionService.features_at.
  now rewrite Ht, Hh, Hw, Hd, Hp.
Qed.

Lemma same_weather_factors (r1 r2 : Request) :
  same_weather r1 r2 ->
  PredictionService._calculate_factors r1 = PredictionService._calculate_factors r2.
Proof.
  intros (Ht & Hh & Hw & _). unfold PredictionService._calculate_factors.
  now rewrite Ht, Hh, Hw.
Qed.

Lemma predict_single_miss_outcome (cfg : Config) (cs : CacheService.t)
    (svc : PredictionService.t) (req : Request) (w : World) :
  cache_miss cs req w ->
  fst (PredictionService.predict_single cfg cs svc req w) =
  match PredictionService.model svc
          [PredictionService.features_at req (clock w (ticks w))] with
  | [] => inl (IndexError "index 0 is out of bounds")
  | raw :: _ =>
      inr (PredictionService.build_prediction svc req (PyNum.np_clip raw 0 1)
             (PredictionService._get_risk_level (PyNum.np_clip raw 0 1))
             (PredictionService._calculate_factors req)
             (clock w (Datatypes.S (ticks w))))
  end.
Proof.
  intros Hmiss.
  destruct (PredictionService.model svc _) as [|raw rest] eqn:Hmodel.
  - now apply predict_single_miss_empty.
  - destruct (predict_single_miss cfg cs svc req w raw rest Hmiss Hmodel)
      as (w' & Hrun & _).
    now rewrite Hrun.
Qed.

(** C10. Two requests that differ only in latitude and longitude, scored
    from the same world (same clock, same model), get the same risk_score,
    risk_level and contributing_factors; the coordinates reach neither the
    feature row nor the factors and are only copied into the result. *)
Theorem location_noninterference (cfg : Config) (cs : CacheService.t)
    (svc : PredictionService.t) (r1 r2 : Request) (w : World) :
  same_weather r1 r2 ->
  cache_miss cs r1 w ->
  cache_miss cs r2 w ->
  outcome scoring (fst (PredictionService.predict_single cfg cs svc r1 w))
  = outcome scoring (fst (PredictionService.predict_single cfg cs svc r2 w))
  /\ (forall now, PredictionService.features_at r1 now
                  = PredictionService.features_at r2 now)
  /\ PredictionService._calculate_factors r1 = PredictionService._calculate_factors r2
  /\ (forall p, fst (PredictionService.predict_single cfg cs svc r1 w) = inr p ->
        Py.dict_get "latitude" p = Some (Py.Float (latitude r1))
        /\ Py.dict_get "longitude" p = Some (Py.Float (longitude r1))).
Proof.
  intros Hsame Hm1 Hm2.
  rewrite (predict_single_miss_outcome cfg cs svc r1 w Hm1),
    (predict_single_miss_outcome cfg cs svc r2 w Hm2).
  rewrite (same_weather_features r1 r2 _ Hsame).
  split; [|split; [|split]].
  - destruct (PredictionService.model svc _) as [|raw rest]; [reflexivity|].
    unfold outcome, scoring, PredictionService.build_prediction. simpl.
    now rewrite (same_weather_factors r1 r2 Hsame).
  - intros now. now apply same_weather_features.
  - now apply same_weather_factors.
  - intros p. destruct (PredictionService.model svc _) as [|raw rest];
      [discriminate|].
    intros [= <-]. split; reflexivity.
Qed.

Lemma location_noninterference_witness :
  outcome scoring
    (fst (PredictionService.predict_single example_config example_cache
            (example_service 0.7) example_request example_world))
  = outcome scoring
      (fst (PredictionService.predict_single example_config example_cache
              (example_service 0.7) example_request_moved example_world))
  /\ latitude example_request <> latitude example_request_moved.
Proof.
  split.
  - apply (location_noninterference example_config example_cache (example_service 0.7)
             example_request example_request_moved example_world).
    + repeat split.
    + vm_compute. reflexivity.
    + vm_compute. reflexivity.
  - intros H. apply (f_equal (fun x => (x <? 35)%float)) in H. discriminate H.
Defined.

(** ** The cache fails open *)

Lemma get_stats_cases (cs : CacheService.t) (w : World) :
  CacheService.get_stats cs w =
  match CacheService.redis_client cs, fault (redis w) with
  | Some _, None =>
      let rd := redis w in
      (inr [("connected", Py.Bool true);
            ("total_keys",
             Py.Int (Z.of_nat (List.length
                       (List.filter (RedisClient.is_live rd) (map_to_list (kv rd))))));
            ("hits", Py.Int (keyspace_hits rd));
            ("misses", Py.Int (keyspace_misses rd));
            ("hit_rate",
             Py.Float (CacheService._calculate_hit_rate
                         (keyspace_hits rd) (keyspace_misses rd)))], w)
  | _, _ => (inr [("connected", Py.Bool false)], w)
  end.
Proof.
  destruct w as [rd cl tk mc].
  unfold CacheService.get_stats, try_except, bind, RedisClient.info_stats,
    RedisClient.dbsize, RedisClient.with_redis, ret.
  destruct (CacheService.redis_client cs); [|reflexivity].
  cbv beta iota zeta delta [redis clock ticks model_calls].
  destruct (fault rd) eqn:Hf; [reflexivity|].
  cbv beta iota zeta delta [redis clock ticks model_calls fst snd].
  rewrite Hf. reflexivity.
Qed.

(** C7. No error of the backing store reaches the caller.  In every world
    [get], [set] and [get_stats] return normally; when the store is
    unavailable [get] reports absent, [set] changes nothing, [get_stats]
    reports [connected: False], and a prediction is still computed and
    returned. *)
Theorem cache_fails_open (cfg : Config) (cs : CacheService.t) (d p : Py.dict)
    (ttl : option Z) (w : World) :
  (exists c w', CacheService.get cs d w = (inr c, w'))
  /\ (exists w', CacheService.set cfg cs d p ttl w = (inr tt, w'))
  /\ (exists s w', CacheService.get_stats cs w = (inr s, w'))
  /\ (unavailable cs w ->
      CacheService.get cs d w = (inr None, w)
      /\ CacheService.set cfg cs d p ttl w = (inr tt, w)
      /\ CacheService.get_stats cs w = (inr [("connected", Py.Bool false)], w)
      /\ forall (svc : PredictionService.t) (req : Request) raw rest,
           PredictionService.model svc
             [PredictionService.features_at req (clock w (ticks w))] = raw :: rest ->
           exists fresh w',
             PredictionService.predict_single cfg cs svc req w = (inr fresh, w')
             /\ Py.dict_get "from_cache" fresh = Some (Py.Bool false)
             /\ redis w' = redis w).
Proof.
  split; [|split; [|split]].
  - destruct (get_frame cs d w) as (c & w' & H & _). eauto.
  - destruct (set_frame cfg cs d p ttl w) as (w' & H & _). eauto.
  - rewrite get_stats_cases.
    destruct (CacheService.redis_client cs); [|eauto].
    destruct (fault (redis w)); eauto.
  - intros Hdown.
    assert (Hget : forall d', CacheService.get cs d' w = (inr None, w)).
    { intros d'. rewrite get_cases.
      destruct Hdown as [-> | [e ->]]; [reflexivity|].
      destruct (CacheService.redis_client cs); reflexivity. }
    assert (Hset : forall d' p' w1, redis w1 = redis w ->
                     CacheService.set cfg cs d' p' ttl w1 = (inr tt, w1)
                     /\ CacheService.set cfg cs d' p' None w1 = (inr tt, w1)).
    { intros d' p' w1 Hr. rewrite !set_cases, Hr.
      destruct Hdown as [-> | [e ->]]; [split; reflexivity|].
      destruct (CacheService.redis_client cs); split; reflexivity. }
    split; [apply Hget|]. split; [apply (Hset d p w eq_refl)|].
    split.
    { rewrite get_stats_cases.
      destruct Hdown as [-> | [e ->]]; [reflexivity|].
      destruct (CacheService.redis_client cs); reflexivity. }
    intros svc req raw rest Hmodel.
    unfold PredictionService.predict_single, bind at 1. rewrite Hget. simpl.
    unfold PredictionService._prepare_features, Pandas.DataFrame_of_records,
      datetime_now, model_predict, bind, ret.
    cbn [clock ticks model_calls redis]. rewrite Hmodel.
    match goal with
    | |- context [CacheService.set ?a ?b ?c ?e None ?f] =>
        destruct (Hset c e f eq_refl) as [_ ->]
    end.
    eexists _, _. split; [reflexivity|]. split; reflexivity.
Qed.

Lemma cache_fails_open_witness :
  CacheService.get example_cache (to_dict example_request) example_world_down
    = (inr None, example_world_down)
  /\ CacheService.get_stats example_cache example_world_down
    = (inr [("connected", Py.Bool false)], example_world_down)
  /\ unavailable example_cache example_world_down.
Proof.
  assert (Hdown : unavailable example_cache example_world_down)
    by (right; exists ConnectionError; reflexivity).
  destruct (cache_fails_open example_config example_cache (to_dict example_request)
              [] None example_world_down) as (_ & _ & _ & H).
  destruct (H Hdown) as (Hget & _ & Hstats & _).
  split; [exact Hget|]. split; [exact Hstats|exact Hdown].
Defined.

(** ** Cache round trip *)


(** ** The cache key does not depend on the order of the fields *)

Lemma key_ltb_irrefl (a : string) : Py.key_ltb a a = false.
Proof.
  unfold Py.key_ltb. destruct (String_as_OT.compare_spec a a) as [_|H|H];
    try reflexivity; exfalso; exact (StrictOrder_Irreflexive a H).
Qed.

Lemma key_ltb_trans (a b c : string) :
  Py.key_ltb a b = true -> Py.key_ltb b c = true -> Py.key_ltb a c = true.
Proof.
  unfold Py.key_ltb.
  destruct (String_as_OT.compare_spec a b) as [|Hab|]; try discriminate.
  destruct (String_as_OT.compare_spec b c) as [|Hbc|]; try discriminate.
  intros _ _.
  assert (Hac : String_as_OT.lt a c) by (etransitivity; eassumption).
  unfold String_as_OT.lt in Hac. now rewrite Hac.
Qed.

Lemma key_ltb_total (a b : string) :
  a <> b -> Py.key_ltb a b = false -> Py.key_ltb b a = true.
Proof.
  unfold Py.key_ltb. intros Hne.
  destruct (String_as_OT.compare_spec a b) as [E|Hab|Hba]; try congruence.
  intros _. unfold String_as_OT.lt in Hba. now rewrite Hba.
Qed.

Lemma key_ltb_asym (a b : string) :
  Py.key_ltb a b = true -> Py.key_ltb b a = false.
Proof.
  intros Hab. destruct (Py.key_ltb b a) eqn:Hba; [|reflexivity].
  pose proof (key_ltb_trans _ _ _ Hab Hba) as H.
  now rewrite key_ltb_irrefl in H.
Qed.

(** Two insertions of items with different keys commute. *)
Lemma insert_item_comm {A : Type} (x y : string * A) (l : list (string * A)) :
  fst x <> fst y ->
  Py.insert_item x (Py.insert_item y l) = Py.insert_item y (Py.insert_item x l).
Proof.
  intros Hne. induction l as [|z l IH]; simpl.
  - destruct (Py.key_ltb (fst y) (fst x)) eqn:Hyx.
    + now rewrite (key_ltb_asym _ _ Hyx).
    + now rewrite (key_ltb_total _ _ (not_eq_sym Hne) Hyx).
  - destruct (Py.key_ltb (fst z) (fst y)) eqn:Hzy,
             (Py.key_ltb (fst z) (fst x)) eqn:Hzx; simpl; rewrite ?Hzy, ?Hzx.
    + now rewrite IH.
    + destruct (Py.key_ltb (fst x) (fst y)) eqn:Hxy; [reflexivity|].
      exfalso.
      destruct (string_dec (fst z) (fst x)) as [E|Hzx'].
      * rewrite E in Hzy. congruence.
      * pose proof (key_ltb_total _ _ Hzx' Hzx) as Hxz.
        pose proof (key_ltb_trans _ _ _ Hxz Hzy). congruence.
    + destruct (Py.key_ltb (fst y) (fst x)) eqn:Hyx; [reflexivity|].
      exfalso.
      destruct (string_dec (fst z) (fst y)) as [E|Hzy'].
      * rewrite E in Hzx. congruence.
      * pose proof (key_ltb_total _ _ Hzy' Hzy) as Hyz.
        pose proof (key_ltb_trans _ _ _ Hyz Hzx). congruence.
    + destruct (Py.key_ltb (fst y) (fst x)) eqn:Hyx.
      * now rewrite (key_ltb_asym _ _ Hyx).
      * now rewrite (key_ltb_total _ _ (not_eq_sym Hne) Hyx).
Qed.

(** Sorting by key forgets the order in which distinct keys arrived. *)
Lemma sort_items_perm {A : Type} (l l' : list (string * A)) :
  Permutation l l' -> List.NoDup (map fst l) -> Py.sort_items l = Py.sort_items l'.
Proof.
  induction 1 as [|x l l' Hp IH|x y l|l l' l'' Hp1 IH1 Hp2 IH2]; intros Hnd.
  - reflexivity.
  - simpl. f_equal. apply IH. simpl in Hnd. apply List.NoDup_cons_iff in Hnd. tauto.
  - simpl. apply insert_item_comm.
    simpl in Hnd. apply List.NoDup_cons_iff in Hnd as [Hin _].
    intros E. apply Hin. left. symmetry. exact E.
  - rewrite IH1 by assumption. apply IH2.
    eapply Permutation_NoDup; [|exact Hnd]. now apply Permutation_map.
Qed.

Lemma dumps_sorted_perm (d d' : Py.dict) :
  Permutation d d' -> List.NoDup (Py.keys d) ->
  Py.dumps true (Py.Dict d) = Py.dumps true (Py.Dict d').
Proof.
  intros Hp Hnd. simpl. do 4 f_equal.
  apply sort_items_perm.
  - now apply Permutation_map.
  - rewrite map_map. exact Hnd.
Qed.

(** ** Digests and keys *)

Lemma wrap32_word (x : Z) : word32 (Hashlib.wrap32 x).
Proof. unfold word32, Hashlib.wrap32. apply Z.mod_pos_bound. lia. Qed.

Lemma compress_state32 (st : Hashlib.state) (chunk : list Z) :
  state32 (Hashlib.compress st chunk).
Proof.
  unfold Hashlib.compress.
  destruct (fold_left _ _ st) as [[[a b] c] d]. destruct st as [[[a0 b0] c0] d0].
  repeat split; apply wrap32_word.
Qed.

Lemma absorb_state32 (n : nat) (st : Hashlib.state) (bs : list Z) :
  state32 st -> state32 (Hashlib.absorb n st bs).
Proof.
  revert st bs. induction n as [|n IH]; intros st bs Hst; simpl; [exact Hst|].
  apply IH, compress_state32.
Qed.

Lemma md5_state32 (msg : list Z) : state32 (Hashlib.md5 msg).
Proof.
  unfold Hashlib.md5. apply absorb_state32.
  unfold Hashlib.init, state32, word32. lia.
Qed.

Lemma digest_num_range (st : Hashlib.state) :
  state32 st -> 0 <= digest_num st < 2 ^ 128.
Proof.
  destruct st as [[[a b] c] d]. unfold state32, word32, digest_num. lia.
Qed.

Lemma digest_num_inj (s1 s2 : Hashlib.state) :
  state32 s1 -> state32 s2 -> digest_num s1 = digest_num s2 -> s1 = s2.
Proof.
  destruct s1 as [[[a b] c] d], s2 as [[[a' b'] c'] d'].
  unfold state32, word32, digest_num. intros H1 H2 H.
  assert (a = a' /\ b = b' /\ c = c' /\ d = d') as (-> & -> & -> & ->) by lia.
  reflexivity.
Qed.

Lemma hex_char_inj (x y : Z) :
  0 <= x < 16 -> 0 <= y < 16 -> Hashlib.hex_char x = Hashlib.hex_char y -> x = y.
Proof.
  unfold Hashlib.hex_char. intros Hx Hy H.
  apply (f_equal N_of_ascii) in H.
  rewrite !N_ascii_embedding in H.
  - destruct (x <? 10) eqn:Ex, (y <? 10) eqn:Ey; lia.
  - destruct (y <? 10) eqn:Ey; lia.
  - destruct (x <? 10) eqn:Ex; lia.
Qed.

Lemma hex_byte_inj (x y : Z) :
  0 <= x < 256 -> 0 <= y < 256 -> Hashlib.hex_byte x = Hashlib.hex_byte y -> x = y.
Proof.
  unfold Hashlib.hex_byte. intros Hx Hy H. injection H as H1 H2.
  apply hex_char_inj in H2; [|apply Z.mod_pos_bound; lia ..].
  apply hex_char_inj in H1;
    [|split; [apply Z.div_pos; lia|apply Z.div_lt_upper_bound; lia] ..].
  rewrite (Z.div_mod x 16), (Z.div_mod y 16) by lia. lia.
Qed.

Lemma le_bytes_range (n : nat) (x : Z) : Forall (fun b => 0 <= b < 256) (Hashlib.le_bytes n x).
Proof.
  revert x. induction n as [|n IH]; intros x; simpl; constructor.
  - apply Z.mod_pos_bound. lia.
  - apply IH.
Qed.

Lemma le_bytes4_inj (x y : Z) :
  word32 x -> word32 y -> Hashlib.le_bytes 4 x = Hashlib.le_bytes 4 y -> x = y.
Proof.
  unfold word32. intros Hx Hy H. simpl in H.
  injection H as H0 H1 H2 H3.
  pose proof (Z.div_mod x 256 ltac:(lia)).
  pose proof (Z.div_mod (x / 256) 256 ltac:(lia)).
  pose proof (Z.div_mod (x / 256 / 256) 256 ltac:(lia)).
  pose proof (Z.div_mod y 256 ltac:(lia)).
  pose proof (Z.div_mod (y / 256) 256 ltac:(lia)).
  pose proof (Z.div_mod (y / 256 / 256) 256 ltac:(lia)).
  assert (x / 256 / 256 / 256 < 256)
    by (repeat (apply Z.div_lt_upper_bound; [lia|]); lia).
  assert (y / 256 / 256 / 256 < 256)
    by (repeat (apply Z.div_lt_upper_bound; [lia|]); lia).
  assert (0 <= x / 256 / 256 / 256) by (repeat (apply Z.div_pos; [|lia]); lia).
  assert (0 <= y / 256 / 256 / 256) by (repeat (apply Z.div_pos; [|lia]); lia).
  rewrite (Z.mod_small (x / 256 / 256 / 256)) in H3 by lia.
  rewrite (Z.mod_small (y / 256 / 256 / 256)) in H3 by lia.
  lia.
Qed.

(** Hexadecimal text of equally many bytes determines the bytes. *)
Lemma hex_concat_inj (l1 l2 : list Z) :
  Forall (fun b => 0 <= b < 256) l1 -> Forall (fun b => 0 <= b < 256) l2 ->
  List.length l1 = List.length l2 ->
  String.concat "" (map Hashlib.hex_byte l1) = String.concat "" (map Hashlib.hex_byte l2) ->
  l1 = l2.
Proof.
  assert (Hcons : forall b l, String.concat "" (map Hashlib.hex_byte (b :: l))
            = String (Hashlib.hex_char (b / 16))
                (String (Hashlib.hex_char (b mod 16))
                   (String.concat "" (map Hashlib.hex_byte l)))).
  { intros b [|b' l]; reflexivity. }
  revert l2. induction l1 as [|b1 l1 IH]; intros [|b2 l2] H1 H2 Hlen H;
    try discriminate; [reflexivity|].
  rewrite !Hcons in H. injection H as Ha Hb Hrest.
  inversion H1; inversion H2; subst.
  f_equal.
  - apply hex_byte_inj; try assumption. unfold Hashlib.hex_byte. congruence.
  - apply IH; try assumption. simpl in Hlen. lia.
Qed.

Lemma digest_bytes_inj (s1 s2 : Hashlib.state) :
  state32 s1 -> state32 s2 ->
  Hashlib.digest_bytes s1 = Hashlib.digest_bytes s2 -> s1 = s2.
Proof.
  destruct s1 as [[[a b] c] d], s2 as [[[a' b'] c'] d'].
  intros (Ha & Hb & Hc & Hd) (Ha' & Hb' & Hc' & Hd') H.
  unfold Hashlib.digest_bytes in H.
  assert (Hsplit : forall (u v u' v' : list Z),
            List.length u = List.length u' -> (u ++ v = u' ++ v')%list ->
            u = u' /\ v = v').
  { intros u. induction u as [|x u IHu]; intros v [|x' u'] v' Hl Happ;
      try discriminate; simpl in *.
    - now split.
    - injection Happ as -> Happ. destruct (IHu v u' v') as [-> ->]; [lia|assumption|].
      now split. }
  apply Hsplit in H as [H1 H]; [|reflexivity].
  apply Hsplit in H as [H2 H]; [|reflexivity].
  apply Hsplit in H as [H3 H4]; [|reflexivity].
  apply le_bytes4_inj in H1, H2, H3, H4; try assumption.
  congruence.
Qed.

Lemma digest_bytes_shape (st : Hashlib.state) :
  Forall (fun b => 0 <= b < 256) (Hashlib.digest_bytes st)
  /\ List.length (Hashlib.digest_bytes st) = 16%nat.
Proof.
  destruct st as [[[a b] c] d]. unfold Hashlib.digest_bytes. split.
  - repeat (apply Forall_app; split); apply le_bytes_range.
  - reflexivity.
Qed.

(** Two keys are equal exactly when the digests behind them are. *)
Lemma generate_key_eq_iff (d d' : Py.dict) :
  CacheService._generate_key d = CacheService._generate_key d'
  <-> key_digest d = key_digest d'.
Proof.
  unfold CacheService._generate_key, Hashlib.hexdigest. fold (key_digest d) (key_digest d').
  split.
  - intros H. simpl in H. injection H as H.
    apply digest_bytes_inj; try apply md5_state32.
    destruct (digest_bytes_shape (key_digest d)) as [F1 L1].
    destruct (digest_bytes_shape (key_digest d')) as [F2 L2].
    apply hex_concat_inj; try assumption. congruence.
  - intros ->. reflexivity.
Qed.

(** ** More requests than keys *)

Lemma bounded_search (f : Z -> Z) (v n : Z) :
  0 <= n ->
  (exists i, 0 <= i < n /\ f i = v) \/ (forall i, 0 <= i < n -> f i <> v).
Proof.
  intros Hn. pattern n. apply natlike_ind; [| |exact Hn].
  - right. intros i Hi. lia.
  - intros k Hk [(i & Hi & E)|Hnone].
    + left. exists i. split; [lia|exact E].
    + destruct (Z.eq_dec (f k) v) as [E|Hne].
      * left. exists k. split; [lia|exact E].
      * right. intros i Hi. destruct (Z.eq_dec i k) as [->|Hik]; [exact Hne|].
        apply Hnone. lia.
Qed.

(** Pigeonhole: [n + 1] indices cannot have pairwise distinct images among
    [n] values. *)
Lemma pigeonhole (n : Z) :
  0 <= n ->
  forall f : Z -> Z,
    (forall i, 0 <= i <= n -> 0 <= f i < n) ->
    exists i j, 0 <= i < j /\ j <= n /\ f i = f j.
Proof.
  intros Hn. pattern n. apply natlike_ind; [| |exact Hn].
  - intros f Hf. specialize (Hf 0). lia.
  - intros k Hk IH f Hf.
    destruct (bounded_search f (f (Z.succ k)) (Z.succ k) ltac:(lia))
      as [(i & Hi & E)|Hnone].
    + exists i, (Z.succ k). split; [lia|split; [lia|exact E]].
    + set (v := f (Z.succ k)) in *.
      assert (Hv : 0 <= v < Z.succ k) by (apply Hf; lia).
      destruct (IH (fun i => if f i <? v then f i else f i - 1)) as (i & j & Hij & Hj & E).
      * intros i Hi. pose proof (Hf i ltac:(lia)). pose proof (Hnone i ltac:(lia)).
        destruct (Z.ltb_spec (f i) v); lia.
      * exists i, j. split; [lia|split; [lia|]].
        pose proof (Hnone i ltac:(lia)). pose proof (Hnone j ltac:(lia)).
        cbv beta in E.
        destruct (Z.ltb_spec (f i) v), (Z.ltb_spec (f j) v); lia.
Qed.

Lemma digits2_pos_le (m : positive) : 2 ^ (Zpos (digits2_pos m) - 1) <= Zpos m.
Proof.
  induction m as [m IH|m IH|]; simpl digits2_pos.
  - rewrite Pos2Z.inj_succ. replace (Z.succ (Zpos (digits2_pos m)) - 1)
      with (Z.succ (Zpos (digits2_pos m) - 1)) by lia.
    rewrite Z.pow_succ_r by lia. lia.
  - rewrite Pos2Z.inj_succ. replace (Z.succ (Zpos (digits2_pos m)) - 1)
      with (Z.succ (Zpos (digits2_pos m) - 1)) by lia.
    rewrite Z.pow_succ_r by lia. lia.
  - reflexivity.
Qed.

Lemma digits2_pos_53 (m : positive) :
  4503599627370496 <= Zpos m < 9007199254740992 -> Zpos (digits2_pos m) = 53.
Proof.
  intros Hm. pose proof (digits2_pos_gt m) as Hgt. pose proof (digits2_pos_le m) as Hle.
  set (d := Zpos (digits2_pos m)) in *.
  assert (Hd : 0 < d) by (unfold d; lia).
  destruct (Z.lt_trichotomy d 53) as [Hlt|[E|Hgt']]; [|exact E|].
  - assert (2 ^ d <= 2 ^ 52) by (apply Z.pow_le_mono_r; lia).
    change (2 ^ 52) with 4503599627370496 in *. lia.
  - assert (2 ^ 53 <= 2 ^ (d - 1)) by (apply Z.pow_le_mono_r; lia).
    change (2 ^ 53) with 9007199254740992 in *. lia.
Qed.

Lemma Prim2SF_float_of_mantissa (a : Z) :
  0 <= a < 4503599627370496 ->
  Prim2SF (float_of_mantissa a)
  = S754_finite false (Z.to_pos (4503599627370496 + a)) (-52).
Proof.
  intros Ha. unfold float_of_mantissa. change (2 ^ 52) with 4503599627370496.
  apply Prim2SF_SF2Prim.
  unfold SpecFloat.valid_binary, bounded, canonical_mantissa, fexp.
  rewrite digits2_pos_53 by (rewrite Z2Pos.id; lia).
  reflexivity.
Qed.

Lemma float_of_mantissa_inj (a b : Z) :
  0 <= a < 4503599627370496 -> 0 <= b < 4503599627370496 ->
  float_of_mantissa a = float_of_mantissa b -> a = b.
Proof.
  intros Ha Hb H. apply (f_equal Prim2SF) in H.
  rewrite !Prim2SF_float_of_mantissa in H by assumption.
  injection H as H. apply (f_equal Zpos) in H.
  rewrite !Z2Pos.id in H by lia. lia.
Qed.

(** Every float [1 + a / 2^52] lies in each range that contains [[1, 2]]. *)
Lemma float_of_mantissa_in_range (lo hi : float) (a : Z) :
  0 <= a < 4503599627370496 ->
  (lo <=? 1)%float = true -> (2 <=? hi)%float = true ->
  in_range lo hi (float_of_mantissa a) = true.
Proof.
  intros Ha Hlo Hhi. unfold in_range. apply andb_true_iff.
  assert (H1 : (1 <=? float_of_mantissa a)%float = true).
  { rewrite FloatAxioms.leb_spec, Prim2SF_float_of_mantissa by assumption.
    change (Prim2SF 1) with (S754_finite false 4503599627370496 (-52)).
    unfold SFleb, SFcompare. change (-52 ?= -52) with Eq. cbv iota.
    change (Pos.compare_cont Eq) with Pos.compare.
    rewrite Pos2Z.inj_compare, Z2Pos.id by lia.
    destruct (Z.compare_spec 4503599627370496 (4503599627370496 + a));
      try reflexivity; lia. }
  assert (H2 : (float_of_mantissa a <=? 2)%float = true).
  { rewrite FloatAxioms.leb_spec, Prim2SF_float_of_mantissa by assumption.
    change (Prim2SF 2) with (S754_finite false 4503599627370496 (-51)).
    reflexivity. }
  split; eapply leb_trans; eassumption.
Qed.

Lemma request_of_index_validated (i : Z) :
  0 <= i <= 2 ^ 128 -> validated (request_of_index i) = true.
Proof.
  intros Hi. change (2 ^ 128) with 340282366920938463463374607431768211456 in Hi.
  unfold validated, request_of_index. cbn [latitude longitude temperature humidity
    wind_speed wind_direction pressure].
  change (2 ^ 52) with 4503599627370496.
  change (2 ^ 104) with 20282409603651670423947251286016.
  rewrite !float_of_mantissa_in_range; try reflexivity.
  - split; [apply Z.div_pos; lia|apply Z.div_lt_upper_bound; lia].
  - apply Z.mod_pos_bound. lia.
  - apply Z.mod_pos_bound. lia.
Qed.

Lemma request_of_index_inj (i j : Z) :
  0 <= i <= 2 ^ 128 -> 0 <= j <= 2 ^ 128 ->
  request_of_index i = request_of_index j -> i = j.
Proof.
  change (2 ^ 128) with 340282366920938463463374607431768211456.
  intros Hi Hj H. unfold request_of_index in H.
  change (2 ^ 52) with 4503599627370496 in H.
  change (2 ^ 104) with 20282409603651670423947251286016 in H.
  injection H as H1 H2 H3.
  apply float_of_mantissa_inj in H1; [|apply Z.mod_pos_bound; lia ..].
  apply float_of_mantissa_inj in H2; [|apply Z.mod_pos_bound; lia ..].
  apply float_of_mantissa_inj in H3;
    [|split; [apply Z.div_pos; lia|apply Z.div_lt_upper_bound; lia] ..].
  assert (Hdd : forall x, x / 20282409603651670423947251286016
                          = x / 4503599627370496 / 4503599627370496)
    by (intros x; rewrite Z.div_div by lia; reflexivity).
  rewrite !Hdd in H3.
  pose proof (Z.div_mod i 4503599627370496 ltac:(lia)).
  pose proof (Z.div_mod j 4503599627370496 ltac:(lia)).
  pose proof (Z.div_mod (i / 4503599627370496) 4503599627370496 ltac:(lia)).
  pose proof (Z.div_mod (j / 4503599627370496) 4503599627370496 ltac:(lia)).
  lia.
Qed.

(** ** Rounding a fraction to binary64 *)

Lemma compare_scale (c a b : Z) : 0 < c -> (c * a ?= c * b) = (a ?= b).
Proof.
  intros Hc. destruct (Z.compare_spec a b) as [E|L|G].
  - subst. apply Z.compare_refl.
  - apply Z.compare_lt_iff. nia.
  - apply Z.compare_gt_iff. nia.
Qed.

Lemma cellq_scale (c N D : Z) :
  0 < c -> 0 < D -> cellq (c * N) (c * D) = cellq N D.
Proof.
  intros Hc HD. unfold cellq.
  rewrite Z.div_mul_cancel_l by lia.
  rewrite Z.mul_mod_distr_l by lia.
  f_equal.
  destruct (Z.eqb_spec (N mod D) 0) as [E|E].
  - rewrite E, Z.mul_0_r. reflexivity.
  - destruct (Z.eqb_spec (c * (N mod D)) 0) as [E'|E']; [nia|].
    f_equal. rewrite Z.mul_assoc, (Z.mul_comm 2 c), <- Z.mul_assoc.
    apply compare_scale. exact Hc.
Qed.

Lemma cellq_ratio (N1 D1 N2 D2 : Z) :
  0 < D1 -> 0 < D2 -> N1 * D2 = N2 * D1 -> cellq N1 D1 = cellq N2 D2.
Proof.
  intros H1 H2 E.
  rewrite <- (cellq_scale D2 N1 D1), <- (cellq_scale D1 N2 D2) by assumption.
  f_equal; lia.
Qed.

Lemma shr_1_spec (m : Z) (r s : bool) :
  0 <= m ->
  shr_1 (Build_shr_record m r s) = Build_shr_record (m / 2) (Z.odd m) (r || s).
Proof.
  intros Hm. unfold shr_1.
  destruct m as [|[p|p|]|p]; try lia; try reflexivity.
  - f_equal. rewrite Pos2Z.inj_xI. symmetry.
    rewrite Z.add_comm, Z.mul_comm, Z.div_add by lia. reflexivity.
  - f_equal. rewrite Pos2Z.inj_xO. symmetry.
    rewrite Z.mul_comm, Z.div_mul by lia. reflexivity.
Qed.

Lemma cellq_half (N D : Z) :
  0 <= N -> 0 < D ->
  shr_1 (shr_record_of_loc (fst (cellq N D)) (snd (cellq N D)))
  = shr_record_of_loc (fst (cellq N (2 * D))) (snd (cellq N (2 * D))).
Proof.
  intros HN HD. unfold cellq. cbn [fst snd].
  pose proof (Z.div_mod N D ltac:(lia)) as Hdm.
  pose proof (Z.mod_pos_bound N D HD) as Hr.
  assert (Hq : 0 <= N / D) by (apply Z.div_pos; lia).
  set (q := N / D) in *. set (r := N mod D) in *.
  pose proof (Z.div_mod q 2 ltac:(lia)) as Hq2.
  pose proof (Z.mod_pos_bound q 2 ltac:(lia)) as Hb.
  assert (Hrange : 0 <= (q mod 2) * D + r < 2 * D) by nia.
  assert (Heq : N = 2 * D * (q / 2) + ((q mod 2) * D + r)) by nia.
  assert (Hdiv : N / (2 * D) = q / 2).
  { symmetry. apply Z.div_unique_pos with (r := (q mod 2) * D + r); assumption. }
  assert (Hmod : N mod (2 * D) = (q mod 2) * D + r).
  { symmetry. apply Z.mod_unique_pos with (q := q / 2); assumption. }
  rewrite Hdiv, Hmod.
  assert (Hodd : Z.odd q = (q mod 2 =? 1)).
  { rewrite Zmod_odd. destruct (Z.odd q); reflexivity. }
  assert (Hrec : forall l, shr_1 (shr_record_of_loc q l)
                 = Build_shr_record (q / 2) (Z.odd q)
                     (match l with loc_Exact => false | _ => true end)).
  { intros [|[| |]]; cbn [shr_record_of_loc]; rewrite shr_1_spec by lia;
      reflexivity. }
  rewrite Hrec, Hodd.
  destruct (Z.eqb_spec r 0) as [Er|Er].
  - rewrite Er, Z.add_0_r.
    destruct (Z.eqb_spec (q mod 2) 1) as [E1|E1].
    + rewrite E1, Z.mul_1_l.
      destruct (Z.eqb_spec D 0); [lia|].
      replace (2 * D ?= 2 * D) with Eq by (symmetry; apply Z.compare_refl).
      reflexivity.
    + replace (q mod 2) with 0 by lia. reflexivity.
  - destruct (Z.eqb_spec (q mod 2) 1) as [E1|E1].
    + rewrite E1, Z.mul_1_l.
      destruct (Z.eqb_spec (D + r) 0); [lia|].
      replace (2 * (D + r) ?= 2 * D) with Gt
        by (symmetry; apply Z.compare_gt_iff; lia).
      destruct (2 * r ?= D); reflexivity.
    + replace (q mod 2) with 0 by lia. rewrite Z.mul_0_l, Z.add_0_l.
      destruct (Z.eqb_spec r 0); [lia|].
      replace (2 * r ?= 2 * D) with Lt
        by (symmetry; apply Z.compare_lt_iff; lia).
      destruct (2 * r ?= D); reflexivity.
Qed.

Lemma cell_step (N D e : Z) :
  0 <= N -> 0 < D ->
  shr_1 (cell_record (cell N D e)) = cell_record (cell N D (e + 1)).
Proof.
  intros HN HD. unfold cell, cell_record.
  destruct (Z.leb_spec 0 e) as [He|He].
  - destruct (Z.leb_spec 0 (e + 1)) as [_|]; [|lia].
    assert (Hp : 0 < 2 ^ e) by (apply Z.pow_pos_nonneg; lia).
    rewrite cellq_half by nia.
    rewrite Z.pow_add_r by lia. change (2 ^ 1) with 2.
    replace (2 * (D * 2 ^ e)) with (D * (2 ^ e * 2)) by ring. reflexivity.
  - assert (Hp : 0 < 2 ^ (- (e + 1))) by (apply Z.pow_pos_nonneg; lia).
    assert (Hpow : 2 ^ (- e) = 2 * 2 ^ (- (e + 1))).
    { replace (- e) with (- (e + 1) + 1) by lia.
      rewrite Z.pow_add_r by lia. change (2 ^ 1) with 2. ring. }
    rewrite Hpow, cellq_half by nia.
    replace (N * (2 * 2 ^ (- (e + 1)))) with (2 * (N * 2 ^ (- (e + 1)))) by ring.
    rewrite cellq_scale by lia.
    destruct (Z.leb_spec 0 (e + 1)) as [H0|H0]; [|reflexivity].
    replace (e + 1) with 0 by lia. cbn [Z.opp]. change (2 ^ 0) with 1.
    now rewrite !Z.mul_1_r.
Qed.

Lemma iter_shr_cell (N D : Z) (p : positive) :
  0 <= N -> 0 < D -> forall e,
  SpecFloat.iter_pos shr_1 p (cell_record (cell N D e))
  = cell_record (cell N D (e + Zpos p)).
Proof.
  intros HN HD. induction p as [p IH|p IH|]; intros e; cbn [SpecFloat.iter_pos].
  - rewrite cell_step, !IH by assumption. f_equal. f_equal. lia.
  - rewrite !IH. f_equal. f_equal. lia.
  - apply cell_step; assumption.
Qed.

Lemma shr_cell (N D e n : Z) :
  0 <= N -> 0 < D -> 0 <= n ->
  shr (cell_record (cell N D e)) e n = (cell_record (cell N D (e + n)), e + n).
Proof.
  intros HN HD Hn. unfold shr. destruct n as [|p|p]; [|now rewrite iter_shr_cell|lia].
  now rewrite Z.add_0_r.
Qed.

Lemma cell_record_m (c : Z * location) : shr_m (cell_record c) = fst c.
Proof. destruct c as [q [|[| |]]]; reflexivity. Qed.

Lemma cell_record_loc (c : Z * location) : loc_of_shr_record (cell_record c) = snd c.
Proof. destruct c as [q [|[| |]]]; reflexivity. Qed.

Lemma shr_fexp_cell (N D e : Z) :
  0 <= N -> 0 < D -> e <= target N D e ->
  shr_fexp prec emax (fst (cell N D e)) e (snd (cell N D e))
  = (cell_record (cell N D (target N D e)), target N D e).
Proof.
  intros HN HD He. unfold shr_fexp. fold (cell_record (cell N D e)).
  fold (target N D e). rewrite shr_cell by lia.
  replace (e + (target N D e - e)) with (target N D e) by lia. reflexivity.
Qed.

(** *** Bit lengths *)

Lemma Zdigits2_log2 (m : Z) : 0 < m -> Zdigits2 m = Z.log2 m + 1.
Proof.
  destruct m as [|p|p]; try lia. intros _. cbn [Zdigits2].
  assert (Hsize : forall q, digits2_pos q = Pos.size q)
    by (induction q as [q IH|q IH|]; cbn; now rewrite ?IH).
  rewrite Hsize. destruct p as [p|p|]; cbn [Z.log2 Pos.size]; lia.
Qed.

Lemma Zdigits2_bounds (m : Z) :
  0 < m -> 2 ^ (Zdigits2 m - 1) <= m < 2 ^ Zdigits2 m.
Proof.
  intros Hm. rewrite Zdigits2_log2 by assumption.
  replace (Z.log2 m + 1 - 1) with (Z.log2 m) by lia.
  replace (Z.log2 m + 1) with (Z.succ (Z.log2 m)) by lia.
  apply Z.log2_spec. exact Hm.
Qed.

Lemma Zdigits2_unique (m d : Z) :
  0 < d -> 2 ^ (d - 1) <= m < 2 ^ d -> Zdigits2 m = d.
Proof.
  intros Hd Hm.
  assert (0 < m) by (assert (0 < 2 ^ (d - 1)) by (apply Z.pow_pos_nonneg; lia); lia).
  rewrite Zdigits2_log2 by assumption.
  rewrite (Z.log2_unique m (d - 1)); [lia|lia|].
  replace (Z.succ (d - 1)) with d by lia. exact Hm.
Qed.

Lemma Zdigits2_pos (m : Z) : 0 < m -> 0 < Zdigits2 m.
Proof. intros H. rewrite Zdigits2_log2 by assumption. pose proof (Z.log2_nonneg m). lia. Qed.

(** The bit length of a floor on a coarser grid. *)
Lemma Zdigits2_div_pow2 (q j : Z) :
  0 <= j -> 0 < q / 2 ^ j -> Zdigits2 (q / 2 ^ j) = Zdigits2 q - j.
Proof.
  intros Hj Hq.
  assert (Hp : 0 < 2 ^ j) by (apply Z.pow_pos_nonneg; lia).
  assert (Hq0 : 0 < q).
  { destruct (Z.lt_trichotomy q 0) as [H|[H|H]]; [|subst; now rewrite Z.div_0_l in Hq by lia|exact H].
    assert (q / 2 ^ j < 0) by (apply Z.div_lt_upper_bound; lia). lia. }
  pose proof (Zdigits2_bounds (q / 2 ^ j) Hq) as Hb.
  pose proof (Z.div_mod q (2 ^ j) ltac:(lia)) as Hdm.
  pose proof (Z.mod_pos_bound q (2 ^ j) Hp) as Hr.
  pose proof (Zdigits2_pos _ Hq) as Hd.
  set (d := Zdigits2 (q / 2 ^ j)) in *.
  assert (Zdigits2 q = d + j); [|lia].
  apply Zdigits2_unique; [lia|].
  replace (d + j - 1) with ((d - 1) + j) by lia.
  rewrite !Z.pow_add_r by lia. nia.
Qed.

Lemma cell_fst_shift (N D e j : Z) :
  0 <= N -> 0 < D -> 0 <= j ->
  fst (cell N D (e + j)) = fst (cell N D e) / 2 ^ j.
Proof.
  intros HN HD Hj. unfold cell, cellq.
  assert (Hpj : 0 < 2 ^ j) by (apply Z.pow_pos_nonneg; lia).
  destruct (Z.leb_spec 0 e) as [He|He].
  - destruct (Z.leb_spec 0 (e + j)) as [_|]; [|lia]. cbn [fst].
    assert (0 < 2 ^ e) by (apply Z.pow_pos_nonneg; lia).
    rewrite Z.pow_add_r, Z.mul_assoc by lia.
    rewrite Z.div_div by nia. reflexivity.
  - assert (Hpe : 0 < 2 ^ (- e)) by (apply Z.pow_pos_nonneg; lia).
    destruct (Z.leb_spec 0 (e + j)) as [H0|H0]; cbn [fst].
    + assert (0 < 2 ^ (e + j)) by (apply Z.pow_pos_nonneg; lia).
      rewrite Z.div_div by lia.
      replace (2 ^ j) with (2 ^ (- e) * 2 ^ (e + j))
        by (rewrite <- Z.pow_add_r by lia; f_equal; lia).
      replace (D * (2 ^ (- e) * 2 ^ (e + j))) with (2 ^ (- e) * (D * 2 ^ (e + j))) by ring.
      rewrite (Z.mul_comm N), Z.div_mul_cancel_l by nia. reflexivity.
    + assert (0 < 2 ^ (- (e + j))) by (apply Z.pow_pos_nonneg; lia).
      rewrite Z.div_div by lia.
      replace (2 ^ (- e)) with (2 ^ j * 2 ^ (- (e + j)))
        by (rewrite <- Z.pow_add_r by lia; f_equal; lia).
      replace (N * (2 ^ j * 2 ^ (- (e + j)))) with (2 ^ j * (N * 2 ^ (- (e + j)))) by ring.
      rewrite (Z.mul_comm D), Z.div_mul_cancel_l by lia. reflexivity.
Qed.

(** *** The rounded value does not depend on where rounding starts *)

Lemma fexp_eq (a : Z) : fexp prec emax a = Z.max (a - 53) (-1074).
Proof. reflexivity. Qed.

Lemma cell_fst_nonneg (N D e : Z) : 0 <= N -> 0 < D -> 0 <= fst (cell N D e).
Proof.
  intros HN HD. unfold cell, cellq.
  assert (0 < 2 ^ Z.abs e) by (apply Z.pow_pos_nonneg; lia).
  destruct (Z.leb_spec 0 e) as [He|He]; cbn [fst]; apply Z.div_pos;
    first [lia|rewrite <- ?Z.abs_neq, ?Z.abs_eq by lia; nia].
Qed.

Lemma cell_ratio (N1 D1 N2 D2 e : Z) :
  0 < D1 -> 0 < D2 -> N1 * D2 = N2 * D1 -> cell N1 D1 e = cell N2 D2 e.
Proof.
  intros H1 H2 E. unfold cell. destruct (Z.leb_spec 0 e) as [He|He].
  - assert (0 < 2 ^ e) by (apply Z.pow_pos_nonneg; lia).
    apply cellq_ratio; nia.
  - assert (0 < 2 ^ (- e)) by (apply Z.pow_pos_nonneg; lia).
    apply cellq_ratio; nia.
Qed.

Lemma target_start (N D e e' : Z) :
  0 <= N -> 0 < D -> e <= e' -> e' <= target N D e' ->
  target N D e = target N D e'.
Proof.
  intros HN HD Hee Hv. unfold target in *.
  pose proof (cell_fst_shift N D e (e' - e) HN HD ltac:(lia)) as Hs.
  replace (e + (e' - e)) with e' in Hs by lia.
  pose proof (cell_fst_nonneg N D e HN HD) as Hq.
  pose proof (cell_fst_nonneg N D e' HN HD) as Hq'.
  set (q := fst (cell N D e)) in *. set (q' := fst (cell N D e')) in *.
  destruct (Z.eq_dec q' 0) as [E0|E0].
  - rewrite E0 in Hv |- *. cbn [Zdigits2] in Hv |- *.
    rewrite fexp_eq in Hv. rewrite !fexp_eq.
    assert (Hd : Zdigits2 q <= e' - e).
    { destruct (Z.eq_dec q 0) as [Eq|Eq]; [rewrite Eq; cbn [Zdigits2]; lia|].
      pose proof (Zdigits2_bounds q ltac:(lia)) as Hb.
      assert (Hlt : q < 2 ^ (e' - e)).
      { assert (0 < 2 ^ (e' - e)) by (apply Z.pow_pos_nonneg; lia).
        rewrite E0 in Hs. symmetry in Hs.
        apply Z.div_small_iff in Hs; lia. }
      assert (H : 2 ^ (Zdigits2 q - 1) < 2 ^ (e' - e)) by lia.
      apply Z.pow_lt_mono_r_iff in H; lia. }
    lia.
  - rewrite Hs in *. rewrite Zdigits2_div_pow2 by lia. f_equal. lia.
Qed.

Lemma round_cell_start (s : bool) (N D e e' : Z) :
  0 <= N -> 0 < D -> e <= e' -> e' <= target N D e' ->
  round_cell s N D e = round_cell s N D e'.
Proof.
  intros HN HD Hee Hv. pose proof (target_start N D e e' HN HD Hee Hv) as Ht.
  unfold round_cell, binary_round_aux.
  rewrite !shr_fexp_cell by lia. now rewrite Ht.
Qed.

Lemma round_cell_any_start (s : bool) (N D e e' : Z) :
  0 <= N -> 0 < D -> e <= target N D e -> e' <= target N D e' ->
  round_cell s N D e = round_cell s N D e'.
Proof.
  intros HN HD Hv Hv'. destruct (Z.le_ge_cases e e').
  - now apply round_cell_start.
  - symmetry. now apply round_cell_start.
Qed.

Lemma round_cell_ratio (s : bool) (N1 D1 N2 D2 e : Z) :
  0 < D1 -> 0 < D2 -> N1 * D2 = N2 * D1 ->
  round_cell s N1 D1 e = round_cell s N2 D2 e.
Proof.
  intros H1 H2 E. unfold round_cell. now rewrite (cell_ratio N1 D1 N2 D2 e).
Qed.

(** *** Division and conversion of integers as rounding of a fraction *)

Lemma new_location_cellq (N D : Z) :
  0 < D -> new_location D (N mod D) = snd (cellq N D).
Proof.
  intros HD. pose proof (Z.mod_pos_bound N D HD) as Hr.
  unfold new_location, cellq, new_location_even, new_location_odd. cbn [snd].
  set (r := N mod D) in *.
  destruct (Z.even D) eqn:Hev; [reflexivity|].
  destruct (Z.eqb_spec r 0) as [E|E]; [reflexivity|]. f_equal.
  assert (Hodd : Z.odd D = true) by (rewrite <- Z.negb_even, Hev; reflexivity).
  apply Z.odd_spec in Hodd as [k Hk].
  destruct (Z.compare_spec (2 * r + 1) D) as [H|H|H];
    symmetry; [apply Z.compare_lt_iff|apply Z.compare_lt_iff|apply Z.compare_gt_iff]; lia.
Qed.

Lemma cell_nonpos (N D e : Z) :
  e <= 0 -> cell N D e = cellq (N * 2 ^ (- e)) D.
Proof.
  intros He. unfold cell. destruct (Z.leb_spec 0 e) as [H0|H0]; [|reflexivity].
  replace e with 0 by lia. cbn [Z.opp]. change (2 ^ 0) with 1.
  now rewrite !Z.mul_1_r.
Qed.

Lemma div_start_valid (a b : Z) :
  0 < a -> 0 < b ->
  Z.min (fexp prec emax (Zdigits2 a - Zdigits2 b)) 0
  <= target a b (Z.min (fexp prec emax (Zdigits2 a - Zdigits2 b)) 0).
Proof.
  intros Ha Hb. set (e := Z.min _ 0). unfold target.
  assert (He0 : e <= 0) by (unfold e; lia).
  assert (Hef : e <= fexp prec emax (Zdigits2 a - Zdigits2 b)) by (unfold e; lia).
  rewrite fexp_eq in Hef. rewrite fexp_eq.
  destruct (Z.le_gt_cases e (-1074)) as [Hlow|Hhigh]; [lia|].
  assert (Hbig : e + 53 <= Zdigits2 a - Zdigits2 b) by lia.
  pose proof (Zdigits2_bounds a Ha) as Hda. pose proof (Zdigits2_bounds b Hb) as Hdb.
  pose proof (Zdigits2_pos a Ha). pose proof (Zdigits2_pos b Hb).
  set (da := Zdigits2 a) in *. set (db := Zdigits2 b) in *.
  assert (Hq : 2 ^ (da - db - e - 1) <= fst (cell a b e)).
  { rewrite cell_nonpos by lia. unfold cellq. cbn [fst].
    apply Z.div_le_lower_bound; [lia|].
    assert (Hsplit : 2 ^ (da - 1) * 2 ^ (- e) = 2 ^ db * 2 ^ (da - db - e - 1)).
    { rewrite <- !Z.pow_add_r by lia. f_equal. lia. }
    assert (0 < 2 ^ (- e)) by (apply Z.pow_pos_nonneg; lia).
    assert (0 < 2 ^ (da - db - e - 1)) by (apply Z.pow_pos_nonneg; lia).
    nia. }
  assert (Hpos : 0 < fst (cell a b e)).
  { assert (0 < 2 ^ (da - db - e - 1)) by (apply Z.pow_pos_nonneg; lia). lia. }
  pose proof (Zdigits2_bounds _ Hpos) as Hdq.
  pose proof (Zdigits2_pos _ Hpos).
  assert (Hlt : 2 ^ (da - db - e - 1) < 2 ^ Zdigits2 (fst (cell a b e))) by lia.
  apply Z.pow_lt_mono_r_iff in Hlt; lia.
Qed.

Lemma SFdiv_round_cell (s : bool) (a b : positive) :
  exists e,
    e <= target (Zpos a) (Zpos b) e
    /\ SFdiv prec emax (S754_finite s a 0) (S754_finite false b 0)
       = round_cell s (Zpos a) (Zpos b) e.
Proof.
  exists (Z.min (fexp prec emax (Zdigits2 (Zpos a) - Zdigits2 (Zpos b))) 0).
  split; [apply div_start_valid; lia|].
  unfold SFdiv, SFdiv_core_binary.
  rewrite !Z.add_0_r, Z.sub_0_r, Z.sub_0_l.
  set (e := Z.min _ 0).
  assert (He0 : e <= 0) by (unfold e; lia).
  assert (Hm : match - e with
               | Zpos _ => Z.shiftl (Zpos a) (- e)
               | 0 => Zpos a
               | Zneg _ => 0
               end = Zpos a * 2 ^ (- e)).
  { destruct (- e) as [|p|p] eqn:E; [cbn; lia| |lia].
    rewrite Z.shiftl_mul_pow2 by lia. reflexivity. }
  rewrite Hm.
  unfold round_cell. rewrite cell_nonpos by lia.
  pose proof (new_location_cellq (Zpos a * 2 ^ (- e)) (Zpos b) ltac:(lia)) as Hloc.
  unfold Z.modulo in Hloc. unfold cellq at 1. unfold Z.div. cbn [fst].
  destruct (Z.div_eucl (Zpos a * 2 ^ (- e)) (Zpos b)) as [q r].
  rewrite Hloc, xorb_false_r. reflexivity.
Qed.

Lemma iter_xO (n d : positive) : Zpos (Pos.iter xO n d) = Zpos n * 2 ^ Zpos d.
Proof.
  revert n. induction d as [|d IH] using Pos.peano_ind; intros n.
  - cbn [Pos.iter]. rewrite Pos2Z.inj_xO. change (2 ^ 1) with 2. lia.
  - rewrite Pos.iter_succ, Pos2Z.inj_xO, IH, Pos2Z.inj_succ, Z.pow_succ_r by lia.
    ring.
Qed.

Lemma binary_round_round_cell (s : bool) (n : positive) :
  exists e,
    e <= target (Zpos n) 1 e
    /\ binary_round prec emax s n 0 = round_cell s (Zpos n) 1 e.
Proof.
  exists (Z.min (fexp prec emax (Zdigits2 (Zpos n))) 0).
  set (f := fexp prec emax (Zdigits2 (Zpos n))).
  set (e := Z.min f 0).
  assert (He0 : e <= 0) by (unfold e; lia).
  assert (Hp : 0 < 2 ^ (- e)) by (apply Z.pow_pos_nonneg; lia).
  assert (Hcell : cell (Zpos n) 1 e = (Zpos n * 2 ^ (- e), loc_Exact)).
  { rewrite cell_nonpos by lia. unfold cellq.
    rewrite Z.div_1_r, Z.mod_1_r. reflexivity. }
  split.
  - unfold target. rewrite Hcell. cbn [fst].
    assert (Hd : Zdigits2 (Zpos n * 2 ^ (- e)) = Zdigits2 (Zpos n) - e).
    { pose proof (Zdigits2_bounds (Zpos n) ltac:(lia)) as Hb.
      pose proof (Zdigits2_pos (Zpos n) ltac:(lia)).
      apply Zdigits2_unique; [lia|].
      replace (Zdigits2 (Zpos n) - e - 1) with ((Zdigits2 (Zpos n) - 1) + - e) by lia.
      replace (Zdigits2 (Zpos n) - e) with (Zdigits2 (Zpos n) + - e) by lia.
      rewrite !Z.pow_add_r by lia. nia. }
    rewrite Hd. replace (Zdigits2 (Zpos n) - e + e) with (Zdigits2 (Zpos n)) by lia.
    fold f. unfold e. lia.
  - unfold round_cell. rewrite Hcell. cbn [fst snd].
    unfold binary_round, shl_align. rewrite Z.add_0_r, Z.sub_0_r.
    change (Zpos (digits2_pos n)) with (Zdigits2 (Zpos n)). fold f.
    unfold e. clear. clearbody f.
    destruct f as [|p|p].
    + cbn [Z.min Z.compare Z.opp]. change (2 ^ 0) with 1. now rewrite Z.mul_1_r.
    + replace (Z.min (Zpos p) 0) with 0 by lia.
      cbn [Z.opp]. change (2 ^ 0) with 1. now rewrite Z.mul_1_r.
    + replace (Z.min (Zneg p) 0) with (Zneg p) by lia.
      rewrite iter_xO. reflexivity.
Qed.

Lemma dec_frac_pos (d p : Z) :
  0 < d -> 0 < fst (dec_frac d p) /\ 0 < snd (dec_frac d p).
Proof.
  intros Hd. unfold dec_frac. destruct (Z.leb_spec 0 p) as [Hp|Hp]; cbn [fst snd].
  - assert (0 < 10 ^ p) by (apply Z.pow_pos_nonneg; lia). split; nia.
  - assert (0 < 10 ^ (- p)) by (apply Z.pow_pos_nonneg; lia). split; lia.
Qed.

(** [dec_to_float] rounds the fraction [d * 10^p]. *)
Lemma dec_to_float_cell (s : bool) (d p : Z) :
  0 < d ->
  exists e,
    e <= target (fst (dec_frac d p)) (snd (dec_frac d p)) e
    /\ PyNum.dec_to_float s d p
       = round_cell s (fst (dec_frac d p)) (snd (dec_frac d p)) e.
Proof.
  intros Hd. destruct d as [|n|n]; try lia. unfold PyNum.dec_to_float, dec_frac.
  destruct (Z.leb_spec 0 p) as [Hp|Hp]; cbn [fst snd].
  - assert (H10 : 0 < 10 ^ p) by (apply Z.pow_pos_nonneg; lia).
    destruct (binary_round_round_cell s (n * Z.to_pos (10 ^ p))) as (e & Hv & Hr).
    rewrite Pos2Z.inj_mul, Z2Pos.id in Hv, Hr by lia. eauto.
  - assert (H10 : 0 < 10 ^ (- p)) by (apply Z.pow_pos_nonneg; lia).
    destruct (SFdiv_round_cell s n (Z.to_pos (10 ^ (- p)))) as (e & Hv & Hr).
    rewrite Z2Pos.id in Hv, Hr by lia. eauto.
Qed.

(** Two decimals of the same value convert to the same float. *)
Lemma dec_to_float_ratio (s : bool) (d1 p1 d2 p2 : Z) :
  0 < d1 -> 0 < d2 ->
  fst (dec_frac d1 p1) * snd (dec_frac d2 p2)
  = fst (dec_frac d2 p2) * snd (dec_frac d1 p1) ->
  PyNum.dec_to_float s d1 p1 = PyNum.dec_to_float s d2 p2.
Proof.
  intros H1 H2 E.
  destruct (dec_to_float_cell s d1 p1 H1) as (e1 & Hv1 & ->).
  destruct (dec_to_float_cell s d2 p2 H2) as (e2 & Hv2 & ->).
  destruct (dec_frac_pos d1 p1 H1) as [HN1 HD1].
  destruct (dec_frac_pos d2 p2 H2) as [HN2 HD2].
  set (N1 := fst (dec_frac d1 p1)) in *. set (D1 := snd (dec_frac d1 p1)) in *.
  set (N2 := fst (dec_frac d2 p2)) in *. set (D2 := snd (dec_frac d2 p2)) in *.
  rewrite (round_cell_ratio s N1 D1 N2 D2 e1) by assumption.
  apply round_cell_any_start; try lia.
  unfold target in *. now rewrite <- (cell_ratio N1 D1 N2 D2 e1).
Qed.

Lemma dec_to_float_shift (s : bool) (d p t : Z) :
  0 < d -> 0 <= t ->
  PyNum.dec_to_float s (d * 10 ^ t) (p - t) = PyNum.dec_to_float s d p.
Proof.
  intros Hd Ht.
  assert (H10 : 0 < 10 ^ t) by (apply Z.pow_pos_nonneg; lia).
  apply dec_to_float_ratio; [nia|lia|].
  unfold dec_frac.
  destruct (Z.leb_spec 0 (p - t)) as [H1|H1], (Z.leb_spec 0 p) as [H2|H2];
    cbn [fst snd]; try lia.
  - replace p with ((p - t) + t) at 2 by lia. rewrite Z.pow_add_r by lia. ring.
  - replace (- (p - t)) with (t - p) by lia.
    replace t with (p + (t - p)) at 1 by lia. rewrite Z.pow_add_r by lia. ring.
  - replace (- (p - t)) with (- p + t) by lia. rewrite Z.pow_add_r by lia. ring.
Qed.

(** *** Fractions that round to a given float *)

Lemma bounded_spec (m : positive) (e : Z) :
  bounded prec emax m e = true ->
  fexp prec emax (Zdigits2 (Zpos m) + e) = e /\ e <= 971.
Proof.
  unfold bounded, canonical_mantissa. intros H.
  apply andb_true_iff in H as [H1 H2].
  apply Z.eqb_eq in H1. apply Z.leb_le in H2. split; [exact H1|exact H2].
Qed.

Lemma round_cell_here (s : bool) (m : positive) (e N D c : Z) (l : location) :
  bounded prec emax m e = true ->
  0 <= N -> 0 < D ->
  cell N D e = (c, l) ->
  fexp prec emax (Zdigits2 c + e) = e ->
  round_nearest_even c l = Zpos m ->
  round_cell s N D e = S754_finite s m e.
Proof.
  intros Hb HN HD Hc Hfc Hr. destruct (bounded_spec m e Hb) as [Hf He].
  unfold round_cell, binary_round_aux.
  assert (Ht : target N D e = e) by (unfold target; rewrite Hc; exact Hfc).
  rewrite shr_fexp_cell by lia. rewrite Ht, cell_record_m, cell_record_loc, Hc.
  cbn [fst snd]. rewrite Hr.
  unfold shr_fexp. rewrite Hf, Z.sub_diag. cbn [shr shr_record_of_loc shr_m].
  assert (Hle : (e <=? emax - prec) = true) by (apply Z.leb_le; exact He).
  now rewrite Hle.
Qed.

(** A fraction within less than half a unit in the last place of a float
    rounds to it; just below a power of two the margin is half as wide. *)
Lemma round_cell_near (s : bool) (m : positive) (e N D e0 : Z) :
  bounded prec emax m e = true ->
  0 <= N -> 0 < D -> e0 <= target N D e0 ->
  (fst (cell N D e) = Zpos m
   /\ (snd (cell N D e) = loc_Exact \/ snd (cell N D e) = loc_Inexact Lt))
  \/ (cell N D e = (Zpos m - 1, loc_Inexact Gt)
      /\ (Zpos m <> 2 ^ 52 \/ e = -1074))
  \/ (cell N D (e - 1) = (2 * Zpos m - 1, loc_Inexact Gt)
      /\ Zpos m = 2 ^ 52 /\ -1074 < e) ->
  round_cell s N D e0 = S754_finite s m e.
Proof.
  intros Hb HN HD Hv Hnear. destruct (bounded_spec m e Hb) as [Hf He].
  pose proof (Zdigits2_bounds (Zpos m) ltac:(lia)) as Hdm.
  pose proof (Zdigits2_pos (Zpos m) ltac:(lia)) as Hdpos.
  rewrite fexp_eq in Hf.
  destruct Hnear as [[Hq Hl]|[[Hc Hcase]|(Hc & Hm & Hemin)]].
  - assert (Hhere : round_cell s N D e = S754_finite s m e).
    { destruct (cell N D e) as [c l] eqn:Hc. cbn [fst snd] in Hq, Hl. subst c.
      apply (round_cell_here s m e N D (Zpos m) l); try assumption;
        try (now rewrite fexp_eq).
      destruct Hl as [-> | ->]; reflexivity. }
    rewrite <- Hhere. apply round_cell_any_start; try assumption.
    unfold target. destruct (cell N D e) as [c l]. cbn [fst] in *. subst c.
    rewrite fexp_eq. lia.
  - assert (Hfc : fexp prec emax (Zdigits2 (Zpos m - 1) + e) = e).
    { rewrite fexp_eq.
      destruct (Z.eq_dec (Zpos m) 1) as [E1|E1].
      - replace (Zpos m - 1) with 0 by lia. change (Zdigits2 0) with 0.
        assert (Hd1 : Zdigits2 (Zpos m) = 1) by (rewrite E1; reflexivity).
        rewrite Hd1 in Hf. lia.
      - assert (Hm1 : 0 < Zpos m - 1) by lia.
        pose proof (Zdigits2_bounds _ Hm1) as Hb1.
        pose proof (Zdigits2_pos _ Hm1) as Hp1.
        assert (Hle : Zdigits2 (Zpos m - 1) <= Zdigits2 (Zpos m)).
        { assert (H : 2 ^ (Zdigits2 (Zpos m - 1) - 1) < 2 ^ Zdigits2 (Zpos m)) by lia.
          apply Z.pow_lt_mono_r_iff in H; lia. }
        assert (Hge : Zdigits2 (Zpos m) - 1 <= Zdigits2 (Zpos m - 1)).
        { destruct (Z.eq_dec (Zdigits2 (Zpos m)) 1) as [Ed|Ed]; [lia|].
          assert (H : 2 ^ (Zdigits2 (Zpos m) - 2) < 2 ^ Zdigits2 (Zpos m - 1)).
          { assert (Hh : 2 ^ (Zdigits2 (Zpos m) - 1) = 2 * 2 ^ (Zdigits2 (Zpos m) - 2)).
            { replace (Zdigits2 (Zpos m) - 1) with (Z.succ (Zdigits2 (Zpos m) - 2)) by lia.
              rewrite Z.pow_succ_r by lia. reflexivity. }
            assert (0 < 2 ^ (Zdigits2 (Zpos m) - 2)) by (apply Z.pow_pos_nonneg; lia).
            lia. }
          apply Z.pow_lt_mono_r_iff in H; lia. }
        destruct (Z.eq_dec (Zdigits2 (Zpos m - 1)) (Zdigits2 (Zpos m))) as [Ed|Ed];
          [rewrite Ed; exact Hf|].
        assert (Ed' : Zdigits2 (Zpos m - 1) = Zdigits2 (Zpos m) - 1) by lia.
        assert (Hpow : Zpos m = 2 ^ (Zdigits2 (Zpos m) - 1)).
        { rewrite Ed' in Hb1. lia. }
        destruct Hcase as [Hne| ->]; [|lia].
        assert (Zdigits2 (Zpos m) <> 53) by (intros E53; rewrite E53 in Hpow; now apply Hne).
        lia. }
    assert (Hhere : round_cell s N D e = S754_finite s m e).
    { apply (round_cell_here s m e N D (Zpos m - 1) (loc_Inexact Gt)); try assumption.
      cbn [round_nearest_even]. lia. }
    rewrite <- Hhere. apply round_cell_any_start; try assumption.
    unfold target. rewrite Hc. cbn [fst]. rewrite Hfc. lia.
  - assert (Hd53 : Zdigits2 (Zpos m) = 53).
    { apply Zdigits2_unique; [lia|]. rewrite Hm.
      change (53 - 1) with 52. change (2 ^ 53) with (2 * 2 ^ 52).
      assert (0 < 2 ^ 52) by (apply Z.pow_pos_nonneg; lia). lia. }
    assert (Hd2 : Zdigits2 (2 * Zpos m - 1) = 53).
    { apply Zdigits2_unique; [lia|]. rewrite Hm.
      change (53 - 1) with 52. change (2 ^ 53) with (2 * 2 ^ 52).
      assert (0 < 2 ^ 52) by (apply Z.pow_pos_nonneg; lia). lia. }
    assert (Hpre : round_cell s N D (e - 1) = S754_finite s m e).
    { unfold round_cell, binary_round_aux.
      assert (Ht : target N D (e - 1) = e - 1).
      { unfold target. rewrite Hc. cbn [fst]. rewrite Hd2, fexp_eq. lia. }
      rewrite shr_fexp_cell by lia. rewrite Ht, cell_record_m, cell_record_loc, Hc.
      cbn [fst snd round_nearest_even].
      replace (2 * Zpos m - 1 + 1) with (Zpos (xO m)) by lia.
      unfold shr_fexp.
      assert (Hd54 : Zdigits2 (Zpos (xO m)) = 54).
      { cbn [Zdigits2 digits2_pos]. rewrite Pos2Z.inj_succ.
        change (Zpos (digits2_pos m)) with (Zdigits2 (Zpos m)). lia. }
      rewrite Hd54, fexp_eq.
      replace (Z.max (54 + (e - 1) - 53) (-1074) - (e - 1)) with 1 by lia.
      cbn [shr shr_record_of_loc SpecFloat.iter_pos shr_1 shr_m].
      replace (e - 1 + 1) with e by lia.
      assert (Hle : (e <=? emax - prec) = true) by (apply Z.leb_le; exact He).
      now rewrite Hle. }
    rewrite <- Hpre. apply round_cell_any_start; try assumption.
    unfold target. rewrite Hc. cbn [fst]. rewrite Hd2, fexp_eq. lia.
Qed.

(** ** Decimal digits *)

Lemma append_cons (a : ascii) (s t : string) : String a s ++ t = String a (s ++ t).
Proof. reflexivity. Qed.

Lemma append_length (s t : string) :
  String.length (s ++ t) = (String.length s + String.length t)%nat.
Proof.
  induction s as [|a s IH]; [reflexivity|].
  rewrite append_cons. cbn [String.length]. now rewrite IH.
Qed.

Lemma append_assoc (s t u : string) : (s ++ t) ++ u = s ++ (t ++ u).
Proof.
  induction s as [|a s IH]; [reflexivity|]. rewrite !append_cons. now rewrite IH.
Qed.

Lemma append_nil_r (s : string) : s ++ "" = s.
Proof.
  induction s as [|a s IH]; [reflexivity|]. rewrite append_cons. now rewrite IH.
Qed.

Lemma prefix_append (s t : string) : String.prefix s (s ++ t) = true.
Proof.
  induction s as [|a s IH].
  - destruct t; reflexivity.
  - rewrite append_cons. cbn [String.prefix].
    destruct (ascii_dec a a); [exact IH|congruence].
Qed.

Lemma digit_char_spec (d : Z) :
  0 <= d <= 9 ->
  is_digit (PyNum.digit_char d) = true /\ digit_value (PyNum.digit_char d) = d.
Proof.
  intros Hd. unfold is_digit, digit_value, PyNum.digit_char.
  rewrite N_ascii_embedding by lia.
  split; [apply andb_true_iff; split; apply N.leb_le; lia|lia].
Qed.

Lemma digits_value_from_app (s t : string) :
  forall acc,
    digits_value_from acc (s ++ t) = digits_value_from (digits_value_from acc s) t.
Proof.
  induction s as [|c s IH]; intros acc; [reflexivity|].
  rewrite append_cons. cbn [digits_value_from]. apply IH.
Qed.

Lemma digits_value_from_spec (s : string) :
  forall acc, digits_value_from acc s
              = acc * 10 ^ Z.of_nat (String.length s) + digits_value s.
Proof.
  unfold digits_value. induction s as [|c s IH]; intros acc.
  - cbn. lia.
  - cbn [digits_value_from String.length]. rewrite IH, (IH (0 * 10 + digit_value c)).
    rewrite Nat2Z.inj_succ, Z.pow_succ_r by lia. ring.
Qed.

Lemma digits_value_app (s t : string) :
  digits_value (s ++ t)
  = digits_value s * 10 ^ Z.of_nat (String.length t) + digits_value t.
Proof.
  unfold digits_value at 1. rewrite digits_value_from_app, digits_value_from_spec.
  reflexivity.
Qed.

Lemma all_digits_app (s t : string) :
  all_digits (s ++ t) = all_digits s && all_digits t.
Proof.
  induction s as [|c s IH]; [reflexivity|].
  rewrite append_cons. cbn [all_digits]. rewrite IH. apply andb_assoc.
Qed.

Lemma dec_digits_aux_spec (f : nat) :
  forall (n : Z) (acc : string),
    0 <= n < 2 ^ Z.of_nat (S f) ->
    exists s,
      PyNum.dec_digits_aux (S f) n acc = s ++ acc
      /\ all_digits s = true /\ s <> "" /\ digits_value s = n.
Proof.
  induction f as [|f IH]; intros n acc Hn; cbn [PyNum.dec_digits_aux].
  - change (2 ^ Z.of_nat 1) with 2 in Hn.
    destruct (Z.ltb_spec n 10) as [_|H]; [|lia].
    exists (String (PyNum.digit_char (n mod 10)) "").
    destruct (digit_char_spec (n mod 10)) as [Hd Hv];
      [pose proof (Z.mod_pos_bound n 10); lia|].
    split; [reflexivity|]. split; [cbn; now rewrite Hd|]. split; [discriminate|].
    unfold digits_value. cbn. rewrite Hv. rewrite Z.mod_small; lia.
  - pose proof (Z.mod_pos_bound n 10 ltac:(lia)) as Hr.
    destruct (digit_char_spec (n mod 10) ltac:(lia)) as [Hd Hv].
    destruct (Z.ltb_spec n 10) as [Hlt|Hge].
    + exists (String (PyNum.digit_char (n mod 10)) "").
      split; [reflexivity|]. split; [cbn; now rewrite Hd|]. split; [discriminate|].
      unfold digits_value. cbn. rewrite Hv. rewrite Z.mod_small; lia.
    + assert (Hq : 0 <= n / 10 < 2 ^ Z.of_nat (S f)).
      { split; [apply Z.div_pos; lia|].
        apply Z.div_lt_upper_bound; [lia|].
        rewrite (Nat2Z.inj_succ (S f)), Z.pow_succ_r in Hn by lia. lia. }
      destruct (IH (n / 10) (String (PyNum.digit_char (n mod 10)) acc) Hq)
        as (s & Hs & Hall & Hne & Hval).
      exists (s ++ String (PyNum.digit_char (n mod 10)) "").
      split; [rewrite append_assoc; exact Hs|].
      split; [rewrite all_digits_app, Hall; cbn; now rewrite Hd|].
      split; [destruct s; [congruence|discriminate]|].
      rewrite digits_value_app, Hval. unfold digits_value at 1. cbn.
      rewrite Hv. pose proof (Z.div_mod n 10 ltac:(lia)). lia.
Qed.

Lemma dec_digits_spec (n : Z) :
  0 <= n ->
  all_digits (PyNum.dec_digits n) = true
  /\ PyNum.dec_digits n <> ""
  /\ digits_value (PyNum.dec_digits n) = n.
Proof.
  intros Hn. unfold PyNum.dec_digits.
  destruct (dec_digits_aux_spec (Z.to_nat (Z.log2 n)) n "") as (s & Hs & H).
  - rewrite Nat2Z.inj_succ, Z2Nat.id by apply Z.log2_nonneg.
    destruct (Z.eq_dec n 0) as [->|Hne]; [cbn; lia|].
    pose proof (Z.log2_spec n ltac:(lia)). lia.
  - rewrite Hs, append_nil_r. exact H.
Qed.

Lemma zeros_spec (t : nat) :
  all_digits (PyNum.zeros t) = true /\ digits_value (PyNum.zeros t) = 0
  /\ String.length (PyNum.zeros t) = t.
Proof.
  induction t as [|t (H1 & H2 & H3)]; [repeat split|].
  cbn [PyNum.zeros all_digits String.length]. rewrite H1, H3.
  split; [reflexivity|]. split; [|reflexivity].
  change (String "0" (PyNum.zeros t)) with ("0" ++ PyNum.zeros t).
  rewrite digits_value_app, H2. reflexivity.
Qed.

(** *** Trailing zeros *)

Lemma strip_zeros_rev_spec (l : list ascii) :
  exists t, l = (repeat "0"%char t ++ PyNum.strip_zeros_rev l)%list.
Proof.
  induction l as [|c l (t & IH)]; [exists 0%nat; reflexivity|].
  destruct (Ascii.eqb_spec c "0") as [->|Hne].
  - exists (S t). cbn [PyNum.strip_zeros_rev repeat app]. now rewrite <- IH.
  - exists 0%nat. cbn [repeat app].
    destruct c as [[] [] [] [] [] [] [] []]; try reflexivity. congruence.
Qed.

Lemma string_of_list_ascii_app (l1 l2 : list ascii) :
  string_of_list_ascii (l1 ++ l2)
  = string_of_list_ascii l1 ++ string_of_list_ascii l2.
Proof. induction l1 as [|c l IH]; cbn; [reflexivity|now rewrite IH]. Qed.

Lemma string_of_repeat_zero (t : nat) :
  string_of_list_ascii (repeat "0"%char t) = PyNum.zeros t.
Proof. induction t as [|t IH]; cbn; [reflexivity|now rewrite IH]. Qed.

Lemma strip_trailing_zeros_spec (s : string) :
  exists t, s = PyNum.strip_trailing_zeros s ++ PyNum.zeros t.
Proof.
  unfold PyNum.strip_trailing_zeros.
  destruct (strip_zeros_rev_spec (rev (list_ascii_of_string s))) as (t & Ht).
  exists t.
  rewrite <- (string_of_list_ascii_of_string s) at 1.
  rewrite <- (rev_involutive (list_ascii_of_string s)), Ht at 1.
  rewrite rev_app_distr, string_of_list_ascii_app. f_equal.
  rewrite <- string_of_repeat_zero. f_equal.
  clear. induction t as [|t IH]; [reflexivity|].
  cbn [repeat rev]. rewrite IH. clear.
  induction t as [|t IH]; [reflexivity|]. cbn. now rewrite IH.
Qed.

(** The stripped digits of a positive number: the same value once the
    removed zeros are accounted for. *)
Lemma strip_dec_digits (d : Z) :
  0 < d ->
  exists t : nat,
    all_digits (PyNum.strip_trailing_zeros (PyNum.dec_digits d)) = true
    /\ PyNum.strip_trailing_zeros (PyNum.dec_digits d) <> ""
    /\ 0 < digits_value (PyNum.strip_trailing_zeros (PyNum.dec_digits d))
    /\ d = digits_value (PyNum.strip_trailing_zeros (PyNum.dec_digits d))
           * 10 ^ Z.of_nat t
    /\ String.length (PyNum.dec_digits d)
       = (String.length (PyNum.strip_trailing_zeros (PyNum.dec_digits d)) + t)%nat.
Proof.
  intros Hd. destruct (dec_digits_spec d ltac:(lia)) as (Hall & Hne & Hval).
  destruct (strip_trailing_zeros_spec (PyNum.dec_digits d)) as (t & Ht).
  destruct (zeros_spec t) as (Hz1 & Hz2 & Hz3).
  set (D := PyNum.strip_trailing_zeros (PyNum.dec_digits d)) in *.
  exists t.
  assert (HallD : all_digits D = true).
  { rewrite Ht, all_digits_app in Hall. now apply andb_true_iff in Hall. }
  assert (Hv : d = digits_value D * 10 ^ Z.of_nat t).
  { rewrite <- Hval, Ht, digits_value_app, Hz2, Hz3. lia. }
  assert (Hpos : 0 < digits_value D).
  { assert (0 < 10 ^ Z.of_nat t) by (apply Z.pow_pos_nonneg; lia). nia. }
  split; [exact HallD|]. split.
  - intros E. rewrite E in Hpos. unfold digits_value in Hpos. cbn in Hpos. lia.
  - split; [exact Hpos|]. split; [exact Hv|].
    rewrite Ht at 1. now rewrite append_length, Hz3.
Qed.

(** ** The shortest digits are always found *)

Lemma pow_max_split (b x y : Z) :
  0 < b ->
  b ^ Z.max 0 (x + y) * b ^ Z.max 0 (- x) * b ^ Z.max 0 (- y)
  = b ^ Z.max 0 x * b ^ Z.max 0 y * b ^ Z.max 0 (- (x + y)).
Proof.
  intros Hb. rewrite <- !Z.pow_add_r by lia. f_equal. lia.
Qed.

Lemma pow_max_pos (b x : Z) : 0 < b -> 0 < b ^ Z.max 0 x.
Proof. intros Hb. apply Z.pow_pos_nonneg; lia. Qed.

Lemma scaled_parts_eq (m : positive) (e j : Z) :
  PyNum.scaled_parts m e j
  = (Zpos m * 2 ^ Z.max 0 e * 10 ^ Z.max 0 j,
     2 ^ Z.max 0 (- e) * 10 ^ Z.max 0 (- j)).
Proof.
  unfold PyNum.scaled_parts.
  destruct (Z.leb_spec 0 e) as [He|He], (Z.leb_spec 0 j) as [Hj|Hj].
  - rewrite (Z.max_r 0 e), (Z.max_r 0 j), (Z.max_l 0 (- e)), (Z.max_l 0 (- j)) by lia.
    reflexivity.
  - rewrite (Z.max_r 0 e), (Z.max_l 0 j), (Z.max_l 0 (- e)), (Z.max_r 0 (- j)) by lia.
    reflexivity.
  - rewrite (Z.max_l 0 e), (Z.max_r 0 j), (Z.max_r 0 (- e)), (Z.max_l 0 (- j)) by lia.
    reflexivity.
  - rewrite (Z.max_l 0 e), (Z.max_l 0 j), (Z.max_r 0 (- e)), (Z.max_r 0 (- j)) by lia.
    reflexivity.
Qed.

Lemma floor_scaled_nonzero (m : positive) (e j : Z) :
  PyNum.floor_scaled m e j <> 0
  <-> 2 ^ Z.max 0 (- e) * 10 ^ Z.max 0 (- j)
      <= Zpos m * 2 ^ Z.max 0 e * 10 ^ Z.max 0 j.
Proof.
  unfold PyNum.floor_scaled. rewrite scaled_parts_eq.
  pose proof (pow_max_pos 2 e ltac:(lia)). pose proof (pow_max_pos 2 (- e) ltac:(lia)).
  pose proof (pow_max_pos 10 j ltac:(lia)). pose proof (pow_max_pos 10 (- j) ltac:(lia)).
  set (num := Zpos m * 2 ^ Z.max 0 e * 10 ^ Z.max 0 j).
  set (den := 2 ^ Z.max 0 (- e) * 10 ^ Z.max 0 (- j)).
  assert (Hden : 0 < den) by (unfold den; nia).
  assert (Hnum : 0 <= num) by (unfold num; nia).
  split.
  - intros Hq. destruct (Z.le_gt_cases den num) as [H'|H']; [exact H'|].
    exfalso. apply Hq. apply Z.div_small. lia.
  - intros Hle Hq. apply Z.div_small_iff in Hq; lia.
Qed.

Lemma est_table : all_below 2098 (fun i => est_ok (i - 1074)) = true.
Proof. vm_compute. reflexivity. Qed.

Lemma est_ok_range (b : Z) : -1074 <= b < 1024 -> est_ok b = true.
Proof.
  intros Hb. pose proof (all_below_spec 2098 _ est_table (b + 1074)) as H.
  cbv beta in H. replace (b + 1074 - 1074) with b in H by lia. apply H.
  change (Z.of_nat 2098) with 2098. lia.
Qed.

Lemma decpt_search_inv (m : positive) (e : Z) (fuel : nat) :
  forall k0,
    let k := (fix search (fuel : nat) (k : Z) {struct fuel} : Z :=
                match fuel with
                | O => k
                | S fuel' =>
                    if PyNum.floor_scaled m e (- k) =? 0 then k
                    else search fuel' (k + 1)
                end) fuel k0 in
    k = k0 \/ PyNum.floor_scaled m e (- (k - 1)) <> 0.
Proof.
  induction fuel as [|fuel IH]; intros k0; cbv zeta; [now left|].
  destruct (Z.eqb_spec (PyNum.floor_scaled m e (- k0)) 0) as [E|E]; [now left|].
  right. destruct (IH (k0 + 1)) as [H|H]; cbv zeta in H.
  - rewrite H. replace (k0 + 1 - 1) with k0 by lia. exact E.
  - exact H.
Qed.

Lemma bounded_range (m : positive) (e : Z) :
  bounded prec emax m e = true ->
  -1074 <= e <= 971 /\ 1 <= Zdigits2 (Zpos m) <= 53.
Proof.
  intros Hb. destruct (bounded_spec m e Hb) as [Hf He]. rewrite fexp_eq in Hf.
  pose proof (Zdigits2_pos (Zpos m) ltac:(lia)). lia.
Qed.

(** [10^(k-1) <= m * 2^e] for the decimal point [k] that [decpt_of] finds. *)
Lemma decpt_of_lower (m : positive) (e : Z) :
  bounded prec emax m e = true ->
  PyNum.floor_scaled m e (1 - PyNum.decpt_of m e) <> 0.
Proof.
  intros Hb. destruct (bounded_range m e Hb) as [He Hd].
  unfold PyNum.decpt_of. cbv zeta.
  set (est := (Z.log2 (Zpos m) + e) * 30103 / 100000).
  destruct (decpt_search_inv m e 6 (est - 1)) as [H|H]; cbv zeta in H.
  - rewrite H. replace (1 - (est - 1)) with (2 - est) by lia.
    apply floor_scaled_nonzero.
    replace (- (2 - est)) with (est - 2) by lia.
    pose proof (Zdigits2_log2 (Zpos m) ltac:(lia)) as Hl.
    pose proof (Z.log2_nonneg (Zpos m)) as Hl0.
    pose proof (est_ok_range (Z.log2 (Zpos m) + e) ltac:(lia)) as Hok.
    unfold est_ok in Hok. cbv zeta in Hok. fold est in Hok. apply Z.leb_le in Hok.
    replace (- (est - 2)) with (2 - est) in Hok by lia.
    pose proof (pow_max_split 2 (Z.log2 (Zpos m)) e ltac:(lia)) as Hs.
    rewrite (Z.max_l 0 (- Z.log2 (Zpos m))), (Z.max_r 0 (Z.log2 (Zpos m))) in Hs by lia.
    change (2 ^ 0) with 1 in Hs.
    pose proof (proj1 (Z.log2_spec (Zpos m) ltac:(lia))) as Hw.
    pose proof (pow_max_pos 2 e ltac:(lia)). pose proof (pow_max_pos 2 (- e) ltac:(lia)).
    pose proof (pow_max_pos 10 (est - 2) ltac:(lia)).
    pose proof (pow_max_pos 10 (2 - est) ltac:(lia)).
    pose proof (pow_max_pos 2 (Z.log2 (Zpos m) + e) ltac:(lia)).
    pose proof (pow_max_pos 2 (- (Z.log2 (Zpos m) + e)) ltac:(lia)).
    assert (0 < 2 ^ Z.log2 (Zpos m)) by (apply Z.pow_pos_nonneg; lia).
    set (P := 10 ^ Z.max 0 (est - 2)) in *. set (Q := 10 ^ Z.max 0 (2 - est)) in *.
    set (Bp := 2 ^ Z.max 0 (Z.log2 (Zpos m) + e)) in *.
    set (Bn := 2 ^ Z.max 0 (- (Z.log2 (Zpos m) + e))) in *.
    set (Ep := 2 ^ Z.max 0 e) in *. set (En := 2 ^ Z.max 0 (- e)) in *.
    set (W := 2 ^ Z.log2 (Zpos m)) in *.
    assert (Ha : En * P * Bn <= W * Ep * Bn * Q).
    { replace (W * Ep * Bn * Q) with ((Bp * 1 * En) * Q) by (rewrite Hs; ring).
      replace (En * P * Bn) with (En * (P * Bn)) by ring.
      replace (Bp * 1 * En * Q) with (En * (Bp * Q)) by ring.
      apply Z.mul_le_mono_nonneg_l; lia. }
    assert (Hb2 : En * P <= W * Ep * Q).
    { apply (Z.mul_le_mono_pos_r _ _ Bn); [lia|].
      replace (W * Ep * Q * Bn) with (W * Ep * Bn * Q) by ring. exact Ha. }
    assert (Hc3 : W * Ep * Q <= Zpos m * Ep * Q).
    { apply Z.mul_le_mono_nonneg_r; [lia|]. apply Z.mul_le_mono_nonneg_r; lia. }
    exact (Z.le_trans _ _ _ Hb2 Hc3).
  - replace (1 - _) with (- ((fix search (fuel : nat) (k : Z) {struct fuel} : Z :=
                match fuel with
                | O => k
                | S fuel' =>
                    if PyNum.floor_scaled m e (- k) =? 0 then k
                    else search fuel' (k + 1)
                end) 6%nat (est - 1) - 1)) by lia.
    exact H.
Qed.

Lemma cellq_eq (N A q rem : Z) :
  0 <= rem < A -> N = A * q + rem ->
  cellq N A = (q, if rem =? 0 then loc_Exact else loc_Inexact (2 * rem ?= A)).
Proof.
  intros Hr HN. unfold cellq.
  rewrite <- (Z.div_unique_pos N A q rem Hr HN).
  rewrite <- (Z.mod_unique_pos N A q rem Hr HN). reflexivity.
Qed.

(** The decimal nearest to [m * A / B], divided back by [A / B], lies within
    half a unit of [m]; [T <= m * A / B] and [m < S < T] bound the error. *)
Lemma near_arith (m A B lo r T S : Z) :
  0 < m -> 0 < A -> 0 < B ->
  m * A = lo * B + r -> 0 <= r < B ->
  T * B <= m * A -> m < S -> S < T ->
  (r = 0 -> cellq (lo * B) A = (m, loc_Exact))
  /\ (0 < r -> 2 * r <= B -> cellq (lo * B) A = (m - 1, loc_Inexact Gt))
  /\ (0 < r -> 2 * r <= B -> 2 * m = S ->
      cellq (2 * (lo * B)) A = (2 * m - 1, loc_Inexact Gt))
  /\ (B < 2 * r -> cellq ((lo + 1) * B) A = (m, loc_Inexact Lt))
  /\ T <= lo.
Proof.
  intros Hm HA HB Hdiv Hr HT HmS HST.
  assert (HAB : B < A) by nia.
  split; [|split; [|split; [|split]]].
  - intros ->. rewrite (cellq_eq (lo * B) A m 0); [reflexivity|lia|lia].
  - intros Hr0 Hhalf.
    rewrite (cellq_eq (lo * B) A (m - 1) (A - r)); [|lia|lia].
    destruct (Z.eqb_spec (A - r) 0); [lia|].
    replace (2 * (A - r) ?= A) with Gt by (symmetry; apply Z.compare_gt_iff; lia).
    reflexivity.
  - intros Hr0 Hhalf H2m.
    assert (HA2 : 2 * B < A) by nia.
    rewrite (cellq_eq (2 * (lo * B)) A (2 * m - 1) (A - 2 * r)); [|lia|lia].
    destruct (Z.eqb_spec (A - 2 * r) 0); [lia|].
    replace (2 * (A - 2 * r) ?= A) with Gt by (symmetry; apply Z.compare_gt_iff; lia).
    reflexivity.
  - intros Hhalf.
    rewrite (cellq_eq ((lo + 1) * B) A m (B - r)); [|lia|lia].
    destruct (Z.eqb_spec (B - r) 0); [lia|].
    replace (2 * (B - r) ?= A) with Lt by (symmetry; apply Z.compare_lt_iff; lia).
    reflexivity.
  - nia.
Qed.

Lemma cell_uniform (N D e : Z) :
  cell N D e = cellq (N * 2 ^ Z.max 0 (- e)) (D * 2 ^ Z.max 0 e).
Proof.
  unfold cell. destruct (Z.leb_spec 0 e) as [He|He].
  - rewrite (Z.max_l 0 (- e)), (Z.max_r 0 e) by lia. change (2 ^ 0) with 1.
    now rewrite Z.mul_1_r.
  - rewrite (Z.max_r 0 (- e)), (Z.max_l 0 e) by lia. change (2 ^ 0) with 1.
    now rewrite Z.mul_1_r.
Qed.

Lemma cell_pred_uniform (N D e : Z) :
  0 < D ->
  cell N D (e - 1) = cellq (2 * (N * 2 ^ Z.max 0 (- e))) (D * 2 ^ Z.max 0 e).
Proof.
  intros HD. unfold cell. destruct (Z.leb_spec 0 (e - 1)) as [He|He].
  - rewrite (Z.max_l 0 (- e)), (Z.max_r 0 e) by lia. change (2 ^ 0) with 1.
    rewrite Z.mul_1_r.
    replace e with (Z.succ (e - 1)) at 2 by lia. rewrite Z.pow_succ_r by lia.
    replace (D * (2 * 2 ^ (e - 1))) with (2 * (D * 2 ^ (e - 1))) by ring.
    assert (0 < 2 ^ (e - 1)) by (apply Z.pow_pos_nonneg; lia).
    rewrite cellq_scale by nia. reflexivity.
  - rewrite (Z.max_r 0 (- e)), (Z.max_l 0 e) by lia. change (2 ^ 0) with 1.
    rewrite Z.mul_1_r.
    replace (- (e - 1)) with (Z.succ (- e)) by lia. rewrite Z.pow_succ_r by lia.
    f_equal. ring.
Qed.

Lemma dec_frac_eq (d p : Z) :
  dec_frac d p = (d * 10 ^ Z.max 0 p, 10 ^ Z.max 0 (- p)).
Proof.
  unfold dec_frac. destruct (Z.leb_spec 0 p) as [Hp|Hp].
  - now rewrite (Z.max_r 0 p), (Z.max_l 0 (- p)) by lia.
  - rewrite (Z.max_l 0 p), (Z.max_r 0 (- p)) by lia. change (10 ^ 0) with 1.
    now rewrite Z.mul_1_r.
Qed.

Lemma same_float_refl (x : spec_float) : PyNum.same_float x x = true.
Proof.
  destruct x as [s|s| |s m e]; cbn; rewrite ?Bool.eqb_reflx, ?Pos.eqb_refl, ?Z.eqb_refl;
    reflexivity.
Qed.

Lemma same_float_eq (x y : spec_float) : PyNum.same_float x y = true -> x = y.
Proof.
  destruct x as [s|s| |s m e], y as [s'|s'| |s' m' e']; cbn; try discriminate;
    try reflexivity.
  - intros H. apply Bool.eqb_prop in H. now subst.
  - intros H. apply Bool.eqb_prop in H. now subst.
  - intros H. apply andb_true_iff in H as [H He]. apply andb_true_iff in H as [Hs Hm].
    apply Bool.eqb_prop in Hs. apply Pos.eqb_eq in Hm. apply Z.eqb_eq in He.
    now subst.
Qed.

Lemma mantissa_lt_pow53 (m : positive) (e : Z) :
  bounded prec emax m e = true -> Zpos m < 2 ^ 53.
Proof.
  intros Hb. destruct (bounded_range m e Hb) as [_ Hd].
  pose proof (Zdigits2_bounds (Zpos m) ltac:(lia)) as [_ Hlt].
  assert (2 ^ Zdigits2 (Zpos m) <= 2 ^ 53) by (apply Z.pow_le_mono_r; lia).
  lia.
Qed.

(** With 17 digits one of the two neighbours of the value reads back as
    the float. *)
Lemma seventeen_digits (m : positive) (e : Z) :
  bounded prec emax m e = true ->
  let k := PyNum.decpt_of m e in
  let lo := fst (PyNum.scaled_parts m e (17 - k)) / snd (PyNum.scaled_parts m e (17 - k)) in
  0 < lo
  /\ (PyNum.dec_to_float false lo (k - 17) = S754_finite false m e
      \/ PyNum.dec_to_float false (lo + 1) (k - 17) = S754_finite false m e).
Proof.
  intros Hb k lo. pose proof (decpt_of_lower m e Hb) as Hlow. fold k in Hlow.
  apply floor_scaled_nonzero in Hlow.
  replace (- (1 - k)) with (k - 1) in Hlow by lia.
  pose proof (mantissa_lt_pow53 m e Hb) as HmS.
  assert (Hlo0 : lo = Zpos m * 2 ^ Z.max 0 e * 10 ^ Z.max 0 (17 - k)
                      / (2 ^ Z.max 0 (- e) * 10 ^ Z.max 0 (- (17 - k))))
    by (unfold lo; rewrite scaled_parts_eq; reflexivity).
  clearbody lo.
  set (j := 17 - k) in *.
  pose proof (pow_max_split 10 16 (j - 16) ltac:(lia)) as Hs.
  replace (16 + (j - 16)) with j in Hs by lia.
  replace (- (j - 16)) with (k - 1) in Hs by (unfold j; lia).
  replace (j - 16) with (1 - k) in Hs by (unfold j; lia).
  change (Z.max 0 (Z.opp 16)) with 0 in Hs. change (Z.max 0 16) with 16 in Hs.
  change (10 ^ 0) with 1 in Hs.
  pose proof (pow_max_pos 2 e ltac:(lia)) as HEp.
  pose proof (pow_max_pos 2 (- e) ltac:(lia)) as HEn.
  pose proof (pow_max_pos 10 j ltac:(lia)) as HJp.
  pose proof (pow_max_pos 10 (- j) ltac:(lia)) as HJn.
  pose proof (pow_max_pos 10 (1 - k) ltac:(lia)) as HKp.
  pose proof (pow_max_pos 10 (k - 1) ltac:(lia)) as HKn.
  set (Ep := 2 ^ Z.max 0 e) in *. set (En := 2 ^ Z.max 0 (- e)) in *.
  set (Jp := 10 ^ Z.max 0 j) in *. set (Jn := 10 ^ Z.max 0 (- j)) in *.
  set (Kp := 10 ^ Z.max 0 (1 - k)) in *. set (Kn := 10 ^ Z.max 0 (k - 1)) in *.
  assert (HST : 2 ^ 53 < 10 ^ 16) by reflexivity.
  assert (HS2 : 2 * 2 ^ 52 = 2 ^ 53) by reflexivity.
  set (T := 10 ^ 16) in *. set (S53 := 2 ^ 53) in *. set (S52 := 2 ^ 52) in *.
  set (A := Ep * Jp). set (B := En * Jn).
  assert (HA : 0 < A) by (apply Z.mul_pos_pos; assumption).
  assert (HB : 0 < B) by (apply Z.mul_pos_pos; assumption).
  assert (HT : T * B <= Zpos m * A).
  { apply (Z.mul_le_mono_pos_r _ _ Kn); [lia|].
    replace (T * B * Kn) with ((T * Jn) * (En * Kn)) by (unfold B; ring).
    replace (Zpos m * A * Kn) with ((T * Jn) * (Zpos m * Ep * Kp))
      by (unfold A; transitivity (Zpos m * Ep * (Jp * 1 * Kn)); [rewrite Hs|]; ring).
    apply Z.mul_le_mono_nonneg_l; [|exact Hlow].
    apply Z.lt_le_incl, Z.mul_pos_pos; [|assumption].
    unfold T. apply Z.pow_pos_nonneg; lia. }
  assert (Hlo : lo = Zpos m * A / B) by (rewrite Hlo0; unfold A, B; f_equal; ring).
  pose proof (Z.div_mod (Zpos m * A) B ltac:(clear -HB; lia)) as Hdm.
  pose proof (Z.mod_pos_bound (Zpos m * A) B HB) as Hr.
  rewrite <- Hlo in Hdm. set (r := (Zpos m * A) mod B) in *.
  destruct (near_arith (Zpos m) A B lo r T S53 (Pos2Z.is_pos m) HA HB
              ltac:(clear -Hdm; lia) Hr HT HmS HST)
    as (Hexact & Hdown & Hdown2 & Hup & HTlo).
  assert (HT0 : 0 < T) by (unfold T; apply Z.pow_pos_nonneg; lia).
  assert (Hlo_pos : 0 < lo) by exact (Z.lt_le_trans _ _ _ HT0 HTlo).
  assert (Hhi_pos : 0 < lo + 1) by (clear -Hlo_pos; lia).
  split; [exact Hlo_pos|].
  assert (Hcell : forall d, cell (fst (dec_frac d (k - 17))) (snd (dec_frac d (k - 17))) e
                            = cellq (d * B) A).
  { intros d. rewrite cell_uniform, dec_frac_eq. cbn [fst snd].
    replace (Z.max 0 (k - 17)) with (Z.max 0 (- j)) by (unfold j; f_equal; lia).
    replace (Z.max 0 (- (k - 17))) with (Z.max 0 j) by (unfold j; f_equal; lia).
    fold Jn Jp En Ep. f_equal; unfold A, B; ring. }
  assert (Hcell1 : forall d, cell (fst (dec_frac d (k - 17))) (snd (dec_frac d (k - 17)))
                               (e - 1)
                             = cellq (2 * (d * B)) A).
  { intros d. rewrite cell_pred_uniform, dec_frac_eq.
    - cbn [fst snd].
      replace (Z.max 0 (k - 17)) with (Z.max 0 (- j)) by (unfold j; f_equal; lia).
      replace (Z.max 0 (- (k - 17))) with (Z.max 0 j) by (unfold j; f_equal; lia).
      fold Jn Jp En Ep. f_equal; unfold A, B; ring.
    - rewrite dec_frac_eq. cbn [snd]. apply pow_max_pos. lia. }
  assert (Hround : forall d, 0 < d ->
            (fst (cell (fst (dec_frac d (k - 17))) (snd (dec_frac d (k - 17))) e) = Zpos m
             /\ (snd (cell (fst (dec_frac d (k - 17))) (snd (dec_frac d (k - 17))) e)
                 = loc_Exact
                 \/ snd (cell (fst (dec_frac d (k - 17))) (snd (dec_frac d (k - 17))) e)
                    = loc_Inexact Lt))
            \/ (cell (fst (dec_frac d (k - 17))) (snd (dec_frac d (k - 17))) e
                = (Zpos m - 1, loc_Inexact Gt)
                /\ (Zpos m <> 2 ^ 52 \/ e = -1074))
            \/ (cell (fst (dec_frac d (k - 17))) (snd (dec_frac d (k - 17))) (e - 1)
                = (2 * Zpos m - 1, loc_Inexact Gt)
                /\ Zpos m = 2 ^ 52 /\ -1074 < e) ->
            PyNum.dec_to_float false d (k - 17) = S754_finite false m e).
  { intros d Hd Hnear.
    destruct (dec_to_float_cell false d (k - 17) Hd) as (e0 & Hv & ->).
    destruct (dec_frac_pos d (k - 17) Hd) as [HN HD].
    apply round_cell_near; try assumption. clear -HN. lia. }
  assert (Hr0' : r = 0 \/ 0 < r) by (clear -Hr; lia).
  destruct Hr0' as [Hr0|Hr0].
  - left. apply Hround; [exact Hlo_pos|]. left.
    rewrite Hcell, (Hexact Hr0). cbn [fst snd]. auto.
  - destruct (Z.le_gt_cases (2 * r) B) as [Hhalf|Hhalf].
    + left. apply Hround; [exact Hlo_pos|]. right.
      destruct (bounded_range m e Hb) as [He _].
      destruct (Z.eq_dec (Zpos m) S52) as [E52|E52].
      * destruct (Z.eq_dec e (-1074)) as [Ee|Ee].
        -- left. rewrite Hcell. split; [apply Hdown; assumption|now right].
        -- right. rewrite Hcell1. split; [apply Hdown2; try assumption|].
           ++ rewrite E52. exact HS2.
           ++ split; [exact E52|clear -He Ee; lia].
      * left. rewrite Hcell. split; [apply Hdown; assumption|now left].
    + right. apply Hround; [exact Hhi_pos|]. left.
      rewrite Hcell, (Hup ltac:(clear -Hhalf; lia)).
      cbn [fst snd]. auto.
Qed.

Lemma candidate_some (m : positive) (e k n d : Z) :
  PyNum.candidate m e k n = Some d ->
  0 < d /\ PyNum.dec_to_float false d (k - n) = S754_finite false m e.
Proof.
  unfold PyNum.candidate. destruct (PyNum.scaled_parts m e (n - k)) as [num den].
  intros H.
  assert (Hok : PyNum.same_float (PyNum.dec_to_float false d (k - n))
                  (S754_finite false m e) = true).
  { destruct (PyNum.same_float (PyNum.dec_to_float false (num / den) (k - n))
                (S754_finite false m e)) eqn:Hlo,
             (PyNum.same_float (PyNum.dec_to_float false (num / den + 1) (k - n))
                (S754_finite false m e)) eqn:Hhi.
    - destruct (2 * (num mod den) ?= den); [destruct (Z.even (num / den))| |];
        injection H as <-; assumption.
    - injection H as <-; assumption.
    - injection H as <-; assumption.
    - discriminate. }
  apply same_float_eq in Hok. split; [|exact Hok].
  destruct d as [|p|p]; [discriminate Hok|lia|discriminate Hok].
Qed.

Lemma candidate_found (m : positive) (e k n : Z) :
  (let lo := fst (PyNum.scaled_parts m e (n - k)) / snd (PyNum.scaled_parts m e (n - k)) in
   PyNum.dec_to_float false lo (k - n) = S754_finite false m e
   \/ PyNum.dec_to_float false (lo + 1) (k - n) = S754_finite false m e) ->
  PyNum.candidate m e k n <> None.
Proof.
  unfold PyNum.candidate. destruct (PyNum.scaled_parts m e (n - k)) as [num den].
  cbn [fst snd]. cbv zeta. intros [H|H]; rewrite H, same_float_refl.
  - destruct (PyNum.same_float _ _);
      [destruct (2 * (num mod den) ?= den); [destruct (Z.even (num / den))| |]|];
      discriminate.
  - destruct (PyNum.same_float _ _);
      [destruct (2 * (num mod den) ?= den); [destruct (Z.even (num / den))| |]|];
      discriminate.
Qed.

Lemma shortest_search (m : positive) (e k : Z) (fuel : nat) :
  forall n,
    n <= 17 -> Z.of_nat fuel + n = 18 ->
    PyNum.candidate m e k 17 <> None ->
    exists n' d,
      PyNum.candidate m e k n' = Some d
      /\ (fix search (fuel : nat) (n : Z) {struct fuel} : string * Z :=
            match fuel with
            | O => (PyNum.dec_digits (PyNum.scaled m e (17 - k)), k)
            | S fuel' =>
                match PyNum.candidate m e k n with
                | Some d =>
                    let s := PyNum.dec_digits d in
                    (PyNum.strip_trailing_zeros s, k - n + Z.of_nat (String.length s))
                | None => search fuel' (n + 1)
                end
            end) fuel n
         = (PyNum.strip_trailing_zeros (PyNum.dec_digits d),
            k - n' + Z.of_nat (String.length (PyNum.dec_digits d))).
Proof.
  induction fuel as [|fuel IH]; intros n Hn Hsum H17; [lia|].
  cbn -[PyNum.candidate PyNum.dec_digits PyNum.strip_trailing_zeros PyNum.scaled
        Z.sub Z.add Z.of_nat String.length].
  destruct (PyNum.candidate m e k n) as [d|] eqn:Hc.
  - exists n, d. split; [exact Hc|]. reflexivity.
  - assert (n <> 17) by (intros ->; contradiction).
    destruct (IH (n + 1) ltac:(lia) ltac:(lia) H17) as (n' & d & Hc' & Hrun).
    exists n', d. split; [exact Hc'|]. exact Hrun.
Qed.

(** [shortest_digits] always returns the stripped digits of a decimal that
    reads back as the float. *)
Lemma shortest_digits_spec (m : positive) (e : Z) :
  bounded prec emax m e = true ->
  exists d p,
    0 < d
    /\ PyNum.dec_to_float false d p = S754_finite false m e
    /\ PyNum.shortest_digits m e
       = (PyNum.strip_trailing_zeros (PyNum.dec_digits d),
          p + Z.of_nat (String.length (PyNum.dec_digits d))).
Proof.
  intros Hb.
  assert (H17 : PyNum.candidate m e (PyNum.decpt_of m e) 17 <> None).
  { apply candidate_found. cbv zeta.
    destruct (seventeen_digits m e Hb) as [_ H]. exact H. }
  destruct (shortest_search m e (PyNum.decpt_of m e) 17 1 ltac:(lia) ltac:(lia) H17)
    as (n & d & Hc & Hrun).
  destruct (candidate_some m e _ n d Hc) as [Hd Hok].
  exists d, (PyNum.decpt_of m e - n). split; [exact Hd|]. split; [exact Hok|].
  exact Hrun.
Qed.

(** ** Reading the text of a float back *)

Lemma take_digits_app (a b : string) :
  all_digits a = true ->
  match b with
  | EmptyString => True
  | String c _ => is_digit c = false
  end ->
  take_digits (a ++ b) = (a, b).
Proof.
  intros Ha Hb. induction a as [|c a IH].
  - destruct b as [|c b]; [reflexivity|].
    change ("" ++ String c b) with (String c b). cbn [take_digits].
    now rewrite Hb.
  - rewrite append_cons. cbn [all_digits] in Ha.
    apply andb_true_iff in Ha as [Hc Ha]. cbn [take_digits].
    now rewrite Hc, (IH Ha).
Qed.

Lemma take_digits_all (a : string) : all_digits a = true -> take_digits a = (a, "").
Proof.
  intros Ha. rewrite <- (append_nil_r a) at 1. now apply take_digits_app.
Qed.

Lemma substring_whole (s : string) : substring 0 (String.length s) s = s.
Proof. induction s as [|c s IH]; [reflexivity|]. cbn. now rewrite IH. Qed.

Lemma substring_split (p : nat) :
  forall s : string,
    (p <= String.length s)%nat ->
    substring 0 p s ++ substring p (String.length s - p) s = s.
Proof.
  induction p as [|p IH]; intros s Hp.
  - rewrite Nat.sub_0_r, substring_whole. destruct s; reflexivity.
  - destruct s as [|c s]; [cbn in Hp; lia|].
    cbn [String.length] in Hp |- *. cbn [substring Nat.sub].
    rewrite append_cons. f_equal. apply IH. lia.
Qed.

Lemma substring_prefix_length (p : nat) :
  forall s : string,
    (p <= String.length s)%nat -> String.length (substring 0 p s) = p.
Proof.
  induction p as [|p IH]; intros s Hp.
  - destruct s; reflexivity.
  - destruct s as [|c s]; [cbn in Hp; lia|]. cbn [substring String.length] in *.
    f_equal. apply IH. lia.
Qed.

Lemma pad_digits_spec (w : nat) (a : Z) :
  0 <= a ->
  all_digits (PyNum.pad_digits w a) = true
  /\ digits_value (PyNum.pad_digits w a) = a.
Proof.
  intros Ha. unfold PyNum.pad_digits. cbv zeta.
  destruct (dec_digits_spec a Ha) as (Hall & _ & Hval).
  destruct (zeros_spec (w - String.length (PyNum.dec_digits a))) as (Hz1 & Hz2 & _).
  rewrite all_digits_app, Hz1, Hall, digits_value_app, Hz2, Hval. split; [reflexivity|lia].
Qed.

Lemma read_decimal_parts (int_part frac : string) (tail : string) (ex : Z) :
  all_digits int_part = true -> all_digits frac = true ->
  (tail = "" /\ ex = 0
   \/ exists a, 0 <= a /\ (tail = "e-" ++ PyNum.pad_digits 2 a /\ ex = - a
                           \/ tail = "e+" ++ PyNum.pad_digits 2 a /\ ex = a)) ->
  read_decimal (int_part ++ "." ++ frac ++ tail)
  = (digits_value (int_part ++ frac), ex - Z.of_nat (String.length frac)).
Proof.
  intros Hi Hf Htail. unfold read_decimal.
  rewrite (take_digits_app int_part ("." ++ frac ++ tail) Hi) by reflexivity.
  change ("." ++ frac ++ tail) with (String "." (frac ++ tail)).
  cbn [Ascii.eqb Bool.eqb]. cbv iota.
  destruct Htail as [[-> ->]|(a & Ha & [[-> ->]|[-> ->]])].
  - rewrite append_nil_r, (take_digits_all frac Hf). reflexivity.
  - destruct (pad_digits_spec 2 a Ha) as [Hp Hv].
    rewrite (take_digits_app frac _ Hf) by reflexivity.
    change ("e-" ++ PyNum.pad_digits 2 a)
      with (String "e" (String "-" (PyNum.pad_digits 2 a))).
    cbn [Ascii.eqb Bool.eqb]. cbv iota.
    rewrite (take_digits_all _ Hp). cbn [fst]. now rewrite Hv.
  - destruct (pad_digits_spec 2 a Ha) as [Hp Hv].
    rewrite (take_digits_app frac _ Hf) by reflexivity.
    change ("e+" ++ PyNum.pad_digits 2 a)
      with (String "e" (String "+" (PyNum.pad_digits 2 a))).
    cbn [Ascii.eqb Bool.eqb]. cbv iota.
    rewrite (take_digits_all _ Hp). cbn [fst]. now rewrite Hv.
Qed.

Lemma read_decimal_exponent (int_part : string) (sg : string) (a ex : Z) :
  all_digits int_part = true -> 0 <= a ->
  (sg = "-" /\ ex = - a \/ sg = "+" /\ ex = a) ->
  read_decimal (int_part ++ "e" ++ sg ++ PyNum.pad_digits 2 a)
  = (digits_value int_part, ex).
Proof.
  intros Hi Ha Hsg. unfold read_decimal.
  destruct (pad_digits_spec 2 a Ha) as [Hp Hv].
  rewrite (take_digits_app int_part _ Hi)
    by (destruct Hsg as [[-> _]|[-> _]]; reflexivity).
  destruct Hsg as [[-> ->]|[-> ->]].
  - change ("e" ++ "-" ++ PyNum.pad_digits 2 a)
      with (String "e" (String "-" (PyNum.pad_digits 2 a))).
    cbn [Ascii.eqb Bool.eqb]. cbv iota.
    rewrite (take_digits_all _ Hp). cbn [fst String.length].
    rewrite append_nil_r, Hv. f_equal. lia.
  - change ("e" ++ "+" ++ PyNum.pad_digits 2 a)
      with (String "e" (String "+" (PyNum.pad_digits 2 a))).
    cbn [Ascii.eqb Bool.eqb]. cbv iota.
    rewrite (take_digits_all _ Hp). cbn [fst String.length].
    rewrite append_nil_r, Hv. f_equal. lia.
Qed.

Lemma digits_value_cons_zero (s : string) : digits_value (String "0" s) = digits_value s.
Proof.
  change (String "0" s) with ("0" ++ s). rewrite digits_value_app. reflexivity.
Qed.

(** The numeral [repr_layout] writes denotes [0.digits * 10^decpt]. *)
Lemma read_layout (D : string) (decpt : Z) :
  all_digits D = true -> D <> "" ->
  exists t,
    0 <= t
    /\ read_decimal (PyNum.repr_layout D decpt)
       = (digits_value D * 10 ^ t, decpt - Z.of_nat (String.length D) - t).
Proof.
  intros HD Hne. unfold PyNum.repr_layout. cbv zeta.
  destruct ((decpt <=? -4) || (16 <? decpt)) eqn:Hsci.
  - exists 0. split; [lia|]. rewrite Z.mul_1_r, Z.sub_0_r.
    destruct D as [|c rest]; [congruence|].
    assert (Hsg : (if decpt - 1 <? 0 then "-" else "+") = "-"
                  /\ decpt - 1 = - Z.abs (decpt - 1)
                  \/ (if decpt - 1 <? 0 then "-" else "+") = "+"
                     /\ decpt - 1 = Z.abs (decpt - 1)).
    { destruct (Z.ltb_spec (decpt - 1) 0); [left|right]; split; try reflexivity; lia. }
    destruct rest as [|c2 r2].
    + rewrite (read_decimal_exponent (String c "") _ (Z.abs (decpt - 1)) (decpt - 1));
        [|exact HD|lia|exact Hsg].
      f_equal; cbn [String.length]; lia.
    + cbn [all_digits] in HD. apply andb_true_iff in HD as [Hc Hrest].
      replace (String c ("." ++ String c2 r2) ++
               "e" ++ (if decpt - 1 <? 0 then "-" else "+")
               ++ PyNum.pad_digits 2 (Z.abs (decpt - 1)))
        with (String c "" ++ "." ++ String c2 r2 ++
              ("e" ++ (if decpt - 1 <? 0 then "-" else "+"))
              ++ PyNum.pad_digits 2 (Z.abs (decpt - 1)))
        by (rewrite !append_cons, !append_assoc; reflexivity).
      rewrite (read_decimal_parts (String c "") (String c2 r2) _ (decpt - 1)).
      * f_equal; cbn [String.length]; lia.
      * cbn [all_digits]. now rewrite Hc.
      * exact Hrest.
      * right. exists (Z.abs (decpt - 1)). split; [lia|].
        destruct Hsg as [[-> E]|[-> E]]; [left|right]; split; try reflexivity; lia.
  - apply orb_false_iff in Hsci as [H1 H2].
    apply Z.leb_gt in H1. apply Z.ltb_ge in H2.
    destruct (Z.leb_spec decpt 0) as [H0|H0].
    + exists 0. split; [lia|]. rewrite Z.mul_1_r, Z.sub_0_r.
      destruct (zeros_spec (Z.to_nat (- decpt))) as (Hz1 & Hz2 & Hz3).
      replace ("0." ++ PyNum.zeros (Z.to_nat (- decpt)) ++ D)
        with ("0" ++ "." ++ (PyNum.zeros (Z.to_nat (- decpt)) ++ D) ++ "")
        by (rewrite append_nil_r; reflexivity).
      rewrite (read_decimal_parts "0" _ "" 0); [|reflexivity| |left; split; reflexivity].
      * f_equal.
        -- change ("0" ++ PyNum.zeros (Z.to_nat (- decpt)) ++ D)
             with (String "0" (PyNum.zeros (Z.to_nat (- decpt)) ++ D)).
           rewrite digits_value_cons_zero, digits_value_app, Hz2. lia.
        -- rewrite append_length, Hz3. lia.
      * now rewrite all_digits_app, Hz1, HD.
    + destruct (Z.leb_spec (Z.of_nat (String.length D)) decpt) as [Hn|Hn].
      * exists (decpt - Z.of_nat (String.length D) + 1). split; [lia|].
        destruct (zeros_spec (Z.to_nat (decpt - Z.of_nat (String.length D))))
          as (Hz1 & Hz2 & Hz3).
        replace (D ++ PyNum.zeros (Z.to_nat (decpt - Z.of_nat (String.length D))) ++ ".0")
          with ((D ++ PyNum.zeros (Z.to_nat (decpt - Z.of_nat (String.length D))))
                ++ "." ++ "0" ++ "")
          by (rewrite append_assoc; reflexivity).
        rewrite (read_decimal_parts _ "0" "" 0);
          [|now rewrite all_digits_app, Hz1, HD|reflexivity|left; split; reflexivity].
        f_equal.
        -- rewrite !digits_value_app, Hz2, Hz3. cbn [String.length].
           change (digits_value "0") with 0.
           rewrite Z2Nat.id by lia.
           replace (decpt - Z.of_nat (String.length D) + 1)
             with (Z.succ (decpt - Z.of_nat (String.length D))) by lia.
           rewrite Z.pow_succ_r by lia. change (Z.of_nat 1) with 1.
           change (10 ^ 1) with 10. ring.
        -- cbn [String.length]. lia.
      * exists 0. split; [lia|]. rewrite Z.mul_1_r, Z.sub_0_r.
        assert (Hp : (Z.to_nat decpt <= String.length D)%nat) by lia.
        pose proof (substring_split (Z.to_nat decpt) D Hp) as Hsplit.
        pose proof (substring_prefix_length (Z.to_nat decpt) D Hp) as Hlen.
        replace (Z.to_nat (Z.of_nat (String.length D) - decpt))
          with (String.length D - Z.to_nat decpt)%nat by lia.
        set (pre := substring 0 (Z.to_nat decpt) D) in *.
        set (suf := substring (Z.to_nat decpt) (String.length D - Z.to_nat decpt) D) in *.
        assert (Hall : all_digits pre = true /\ all_digits suf = true).
        { rewrite <- Hsplit, all_digits_app in HD. now apply andb_true_iff in HD. }
        replace (pre ++ "." ++ suf) with (pre ++ "." ++ suf ++ "")
          by (now rewrite append_nil_r).
        rewrite (read_decimal_parts pre suf "" 0);
          [|apply Hall|apply Hall|left; split; reflexivity].
        rewrite Hsplit. f_equal.
        assert (Hl : String.length D = (String.length pre + String.length suf)%nat)
          by (rewrite <- Hsplit at 1; apply append_length).
        lia.
Qed.

Lemma layout_head (D : string) (decpt : Z) :
  all_digits D = true -> D <> "" ->
  exists c rest, PyNum.repr_layout D decpt = String c rest /\ is_digit c = true.
Proof.
  intros HD Hne. destruct D as [|c D]; [congruence|].
  cbn [all_digits] in HD. apply andb_true_iff in HD as [Hc _].
  unfold PyNum.repr_layout. cbv zeta.
  destruct ((decpt <=? -4) || (16 <? decpt)).
  - destruct D as [|c2 D]; rewrite append_cons; eauto.
  - destruct (Z.leb_spec decpt 0) as [H0|H0].
    + eexists _, _. split; [reflexivity|reflexivity].
    + destruct (Z.of_nat (String.length (String c D)) <=? decpt).
      * rewrite append_cons. eauto.
      * destruct (Z.to_nat decpt) as [|p] eqn:Hp; [lia|].
        cbn [substring]. rewrite append_cons. eauto.
Qed.

Lemma digit_head_neq (c c' : ascii) (s s' : string) :
  is_digit c = true -> is_digit c' = false ->
  String.eqb (String c s) (String c' s') = false.
Proof.
  intros Hc Hc'. cbn [String.eqb].
  destruct (Ascii.eqb_spec c c') as [->|_]; [congruence|reflexivity].
Qed.

Lemma binary_round_aux_sign (q e : Z) (l : location) (m' : positive) (e' : Z) :
  binary_round_aux prec emax false q e l = S754_finite false m' e' ->
  binary_round_aux prec emax true q e l = S754_finite true m' e'.
Proof.
  unfold binary_round_aux.
  destruct (shr_fexp prec emax q e l) as [mrs e1].
  destruct (shr_fexp prec emax _ e1 loc_Exact) as [mrs2 e2].
  destruct (shr_m mrs2) as [|p|p]; try discriminate.
  destruct (e2 <=? emax - prec); [|discriminate].
  intros [= -> ->]. reflexivity.
Qed.

Lemma dec_to_float_sign (s : bool) (d p : Z) (m : positive) (e : Z) :
  PyNum.dec_to_float false d p = S754_finite false m e ->
  PyNum.dec_to_float s d p = S754_finite s m e.
Proof.
  destruct s; [|exact (fun H => H)]. intros H.
  assert (Hd : 0 < d) by (destruct d; [discriminate H|lia|discriminate H]).
  destruct (dec_to_float_cell false d p Hd) as (e1 & Hv1 & E1).
  destruct (dec_to_float_cell true d p Hd) as (e2 & Hv2 & E2).
  destruct (dec_frac_pos d p Hd) as [HN HD].
  rewrite E2, (round_cell_any_start true _ _ e2 e1) by (try assumption; lia).
  rewrite E1 in H. unfold round_cell in *. now apply binary_round_aux_sign.
Qed.

(** Reading the digits [shortest_digits] chose gives the float back. *)
Lemma read_number_layout (s : bool) (m : positive) (e : Z) :
  bounded prec emax m e = true ->
  read_number s (PyNum.repr_layout (fst (PyNum.shortest_digits m e))
                   (snd (PyNum.shortest_digits m e)))
  = S754_finite s m e
  /\ exists c rest,
       PyNum.repr_layout (fst (PyNum.shortest_digits m e))
         (snd (PyNum.shortest_digits m e)) = String c rest
       /\ is_digit c = true.
Proof.
  intros Hb. destruct (shortest_digits_spec m e Hb) as (d & p & Hd & Hok & ->).
  cbn [fst snd].
  destruct (strip_dec_digits d Hd) as (t0 & HallD & HneD & HposD & Hval & Hlen).
  set (D := PyNum.strip_trailing_zeros (PyNum.dec_digits d)) in *.
  split; [|apply layout_head; assumption].
  destruct (read_layout D (p + Z.of_nat (String.length (PyNum.dec_digits d))) HallD HneD)
    as (t1 & Ht1 & Hread).
  unfold read_number. rewrite Hread.
  replace (p + Z.of_nat (String.length (PyNum.dec_digits d))
           - Z.of_nat (String.length D) - t1)
    with ((p + Z.of_nat t0) - t1) by lia.
  rewrite dec_to_float_shift by lia.
  apply dec_to_float_sign.
  rewrite <- Hok, Hval.
  replace p with ((p + Z.of_nat t0) - Z.of_nat t0) at 2 by lia.
  symmetry. apply dec_to_float_shift; lia.
Qed.

Lemma read_float_json_float (x : float) : read_float (Py.json_float x) = Prim2SF x.
Proof.
  unfold Py.json_float, PyNum.float_repr.
  pose proof (Prim2SF_valid x) as Hvalid.
  destruct (Prim2SF x) as [s|s| |s m e]; try (destruct s; reflexivity); [reflexivity|].
  cbn [valid_binary] in Hvalid.
  destruct (read_number_layout s m e Hvalid) as (Hread & c & rest & Hlay & Hc).
  destruct (PyNum.shortest_digits m e) as [digits decpt]. cbn [fst snd] in *.
  unfold read_float. destruct s.
  - rewrite Hlay in *. change ("-" ++ String c rest) with (String "-" (String c rest)).
    replace (String.eqb (String "-" (String c rest)) "NaN") with false by reflexivity.
    replace (String.eqb (String "-" (String c rest)) "Infinity") with false by reflexivity.
    replace (String.eqb (String "-" (String c rest)) "-Infinity") with false.
    + cbn [Ascii.eqb Bool.eqb]. cbv iota. exact Hread.
    + symmetry. cbn [String.eqb Ascii.eqb Bool.eqb andb].
      apply (digit_head_neq c "I" rest "nfinity" Hc). reflexivity.
  - change ("" ++ PyNum.repr_layout digits decpt) with (PyNum.repr_layout digits decpt).
    rewrite Hlay in *.
    rewrite (digit_head_neq c "N" rest "aN" Hc) by reflexivity.
    rewrite (digit_head_neq c "I" rest "nfinity" Hc) by reflexivity.
    rewrite (digit_head_neq c "-" rest "Infinity" Hc) by reflexivity.
    destruct (Ascii.eqb_spec c "-") as [->|_]; [discriminate Hc|]. exact Hread.
Qed.

(** Two floats with the same JSON text are the same float. *)
Lemma json_float_inj (x y : float) : Py.json_float x = Py.json_float y -> x = y.
Proof.
  intros H. rewrite <- (SF2Prim_Prim2SF x), <- (SF2Prim_Prim2SF y).
  now rewrite <- !read_float_json_float, H.
Qed.

(** ** The canonical text of a request determines the request *)

Lemma no_comma_app (s t : string) : no_comma (s ++ t) = no_comma s && no_comma t.
Proof.
  induction s as [|c s IH]; [reflexivity|].
  rewrite append_cons. cbn [no_comma]. rewrite IH. apply andb_assoc.
Qed.

Lemma digit_no_comma (c : ascii) : is_digit c = true -> Ascii.eqb c "," = false.
Proof.
  intros H. destruct (Ascii.eqb_spec c ",") as [->|_]; [discriminate H|reflexivity].
Qed.

Lemma all_digits_no_comma (s : string) : all_digits s = true -> no_comma s = true.
Proof.
  induction s as [|c s IH]; [reflexivity|]. cbn [all_digits no_comma].
  intros H. apply andb_true_iff in H as [Hc Hs].
  now rewrite (digit_no_comma c Hc), (IH Hs).
Qed.

Lemma layout_shape (D : string) (decpt : Z) :
  all_digits D = true -> D <> "" ->
  no_comma (PyNum.repr_layout D decpt) = true
  /\ all_digits (PyNum.repr_layout D decpt) = false.
Proof.
  intros HD Hne. pose proof (all_digits_no_comma D HD) as HnD.
  unfold PyNum.repr_layout. cbv zeta.
  destruct ((decpt <=? -4) || (16 <? decpt)) eqn:Hsci.
  - destruct (pad_digits_spec 2 (Z.abs (decpt - 1)) ltac:(lia)) as [Hp _].
    pose proof (all_digits_no_comma _ Hp) as Hnp.
    destruct D as [|c rest]; [congruence|].
    cbn [all_digits] in HD. apply andb_true_iff in HD as [Hc Hrest].
    pose proof (all_digits_no_comma rest Hrest) as Hnr.
    assert (Hsg : no_comma (if decpt - 1 <? 0 then "-" else "+") = true)
      by (destruct (decpt - 1 <? 0); reflexivity).
    destruct rest as [|c2 r2].
    + rewrite !no_comma_app, !all_digits_app, Hsg, Hnp. cbn [no_comma all_digits].
      rewrite (digit_no_comma c Hc), Hc. split; reflexivity.
    + rewrite append_cons. cbn [no_comma all_digits].
      rewrite !no_comma_app, !all_digits_app, Hsg, Hnp, Hnr, (digit_no_comma c Hc), Hc.
      split; reflexivity.
  - apply orb_false_iff in Hsci as [H1 H2].
    apply Z.leb_gt in H1. apply Z.ltb_ge in H2.
    destruct (Z.leb_spec decpt 0) as [H0|H0].
    + destruct (zeros_spec (Z.to_nat (- decpt))) as (Hz1 & _ & _).
      pose proof (all_digits_no_comma _ Hz1) as Hnz.
      change ("0." ++ PyNum.zeros (Z.to_nat (- decpt)) ++ D)
        with (String "0" (String "." (PyNum.zeros (Z.to_nat (- decpt)) ++ D))).
      cbn [no_comma all_digits]. rewrite no_comma_app, Hnz, HnD. split; reflexivity.
    + destruct (Z.leb_spec (Z.of_nat (String.length D)) decpt) as [Hn|Hn].
      * destruct (zeros_spec (Z.to_nat (decpt - Z.of_nat (String.length D))))
          as (Hz1 & _ & _).
        pose proof (all_digits_no_comma _ Hz1) as Hnz.
        rewrite !no_comma_app, !all_digits_app, HnD, Hnz, HD, Hz1. split; reflexivity.
      * assert (Hp : (Z.to_nat decpt <= String.length D)%nat) by lia.
        pose proof (substring_split (Z.to_nat decpt) D Hp) as Hsplit.
        replace (Z.to_nat (Z.of_nat (String.length D) - decpt))
          with (String.length D - Z.to_nat decpt)%nat by lia.
        set (pre := substring 0 (Z.to_nat decpt) D) in *.
        set (suf := substring (Z.to_nat decpt) (String.length D - Z.to_nat decpt) D) in *.
        assert (Hall : all_digits pre = true /\ all_digits suf = true).
        { rewrite <- Hsplit, all_digits_app in HD. now apply andb_true_iff in HD. }
        destruct Hall as [Hpre Hsuf].
        rewrite !no_comma_app, !all_digits_app,
          (all_digits_no_comma pre Hpre), (all_digits_no_comma suf Hsuf), Hpre.
        split; reflexivity.
Qed.

Lemma sorted_request (t1 t2 t3 t4 t5 t6 t7 : string) :
  Py.sort_items
    [("latitude", t1); ("longitude", t2); ("temperature", t3); ("humidity", t4);
     ("wind_speed", t5); ("wind_direction", t6); ("pressure", t7)]
  = [("humidity", t4); ("latitude", t1); ("longitude", t2); ("pressure", t7);
     ("temperature", t3); ("wind_direction", t6); ("wind_speed", t5)].
Proof. reflexivity. Qed.

Lemma append_cancel_l (a b b' : string) : a ++ b = a ++ b' -> b = b'.
Proof.
  induction a as [|c a IH]; [exact (fun H => H)|].
  rewrite !append_cons. intros [= H]. now apply IH.
Qed.

Lemma append_cancel_r (b : string) :
  forall a a' : string, a ++ b = a' ++ b -> a = a'.
Proof.
  assert (Hlen : forall a c a', a ++ b <> String c a' ++ a ++ b).
  { intros a c a' H. apply (f_equal String.length) in H.
    rewrite append_cons in H. cbn [String.length] in H.
    rewrite !append_length in H. lia. }
  induction a as [|c a IH]; intros [|c' a'] H.
  - reflexivity.
  - exfalso. apply (Hlen "" c' a'). rewrite <- append_assoc, append_nil_r. exact H.
  - exfalso. apply (Hlen "" c a). rewrite <- append_assoc, append_nil_r. now symmetry.
  - rewrite !append_cons in H. injection H as -> H. f_equal. now apply IH.
Qed.

Lemma app_comma_inj (a a' b b' : string) :
  no_comma a = true -> no_comma a' = true ->
  a ++ String "," b = a' ++ String "," b' -> a = a' /\ b = b'.
Proof.
  revert a'. induction a as [|c a IH]; intros [|c' a'] Ha Ha' H.
  - change ("" ++ String "," b) with (String "," b) in H.
    change ("" ++ String "," b') with (String "," b') in H.
    injection H as ->. auto.
  - change ("" ++ String "," b) with (String "," b) in H.
    rewrite append_cons in H. injection H as <- _.
    cbn [no_comma] in Ha'. discriminate Ha'.
  - change ("" ++ String "," b') with (String "," b') in H.
    rewrite append_cons in H. injection H as -> _.
    cbn [no_comma] in Ha. discriminate Ha.
  - rewrite !append_cons in H. injection H as -> H.
    cbn [no_comma] in Ha, Ha'.
    apply andb_true_iff in Ha as [_ Ha]. apply andb_true_iff in Ha' as [_ Ha'].
    destruct (IH a' Ha Ha' H) as [-> ->]. auto.
Qed.

Lemma member_split (k t rest t' rest' : string) :
  no_comma t = true -> no_comma t' = true ->
  Py.json_member (k, t) ++ ", " ++ rest = Py.json_member (k, t') ++ ", " ++ rest' ->
  t = t' /\ rest = rest'.
Proof.
  intros Ht Ht' H. unfold Py.json_member in H. cbn [fst snd] in H.
  rewrite !append_assoc in H. apply append_cancel_l in H.
  apply append_cancel_l in H.
  change (", " ++ rest) with (String "," (String " " rest)) in H.
  change (", " ++ rest') with (String "," (String " " rest')) in H.
  destruct (app_comma_inj _ _ _ _ Ht Ht' H) as [-> Hr]. now injection Hr as ->.
Qed.

Lemma member_last (k t t' : string) :
  Py.json_member (k, t) = Py.json_member (k, t') -> t = t'.
Proof.
  unfold Py.json_member. cbn [fst snd]. intros H.
  apply append_cancel_l in H. now apply append_cancel_l in H.
Qed.

(** *** The texts of numbers and of [None] *)

Lemma json_float_shape (x : float) :
  no_comma (Py.json_float x) = true
  /\ all_digits (unsigned_text (Py.json_float x)) = false
  /\ exists c rest, Py.json_float x = String c rest /\ Ascii.eqb c "n" = false.
Proof.
  unfold Py.json_float, PyNum.float_repr.
  pose proof (Prim2SF_valid x) as Hvalid.
  destruct (Prim2SF x) as [s|s| |s m e];
    try (destruct s; repeat split; eexists _, _; split; reflexivity);
    try (repeat split; eexists _, _; split; reflexivity).
  cbn [valid_binary] in Hvalid.
  destruct (shortest_digits_spec m e Hvalid) as (d & p & Hd & _ & ->).
  destruct (strip_dec_digits d Hd) as (t0 & HallD & HneD & _).
  destruct (layout_shape _ (p + Z.of_nat (String.length (PyNum.dec_digits d))) HallD HneD)
    as [Hnc Hnd].
  destruct (layout_head _ (p + Z.of_nat (String.length (PyNum.dec_digits d))) HallD HneD)
    as (c & rest & Hlay & Hc).
  destruct s.
  - rewrite no_comma_app, Hnc.
    change ("-" ++ PyNum.repr_layout
                     (PyNum.strip_trailing_zeros (PyNum.dec_digits d))
                     (p + Z.of_nat (String.length (PyNum.dec_digits d))))
      with (String "-" (PyNum.repr_layout
                          (PyNum.strip_trailing_zeros (PyNum.dec_digits d))
                          (p + Z.of_nat (String.length (PyNum.dec_digits d))))).
    cbn [unsigned_text Ascii.eqb Bool.eqb]. cbv iota.
    split; [reflexivity|]. split; [exact Hnd|]. eexists _, _. split; reflexivity.
  - change ("" ++ PyNum.repr_layout
                    (PyNum.strip_trailing_zeros (PyNum.dec_digits d))
                    (p + Z.of_nat (String.length (PyNum.dec_digits d))))
      with (PyNum.repr_layout
              (PyNum.strip_trailing_zeros (PyNum.dec_digits d))
              (p + Z.of_nat (String.length (PyNum.dec_digits d)))).
    split; [exact Hnc|]. rewrite Hlay in *. split.
    + cbn [unsigned_text].
      destruct (Ascii.eqb_spec c "-") as [->|_]; [discriminate Hc|exact Hnd].
    + exists c, rest. split; [reflexivity|].
      destruct (Ascii.eqb_spec c "n") as [->|_]; [discriminate Hc|reflexivity].
Qed.

Lemma dec_digits_head (n : Z) :
  0 <= n -> exists c rest, PyNum.dec_digits n = String c rest /\ is_digit c = true.
Proof.
  intros Hn. destruct (dec_digits_spec n Hn) as (Hall & Hne & _).
  destruct (PyNum.dec_digits n) as [|c rest]; [congruence|].
  cbn [all_digits] in Hall. apply andb_true_iff in Hall as [Hc _]. eauto.
Qed.

Lemma int_repr_shape (n : Z) :
  no_comma (PyNum.int_repr n) = true
  /\ all_digits (unsigned_text (PyNum.int_repr n)) = true
  /\ exists c rest, PyNum.int_repr n = String c rest /\ Ascii.eqb c "n" = false.
Proof.
  unfold PyNum.int_repr. destruct (Z.ltb_spec n 0) as [Hn|Hn].
  - destruct (dec_digits_spec (- n) ltac:(lia)) as (Hall & _ & _).
    change ("-" ++ PyNum.dec_digits (- n)) with (String "-" (PyNum.dec_digits (- n))).
    cbn [no_comma unsigned_text Ascii.eqb Bool.eqb]. cbv iota.
    rewrite (all_digits_no_comma _ Hall). split; [reflexivity|]. split; [exact Hall|].
    eexists _, _. split; reflexivity.
  - destruct (dec_digits_spec n Hn) as (Hall & _ & _).
    destruct (dec_digits_head n Hn) as (c & rest & E & Hc). rewrite E in *.
    split; [now apply all_digits_no_comma|]. split.
    + cbn [unsigned_text].
      destruct (Ascii.eqb_spec c "-") as [->|_]; [discriminate Hc|exact Hall].
    + exists c, rest. split; [reflexivity|].
      destruct (Ascii.eqb_spec c "n") as [->|_]; [discriminate Hc|reflexivity].
Qed.

Lemma int_repr_inj (n n' : Z) : PyNum.int_repr n = PyNum.int_repr n' -> n = n'.
Proof.
  unfold PyNum.int_repr.
  destruct (Z.ltb_spec n 0) as [Hn|Hn], (Z.ltb_spec n' 0) as [Hn'|Hn']; intros H.
  - apply append_cancel_l in H. apply (f_equal digits_value) in H.
    destruct (dec_digits_spec (- n) ltac:(lia)) as (_ & _ & E).
    destruct (dec_digits_spec (- n') ltac:(lia)) as (_ & _ & E'). lia.
  - exfalso. destruct (dec_digits_head n' Hn') as (c & rest & E & Hc).
    rewrite E in H. change ("-" ++ PyNum.dec_digits (- n))
      with (String "-" (PyNum.dec_digits (- n))) in H.
    injection H as <- _. discriminate Hc.
  - exfalso. destruct (dec_digits_head n Hn) as (c & rest & E & Hc).
    rewrite E in H. change ("-" ++ PyNum.dec_digits (- n'))
      with (String "-" (PyNum.dec_digits (- n'))) in H.
    injection H as -> _. discriminate Hc.
  - apply (f_equal digits_value) in H.
    destruct (dec_digits_spec n Hn) as (_ & _ & E).
    destruct (dec_digits_spec n' Hn') as (_ & _ & E'). lia.
Qed.

Lemma plain_dumps_no_comma (v : Py.value) :
  plain_value v = true -> no_comma (Py.dumps true v) = true.
Proof.
  destruct v; try discriminate; intros _; cbn [Py.dumps].
  - reflexivity.
  - apply int_repr_shape.
  - apply json_float_shape.
Qed.

Lemma plain_dumps_inj (v v' : Py.value) :
  plain_value v = true -> plain_value v' = true ->
  Py.dumps true v = Py.dumps true v' -> v = v'.
Proof.
  destruct v as [| |n|x| |], v' as [| |n'|x'| |]; try discriminate; intros _ _;
    cbn [Py.dumps]; intros H.
  - reflexivity.
  - exfalso. destruct (int_repr_shape n') as (_ & _ & c & rest & E & Hc).
    rewrite E in H. injection H as <- _. discriminate Hc.
  - exfalso. destruct (json_float_shape x') as (_ & _ & c & rest & E & Hc).
    rewrite E in H. injection H as <- _. discriminate Hc.
  - exfalso. destruct (int_repr_shape n) as (_ & _ & c & rest & E & Hc).
    rewrite E in H. injection H as -> _. discriminate Hc.
  - f_equal. now apply int_repr_inj.
  - exfalso. destruct (int_repr_shape n) as (_ & Hd & _).
    destruct (json_float_shape x') as (_ & Hd' & _). congruence.
  - exfalso. destruct (json_float_shape x) as (_ & _ & c & rest & E & Hc).
    rewrite E in H. injection H as -> _. discriminate Hc.
  - exfalso. destruct (int_repr_shape n') as (_ & Hd & _).
    destruct (json_float_shape x) as (_ & Hd' & _). congruence.
  - f_equal. now apply json_float_inj.
Qed.

(** Two requests whose optional fields hold [None] or a number have the
    same key-sorted JSON text only if they agree on every field. *)
Lemma request_text_inj (r r' : Request) :
  plain_value (wind_direction r) = true -> plain_value (pressure r) = true ->
  plain_value (wind_direction r') = true -> plain_value (pressure r') = true ->
  Py.dumps true (Py.Dict (to_dict r)) = Py.dumps true (Py.Dict (to_dict r')) ->
  r = r'.
Proof.
  intros Hwd Hp Hwd' Hp' H. unfold to_dict in H.
  cbn [Py.dumps map fst snd] in H. rewrite !sorted_request in H.
  cbn [map String.concat] in H.
  apply append_cancel_l, append_cancel_r in H.
  pose proof (fun x => proj1 (json_float_shape x)) as Hf.
  apply member_split in H as [H1 H]; [|apply Hf|apply Hf].
  apply member_split in H as [H2 H]; [|apply Hf|apply Hf].
  apply member_split in H as [H3 H]; [|apply Hf|apply Hf].
  apply member_split in H as [H4 H]; [|now apply plain_dumps_no_comma..].
  apply member_split in H as [H5 H]; [|apply Hf|apply Hf].
  apply member_split in H as [H6 H]; [|now apply plain_dumps_no_comma..].
  apply member_last in H.
  apply json_float_inj in H1, H2, H3, H5, H.
  apply plain_dumps_inj in H4, H6; try assumption.
  destruct r, r'. cbn in *. congruence.
Qed.

(** ** The cache key *)

(** C4, as the code has it. The key of a dictionary with distinct field
    names does not depend on the order of its fields, in particular for a
    request. A changed field value changes the canonical text: two requests
    whose optional fields hold [None] or a number, as every validated
    request's do, and which differ in some field have different key-sorted
    JSON texts. Their keys differ exactly when the MD5 digests of these texts
    differ, which is not always. *)
Theorem fingerprint_stability :
  (forall d d' : Py.dict,
     List.NoDup (Py.keys d) -> Permutation d d' ->
     CacheService._generate_key d = CacheService._generate_key d')
  /\ (forall (r : Request) (d' : Py.dict),
        Permutation (to_dict r) d' ->
        CacheService._generate_key d' = CacheService._generate_key (to_dict r))
  /\ (forall d d' : Py.dict,
        CacheService._generate_key d <> CacheService._generate_key d'
        <-> key_digest d <> key_digest d')
  /\ (forall r r' : Request,
        plain_value (wind_direction r) = true -> plain_value (pressure r) = true ->
        plain_value (wind_direction r') = true -> plain_value (pressure r') = true ->
        r <> r' ->
        Py.dumps true (Py.Dict (to_dict r)) <> Py.dumps true (Py.Dict (to_dict r'))
        /\ (CacheService._generate_key (to_dict r)
            <> CacheService._generate_key (to_dict r')
            <-> Hashlib.md5 (Hashlib.encode (Py.dumps true (Py.Dict (to_dict r))))
                <> Hashlib.md5 (Hashlib.encode (Py.dumps true (Py.Dict (to_dict r'))))))
  /\ (forall r : Request,
        validated r = true ->
        plain_value (wind_direction r) = true /\ plain_value (pressure r) = true).
Proof.
  assert (Hperm : forall d d' : Py.dict,
            List.NoDup (Py.keys d) -> Permutation d d' ->
            CacheService._generate_key d = CacheService._generate_key d').
  { intros d d' Hnd Hp. unfold CacheService._generate_key.
    now rewrite (dumps_sorted_perm d d' Hp Hnd). }
  split; [exact Hperm|]. split; [|split; [|split]].
  - intros r d' Hp. symmetry. apply Hperm; [|exact Hp].
    unfold to_dict, Py.keys. cbn [map fst].
    repeat (apply List.NoDup_cons;
            [cbn [In]; intros Hin; repeat destruct Hin as [Hin|Hin];
             try discriminate Hin; exact Hin|]).
    apply List.NoDup_nil.
  - intros d d'. now rewrite generate_key_eq_iff.
  - intros r r' Hwd Hp Hwd' Hp' Hne. split.
    + intros Htext. apply Hne. now apply request_text_inj.
    + rewrite generate_key_eq_iff. reflexivity.
  - intros r Hv. unfold validated in Hv.
    apply andb_true_iff in Hv as [Hv Hp]. apply andb_true_iff in Hv as [_ Hwd].
    split.
    + destruct (wind_direction r); try discriminate Hwd; reflexivity.
    + destruct (pressure r); try discriminate Hp; reflexivity.
Qed.

Lemma fingerprint_stability_witness :
  CacheService._generate_key (rev (to_dict example_request))
  = CacheService._generate_key (to_dict example_request)
  /\ CacheService._generate_key (to_dict example_request)
     <> CacheService._generate_key (to_dict example_request_moved)
  /\ Py.dumps true (Py.Dict (to_dict example_request))
     <> Py.dumps true (Py.Dict (to_dict example_request_cool)).
Proof.
  split; [|split].
  - apply (proj1 (proj2 fingerprint_stability) example_request).
    apply Permutation_rev.
  - apply (proj1 (proj2 (proj2 fingerprint_stability))).
    vm_compute. discriminate.
  - apply (proj1 (proj2 (proj2 (proj2 fingerprint_stability)))
             example_request example_request_cool); try reflexivity.
    intros H. apply (f_equal pressure) in H. discriminate H.
Defined.

(** There are more valid requests than 128-bit digests, so some two valid
    requests that differ in a field value share a key. *)
Lemma some_requests_share_a_key :
  ~ (forall r r' : Request,
       validated r = true -> validated r' = true -> r <> r' ->
       CacheService._generate_key (to_dict r) <> CacheService._generate_key (to_dict r')).
Proof.
  intros Hinj.
  destruct (pigeonhole (2 ^ 128) ltac:(apply Z.pow_nonneg; lia)
              (fun i => digest_num (key_digest (to_dict (request_of_index i)))))
    as (i & j & Hij & Hj & E).
  - intros i _. apply digest_num_range, md5_state32.
  - apply digest_num_inj in E; try apply md5_state32.
    apply (Hinj (request_of_index i) (request_of_index j)).
    + apply request_of_index_validated. lia.
    + apply request_of_index_validated. lia.
    + intros Heq. apply request_of_index_inj in Heq; lia.
    + now apply generate_key_eq_iff.
Qed.

(** ** [predict_batch] *)

(** C1, at a request that is not cached: [predict_single] returns a
    prediction, while [predict_batch] of that one request raises when it
    wraps the one-row frames of [_prepare_features] into a frame, so the two
    do not agree. *)
Lemma batch_of_one_miss_raises :
  (exists p w',
     PredictionService.predict_single example_config example_cache
       (example_service 0.7) example_request example_world = (inr p, w')
     /\ Py.dict_get "risk_score" p = Some (Py.Float 0.7))
  /\ fst (PredictionService.predict_batch example_config example_cache
            (example_service 0.7) [example_request] example_world)
     = inl (ValueError "Must pass 2-d input").
Proof.
  split.
  - eexists _, _. split; [vm_compute; reflexivity|reflexivity].
  - vm_compute. reflexivity.
Qed.

(** C2, at a batch of two cached requests around one that is not: the call
    raises instead of returning three results, and the model is not invoked. *)
Lemma batch_with_one_miss_raises :
  cache_hit example_cache example_request example_world_warm
    (PredictionService.build_prediction (example_service 0.7) example_request 0.7
       "HIGH" (PredictionService._calculate_factors example_request) example_now)
  /\ cache_miss example_cache example_request_cool example_world_warm
  /\ (exists doc, cache_hit example_cache example_request_moved example_world_warm doc)
  /\ (let r := PredictionService.predict_batch example_config example_cache
                 (example_service 0.7)
                 [example_request; example_request_cool; example_request_moved]
                 example_world_warm in
      fst r = inl (ValueError "Must pass 2-d input")
      /\ model_calls (snd r) = model_calls example_world_warm).
Proof.
  split; [vm_compute; reflexivity|].
  split; [vm_compute; reflexivity|].
  split; [eexists; vm_compute; reflexivity|].
  split; vm_compute; reflexivity.
Qed.

(** * Further properties of the serving path *)

(** ** Lookups and writes, in terms of the store *)

Lemma get_spec (cs : CacheService.t) (d : Py.dict) (w : World) :
  exists w', CacheService.get cs d w = (inr (lookup cs d w), w')
    /\ same_store w w'
    /\ clock w' = clock w /\ ticks w' = ticks w /\ model_calls w' = model_calls w.
Proof.
  rewrite get_cases. unfold lookup, same_store.
  destruct (CacheService.redis_client cs); [|eauto 10].
  destruct (fault (redis w)) eqn:Hf; [eauto 10|].
  cbv zeta. destruct (RedisClient.live (redis w) (CacheService._generate_key d));
    eexists; (split; [reflexivity|]); cbn [redis kv server_time fault clock ticks
      model_calls]; rewrite ?Hf; auto 10.
Qed.

Lemma lookup_same_store (cs : CacheService.t) (d : Py.dict) (w w' : World) :
  same_store w w' -> lookup cs d w' = lookup cs d w.
Proof.
  intros (Hkv & Ht & Hf). unfold lookup, RedisClient.live.
  now rewrite Hkv, Ht, Hf.
Qed.

Lemma same_store_refl (w : World) : same_store w w.
Proof. unfold same_store. auto. Qed.

Lemma same_store_trans (w1 w2 w3 : World) :
  same_store w1 w2 -> same_store w2 w3 -> same_store w1 w3.
Proof. unfold same_store. intros (-> & -> & ->) (-> & -> & ->). auto. Qed.

Lemma cache_miss_served (cs : CacheService.t) (req : Request) (w : World) :
  cache_miss cs req w <-> served cs req w = None.
Proof.
  unfold cache_miss, served.
  destruct (get_spec cs (to_dict req) w) as (w' & -> & _). reflexivity.
Qed.

Lemma cache_hit_served (cs : CacheService.t) (req : Request) (w : World)
    (doc : Py.dict) :
  cache_hit cs req w doc <-> served cs req w = Some doc.
Proof.
  unfold cache_hit, served.
  destruct (get_spec cs (to_dict req) w) as (w' & -> & _). reflexivity.
Qed.

(** The world [set] leaves behind when the store accepts the write. *)
Lemma set_stores (cfg : Config) (cs : CacheService.t) (d p : Py.dict)
    (ttl : option Z) (w : World) :
  reachable cs w -> 0 < effective_ttl cfg ttl ->
  CacheService.set cfg cs d p ttl w =
  (inr tt,
   mkWorld (mkRedis (<[CacheService._generate_key d :=
                        (json_dumps p, server_time (redis w) + effective_ttl cfg ttl)]>
                      (kv (redis w)))
                    (server_time (redis w)) None
                    (keyspace_hits (redis w)) (keyspace_misses (redis w)))
           (clock w) (ticks w) (model_calls w)).
Proof.
  intros [Hclient Hfault] Hpos. rewrite set_cases.
  destruct (CacheService.redis_client cs); [|congruence].
  rewrite Hfault. cbv zeta.
  assert (Hle : (effective_ttl cfg ttl <=? 0) = false) by (apply Z.leb_gt; lia).
  rewrite Hle, ?Hfault. reflexivity.
Qed.

(** [set] changes nothing but the entries of the store. *)
Lemma set_keeps (cfg : Config) (cs : CacheService.t) (d p : Py.dict)
    (ttl : option Z) (w : World) :
  exists w', CacheService.set cfg cs d p ttl w = (inr tt, w')
    /\ server_time (redis w') = server_time (redis w)
    /\ fault (redis w') = fault (redis w)
    /\ clock w' = clock w /\ ticks w' = ticks w /\ model_calls w' = model_calls w
    /\ forall k, k <> CacheService._generate_key d ->
         kv (redis w') !! k = kv (redis w) !! k.
Proof.
  rewrite set_cases.
  destruct (CacheService.redis_client cs); [|eauto 10].
  destruct (fault (redis w)) eqn:Hf; [eauto 10|].
  cbv zeta. destruct (effective_ttl cfg ttl <=? 0); [eauto 10|].
  eexists. split; [reflexivity|].
  cbn [redis kv server_time fault clock ticks model_calls]. rewrite ?Hf.
  repeat (split; [reflexivity|]).
  intros k Hk. now rewrite lookup_insert_ne by congruence.
Qed.

(** The lookup in a reachable store, before and after the expiry of an
    entry. *)
Lemma lookup_entry (cs : CacheService.t) (d doc : Py.dict) (expiry : Z) (w : World) :
  reachable cs w ->
  kv (redis w) !! CacheService._generate_key d = Some (json_dumps doc, expiry) ->
  lookup cs d w = if server_time (redis w) <? expiry then Some doc else None.
Proof.
  intros [Hclient Hfault] Hkv. unfold lookup, RedisClient.live.
  destruct (CacheService.redis_client cs); [|congruence].
  rewrite Hfault, Hkv. destruct (server_time (redis w) <? expiry); reflexivity.
Qed.

(** ** Expiry *)

(** X1. An entry is gone once its time-to-live has passed: a lookup at or
    after the expiry reports absent, and [predict_single] treats the request
    as a miss again. *)
Theorem cache_entry_expires (cfg : Config) (cs : CacheService.t) (req : Request)
    (R : Py.dict) (ttl : option Z) (dt : Z) (w : World) :
  reachable cs w ->
  0 < effective_ttl cfg ttl ->
  effective_ttl cfg ttl <= dt ->
  let w' := elapse dt (snd (CacheService.set cfg cs (to_dict req) R ttl w)) in
  fst (CacheService.get cs (to_dict req) w') = inr None
  /\ cache_miss cs req w'.
Proof.
  intros Hreach Hpos Hdt w'.
  assert (Hlookup : lookup cs (to_dict req) w' = None).
  { unfold w'. rewrite (set_stores cfg cs _ R ttl w Hreach Hpos).
    rewrite (lookup_entry cs (to_dict req) R
               (server_time (redis w) + effective_ttl cfg ttl)).
    - cbn [elapse snd redis server_time].
      assert (H : (server_time (redis w) + dt
                   <? server_time (redis w) + effective_ttl cfg ttl) = false)
        by (apply Z.ltb_ge; lia).
      now rewrite H.
    - destruct Hreach as [Hc _]. split; [exact Hc|reflexivity].
    - cbn [elapse snd redis kv]. apply lookup_insert_eq. }
  split.
  - destruct (get_spec cs (to_dict req) w') as (w2 & -> & _). now rewrite Hlookup.
  - apply cache_miss_served. unfold served. now rewrite Hlookup.
Qed.

Lemma cache_entry_expires_witness :
  fst (CacheService.get example_cache (to_dict example_request)
         (elapse 3600
            (snd (CacheService.set example_config example_cache
                    (to_dict example_request) [("risk_level", Py.Str "HIGH")]
                    None example_world))))
  = inr None.
Proof.
  refine (proj1 (cache_entry_expires example_config example_cache example_request
                   [("risk_level", Py.Str "HIGH")] None 3600 example_world _ _ _)).
  - split; [discriminate|reflexivity].
  - reflexivity.
  - vm_compute. discriminate.
Defined.

(** X2. A time-to-live of [0] does not mean "expire at once": [set] replaces
    it by [config.CACHE_TTL], so the entry is served for that long. *)
Theorem zero_ttl_means_default (cfg : Config) (cs : CacheService.t) (d R : Py.dict)
    (dt : Z) (w : World) :
  reachable cs w ->
  0 <= dt < CACHE_TTL cfg ->
  CacheService.set cfg cs d R (Some 0) w = CacheService.set cfg cs d R None w
  /\ fst (CacheService.get cs d
            (elapse dt (snd (CacheService.set cfg cs d R (Some 0) w))))
     = inr (Some R).
Proof.
  intros Hreach Hdt.
  assert (Hpos : 0 < effective_ttl cfg (Some 0)) by (simpl; lia).
  split.
  - rewrite !set_cases. reflexivity.
  - rewrite (set_stores cfg cs d R (Some 0) w Hreach Hpos).
    match goal with
    | |- fst (CacheService.get cs d ?w') = _ =>
        destruct (get_spec cs d w') as (w2 & -> & _);
        rewrite (lookup_entry cs d R (server_time (redis w) + CACHE_TTL cfg) w')
    end.
    + cbn [elapse snd redis server_time fst].
      assert (H : (server_time (redis w) + dt
                   <? server_time (redis w) + CACHE_TTL cfg) = true)
        by (apply Z.ltb_lt; lia).
      now rewrite H.
    + destruct Hreach as [Hc _]. split; [exact Hc|reflexivity].
    + cbn [elapse snd redis kv]. apply lookup_insert_eq.
Qed.

Lemma zero_ttl_means_default_witness :
  fst (CacheService.get example_cache (to_dict example_request)
         (elapse 1800
            (snd (CacheService.set example_config example_cache
                    (to_dict example_request) [("risk_level", Py.Str "HIGH")]
                    (Some 0) example_world))))
  = inr (Some [("risk_level", Py.Str "HIGH")]).
Proof.
  refine (proj2 (zero_ttl_means_default example_config example_cache
                   (to_dict example_request) [("risk_level", Py.Str "HIGH")] 1800
                   example_world _ _)).
  - split; [discriminate|reflexivity].
  - vm_compute. split; [discriminate|reflexivity].
Defined.

(** ** Overwriting and independence of keys *)

(** X3. Last write wins: after two writes for the same request the lookup
    returns the second document. *)
Theorem last_write_wins (cfg : Config) (cs : CacheService.t) (d R1 R2 : Py.dict)
    (ttl1 ttl2 : option Z) (w : World) :
  reachable cs w ->
  0 < effective_ttl cfg ttl1 -> 0 < effective_ttl cfg ttl2 ->
  let w1 := snd (CacheService.set cfg cs d R1 ttl1 w) in
  let w2 := snd (CacheService.set cfg cs d R2 ttl2 w1) in
  fst (CacheService.get cs d w2) = inr (Some R2)
  /\ kv (redis w2) = <[CacheService._generate_key d :=
                         (json_dumps R2, server_time (redis w) + effective_ttl cfg ttl2)]>
                       (kv (redis w)).
Proof.
  intros Hreach Hp1 Hp2 w1 w2.
  assert (Hw1 : reachable cs w1).
  { unfold w1. rewrite (set_stores cfg cs d R1 ttl1 w Hreach Hp1).
    destruct Hreach as [Hc _]. split; [exact Hc|reflexivity]. }
  assert (Hkv : kv (redis w2) = <[CacheService._generate_key d :=
                  (json_dumps R2, server_time (redis w) + effective_ttl cfg ttl2)]>
                  (kv (redis w))).
  { unfold w2. rewrite (set_stores cfg cs d R2 ttl2 w1 Hw1 Hp2).
    unfold w1. rewrite (set_stores cfg cs d R1 ttl1 w Hreach Hp1).
    cbn [snd redis kv server_time]. apply insert_insert_eq. }
  assert (Htime : server_time (redis w2) = server_time (redis w)).
  { unfold w2. rewrite (set_stores cfg cs d R2 ttl2 w1 Hw1 Hp2).
    unfold w1. rewrite (set_stores cfg cs d R1 ttl1 w Hreach Hp1). reflexivity. }
  assert (Hw2 : reachable cs w2).
  { unfold w2. rewrite (set_stores cfg cs d R2 ttl2 w1 Hw1 Hp2).
    destruct Hreach as [Hc _]. split; [exact Hc|reflexivity]. }
  split; [|exact Hkv].
  destruct (get_spec cs d w2) as (w3 & -> & _).
  rewrite (lookup_entry cs d R2 (server_time (redis w) + effective_ttl cfg ttl2) w2 Hw2).
  - rewrite Htime.
    assert (H : (server_time (redis w)
                 <? server_time (redis w) + effective_ttl cfg ttl2) = true)
      by (apply Z.ltb_lt; lia).
    now rewrite H.
  - rewrite Hkv. apply lookup_insert_eq.
Qed.

Lemma last_write_wins_witness :
  fst (CacheService.get example_cache (to_dict example_request)
         (snd (CacheService.set example_config example_cache (to_dict example_request)
                 [("risk_level", Py.Str "LOW")] None
                 (snd (CacheService.set example_config example_cache
                         (to_dict example_request) [("risk_level", Py.Str "HIGH")]
                         (Some 60) example_world)))))
  = inr (Some [("risk_level", Py.Str "LOW")]).
Proof.
  refine (proj1 (last_write_wins example_config example_cache (to_dict example_request)
                   [("risk_level", Py.Str "HIGH")] [("risk_level", Py.Str "LOW")]
                   (Some 60) None example_world _ _ _)).
  - split; [discriminate|reflexivity].
  - reflexivity.
  - reflexivity.
Defined.

(** X4. A write for one request leaves every request with another key as it
    was: the same lookup result before and after, in every world. *)
Theorem set_leaves_other_keys (cfg : Config) (cs : CacheService.t)
    (d d' R : Py.dict) (ttl : option Z) (w : World) :
  CacheService._generate_key d' <> CacheService._generate_key d ->
  fst (CacheService.get cs d' (snd (CacheService.set cfg cs d R ttl w)))
  = fst (CacheService.get cs d' w).
Proof.
  intros Hne.
  destruct (set_keeps cfg cs d R ttl w) as (w1 & Hset & Ht & Hf & _ & _ & _ & Hkv).
  rewrite Hset. cbn [snd].
  destruct (get_spec cs d' w1) as (w2 & -> & _).
  destruct (get_spec cs d' w) as (w3 & -> & _).
  cbn [fst]. f_equal. unfold lookup, RedisClient.live.
  now rewrite Hf, Ht, (Hkv _ Hne).
Qed.

Lemma set_leaves_other_keys_witness :
  fst (CacheService.get example_cache (to_dict example_request_moved)
         (snd (CacheService.set example_config example_cache (to_dict example_request)
                 [("risk_level", Py.Str "HIGH")] None example_world)))
  = fst (CacheService.get example_cache (to_dict example_request_moved) example_world).
Proof.
  apply (set_leaves_other_keys example_config example_cache (to_dict example_request)
           (to_dict example_request_moved)).
  vm_compute. discriminate.
Defined.

(** ** Serving from the cache *)

Lemma predict_single_served (cfg : Config) (cs : CacheService.t)
    (svc : PredictionService.t) (req : Request) (w : World) (doc : Py.dict) :
  served cs req w = Some doc ->
  exists w',
    PredictionService.predict_single cfg cs svc req w
      = (inr (Py.dict_set "from_cache" (Py.Bool true) doc), w')
    /\ same_store w w'
    /\ clock w' = clock w /\ ticks w' = ticks w /\ model_calls w' = model_calls w.
Proof.
  unfold served. intros Hserved.
  destruct (get_spec cs (to_dict req) w) as (w' & Hget & Hstore & Hc & Ht & Hm).
  unfold PredictionService.predict_single, bind at 1. rewrite Hget, Hserved.
  exists w'. unfold ret. auto 10.
Qed.

(** The world a miss leaves behind: the lookup, two readings of the clock,
    one model call, and the write-through. *)
Lemma predict_single_miss_world (cfg : Config) (cs : CacheService.t)
    (svc : PredictionService.t) (req : Request) (w : World)
    (raw : float) (rest : list float) :
  served cs req w = None ->
  PredictionService.model svc
    [PredictionService.features_at req (clock w (ticks w))] = raw :: rest ->
  let p := PredictionService.build_prediction svc req (PyNum.np_clip raw 0 1)
             (PredictionService._get_risk_level (PyNum.np_clip raw 0 1))
             (PredictionService._calculate_factors req)
             (clock w (Datatypes.S (ticks w))) in
  exists wg,
    same_store w wg
    /\ PredictionService.predict_single cfg cs svc req w
       = (inr p,
          snd (CacheService.set cfg cs (to_dict req) p None
                 (mkWorld (redis wg) (clock w) (Datatypes.S (Datatypes.S (ticks w)))
                    (model_calls w
                     ++ [[PredictionService.features_at req (clock w (ticks w))]])%list))).
Proof.
  intros Hserved Hmodel p. unfold served in Hserved.
  destruct (get_spec cs (to_dict req) w) as (wg & Hget & Hstore & Hc & Ht & Hm).
  exists wg. split; [exact Hstore|].
  unfold PredictionService.predict_single, bind at 1. rewrite Hget, Hserved.
  unfold PredictionService._prepare_features, Pandas.DataFrame_of_records,
    datetime_now, model_predict, bind, ret.
  cbn [clock ticks model_calls redis]. rewrite Hc, Ht, Hm, Hmodel.
  match goal with
  | |- context [CacheService.set ?a ?b ?c ?d ?e ?f] =>
      destruct (set_frame a b c d e f) as (w' & Hset & _)
  end.
  rewrite Hset. f_equal. exact (eq_sym (f_equal snd Hset)).
Qed.

(** X5. Repeated reads: a request that missed is written through, and
    asking again within the time-to-live returns the very same document with
    [from_cache] turned to [True], without a second model call or a reading
    of the clock. *)
Theorem repeated_read_served_from_cache (cfg : Config) (cs : CacheService.t)
    (svc : PredictionService.t) (req : Request) (w : World)
    (raw : float) (rest : list float) (dt : Z) :
  reachable cs w ->
  cache_miss cs req w ->
  PredictionService.model svc
    [PredictionService.features_at req (clock w (ticks w))] = raw :: rest ->
  0 <= dt < CACHE_TTL cfg ->
  exists p w1 w2,
    PredictionService.predict_single cfg cs svc req w = (inr p, w1)
    /\ Py.dict_get "from_cache" p = Some (Py.Bool false)
    /\ PredictionService.predict_single cfg cs svc req (elapse dt w1)
       = (inr (Py.dict_set "from_cache" (Py.Bool true) p), w2)
    /\ model_calls w1
       = (model_calls w ++ [[PredictionService.features_at req (clock w (ticks w))]])%list
    /\ model_calls w2 = model_calls w1
    /\ ticks w2 = ticks w1.
Proof.
  intros Hreach Hmiss Hmodel Hdt.
  apply cache_miss_served in Hmiss.
  destruct (predict_single_miss_world cfg cs svc req w raw rest Hmiss Hmodel)
    as (wg & (Hkv & Htime & Hfault) & Hrun).
  set (p := PredictionService.build_prediction svc req _ _ _ _) in *.
  set (wm := mkWorld (redis wg) _ _ _) in *.
  assert (Hwm : reachable cs wm).
  { destruct Hreach as [Hc Hf]. split; [exact Hc|]. unfold wm. cbn [redis].
    now rewrite Hfault. }
  assert (Hpos : 0 < effective_ttl cfg None) by (simpl; lia).
  rewrite (set_stores cfg cs (to_dict req) p None wm Hwm Hpos) in Hrun.
  cbn [snd] in Hrun.
  match type of Hrun with _ = (_, ?wfinal) => set (w1 := wfinal) in * end.
  assert (Hserved : served cs req (elapse dt w1) = Some p).
  { unfold served.
    rewrite (lookup_entry cs (to_dict req) p
               (server_time (redis wm) + effective_ttl cfg None)).
    - unfold w1. cbn [elapse redis server_time].
      assert (H : (server_time (redis wm) + dt
                   <? server_time (redis wm) + effective_ttl cfg None) = true)
        by (apply Z.ltb_lt; simpl; lia).
      rewrite H. reflexivity.
    - destruct Hreach as [Hc _]. split; [exact Hc|reflexivity].
    - unfold w1. cbn [elapse redis kv]. apply lookup_insert_eq. }
  destruct (predict_single_served cfg cs svc req (elapse dt w1) p Hserved)
    as (w2 & Hrun2 & _ & _ & Ht2 & Hm2).
  exists p, w1, w2.
  split; [exact Hrun|]. split; [reflexivity|]. split; [exact Hrun2|].
  split; [reflexivity|]. split; [exact Hm2|exact Ht2].
Qed.

Lemma repeated_read_served_from_cache_witness :
  exists p w1 w2,
    PredictionService.predict_single example_config example_cache
      (example_service 0.7) example_request example_world = (inr p, w1)
    /\ PredictionService.predict_single example_config example_cache
         (example_service 0.7) example_request (elapse 60 w1)
       = (inr (Py.dict_set "from_cache" (Py.Bool true) p), w2)
    /\ List.length (model_calls w2) = 1%nat.
Proof.
  destruct (repeated_read_served_from_cache example_config example_cache
              (example_service 0.7) example_request example_world 0.7%float [] 60)
    as (p & w1 & w2 & Hrun & _ & Hrun2 & Hcalls & Hcalls2 & _).
  - split; [discriminate|reflexivity].
  - vm_compute. reflexivity.
  - reflexivity.
  - vm_compute. split; [discriminate|reflexivity].
  - exists p, w1, w2. split; [exact Hrun|]. split; [exact Hrun2|].
    rewrite Hcalls2, Hcalls. reflexivity.
Defined.

(** ** [predict_batch] in general *)

Lemma served_same_store (cs : CacheService.t) (req : Request) (w w' : World) :
  same_store w w' -> served cs req w' = served cs req w.
Proof. intros H. unfold served. now rewrite (lookup_same_store cs _ w w' H). Qed.

(** The first loop of [predict_batch]: cached documents in place, the
    requests that missed in their order, one index for each of them. *)
Lemma partition_requests_spec (cs : CacheService.t) (requests : list Request) :
  forall (i : nat) (w : World),
  exists indices w',
    PredictionService.partition_requests cs i requests w
    = (inr (map (fun r => option_map (Py.dict_set "from_cache" (Py.Bool true))
                            (served cs r w)) requests,
            List.filter (fun r => match served cs r w with
                                  | None => true
                                  | Some _ => false
                                  end) requests,
            indices), w')
    /\ List.length indices
       = List.length (List.filter (fun r => match served cs r w with
                                            | None => true
                                            | Some _ => false
                                            end) requests)
    /\ same_store w w'
    /\ clock w' = clock w /\ ticks w' = ticks w /\ model_calls w' = model_calls w.
Proof.
  induction requests as [|req rest IH]; intros i w.
  - exists [], w. simpl. unfold ret. repeat split.
  - destruct (get_spec cs (to_dict req) w) as (w1 & Hget & Hstore & Hc & Ht & Hm).
    destruct (IH (Datatypes.S i) w1) as (idx & w2 & Hrec & Hlen & Hstore2 & Hc2 & Ht2 & Hm2).
    assert (Hsame : forall r, served cs r w1 = served cs r w)
      by (intros r; now apply served_same_store).
    rewrite (map_ext _ _ (fun r => f_equal _ (Hsame r))) in Hrec.
    rewrite (List.filter_ext _ _ (fun r => f_equal
               (fun o : option Py.dict => match o with None => true | Some _ => false end)
               (Hsame r))) in Hrec, Hlen.
    cbn [PredictionService.partition_requests]. unfold bind at 1. rewrite Hget.
    fold (served cs req w).
    cbn [map List.filter].
    destruct (served cs req w) as [doc|] eqn:Hserved.
    + unfold bind. rewrite Hrec. unfold ret.
      exists idx, w2. cbn [option_map]. split; [reflexivity|].
      split; [exact Hlen|]. split; [eapply same_store_trans; eassumption|].
      repeat split; congruence.
    + unfold bind. rewrite Hrec. unfold ret.
      exists (i :: idx), w2. cbn [option_map]. split; [reflexivity|].
      split; [simpl; now rewrite Hlen|].
      split; [eapply same_store_trans; eassumption|].
      repeat split; congruence.
Qed.

Lemma prepare_features_run (req : Request) (w : World) :
  PredictionService._prepare_features req w
  = (inr [PredictionService.features_at req (clock w (ticks w))],
     mkWorld (redis w) (clock w) (Datatypes.S (ticks w)) (model_calls w)).
Proof. reflexivity. Qed.

Lemma mapM_prepare_features (l : list Request) :
  forall w : World,
  exists frames w',
    mapM PredictionService._prepare_features l w = (inr frames, w')
    /\ List.length frames = List.length l
    /\ redis w' = redis w /\ model_calls w' = model_calls w.
Proof.
  induction l as [|req l IH]; intros w.
  - exists [], w. repeat split.
  - cbn [mapM]. unfold bind at 1. rewrite prepare_features_run.
    destruct (IH (mkWorld (redis w) (clock w) (Datatypes.S (ticks w)) (model_calls w)))
      as (frames & w' & Hrec & Hlen & Hr & Hm).
    unfold bind. rewrite Hrec. unfold ret.
    eexists _, w'. split; [reflexivity|]. split; [simpl; now rewrite Hlen|].
    split; [exact Hr|exact Hm].
Qed.

(** X6. A batch that is served entirely from the cache comes back in the
    order of the requests, one document per request with [from_cache] set,
    and neither the model nor the clock is touched; the empty batch is the
    empty list. *)
Theorem predict_batch_all_hits (cfg : Config) (cs : CacheService.t)
    (svc : PredictionService.t) (requests : list Request) (docs : list Py.dict)
    (w : World) :
  Forall2 (fun r doc => cache_hit cs r w doc) requests docs ->
  exists w',
    PredictionService.predict_batch cfg cs svc requests w
    = (inr (map (fun doc => Some (Py.dict_set "from_cache" (Py.Bool true) doc)) docs),
       w')
    /\ List.length docs = List.length requests
    /\ model_calls w' = model_calls w /\ ticks w' = ticks w
    /\ same_store w w'.
Proof.
  intros Hall.
  assert (Hmap : map (fun r => option_map (Py.dict_set "from_cache" (Py.Bool true))
                                 (served cs r w)) requests
                 = map (fun doc => Some (Py.dict_set "from_cache" (Py.Bool true) doc))
                     docs
                 /\ List.filter (fun r => match served cs r w with
                                          | None => true
                                          | Some _ => false
                                          end) requests = []
                 /\ List.length docs = List.length requests).
  { induction Hall as [|r doc rs ds Hhit _ IH]; [repeat split|].
    apply cache_hit_served in Hhit. destruct IH as (IH1 & IH2 & IH3).
    cbn [map List.filter]. rewrite Hhit. cbn [option_map].
    split; [now rewrite IH1|]. split; [exact IH2|]. simpl. now rewrite IH3. }
  destruct Hmap as (Hpreds & Hnone & Hlen).
  destruct (partition_requests_spec cs requests 0%nat w)
    as (idx & w' & Hpart & _ & Hstore & _ & Ht & Hm).
  rewrite Hpreds, Hnone in Hpart.
  unfold PredictionService.predict_batch, bind. rewrite Hpart. unfold ret.
  exists w'. auto 10.
Qed.

Lemma predict_batch_all_hits_witness :
  exists w',
    PredictionService.predict_batch example_config example_cache
      (example_service 0.7) [example_request_moved; example_request]
      example_world_warm
    = (inr (map (fun r =>
                   Some (Py.dict_set "from_cache" (Py.Bool true)
                           (PredictionService.build_prediction (example_service 0.7) r
                              0.7 "HIGH" (PredictionService._calculate_factors r)
                              example_now)))
              [example_request_moved; example_request]), w')
    /\ model_calls w' = model_calls example_world_warm.
Proof.
  destruct (predict_batch_all_hits example_config example_cache (example_service 0.7)
              [example_request_moved; example_request]
              (map (fun r => PredictionService.build_prediction (example_service 0.7) r
                               0.7 "HIGH" (PredictionService._calculate_factors r)
                               example_now)
                 [example_request_moved; example_request])
              example_world_warm)
    as (w' & Hrun & _ & Hcalls & _).
  - constructor; [|constructor; [|constructor]]; vm_compute; reflexivity.
  - exists w'. split; [exact Hrun|exact Hcalls].
Defined.

(** X7. As soon as one request of a batch misses the cache, [predict_batch]
    raises [ValueError] while it builds the frame for the model out of the
    one-row frames of [_prepare_features]: no result is returned, the model
    is not invoked and nothing is written to the cache. *)
Theorem predict_batch_miss_raises (cfg : Config) (cs : CacheService.t)
    (svc : PredictionService.t) (requests : list Request) (w : World) :
  Exists (fun r => cache_miss cs r w) requests ->
  exists w',
    PredictionService.predict_batch cfg cs svc requests w
    = (inl (ValueError "Must pass 2-d input"), w')
    /\ model_calls w' = model_calls w
    /\ same_store w w'.
Proof.
  intros Hmiss.
  destruct (partition_requests_spec cs requests 0%nat w)
    as (idx & w1 & Hpart & _ & Hstore & _ & _ & Hm).
  set (uncached := List.filter _ requests) in *.
  assert (Hne : uncached <> []).
  { unfold uncached. clear -Hmiss.
    induction Hmiss as [r rs Hr|r rs _ IH]; cbn [List.filter].
    - apply cache_miss_served in Hr. rewrite Hr. discriminate.
    - destruct (served cs r w); [exact IH|discriminate]. }
  unfold PredictionService.predict_batch, bind at 1. rewrite Hpart.
  destruct uncached as [|u rest] eqn:Hu; [congruence|].
  destruct (mapM_prepare_features (u :: rest) w1)
    as (frames & w2 & Hprep & Hlen & Hr & Hm2).
  unfold bind at 1. rewrite Hprep.
  destruct frames as [|f fs]; [discriminate Hlen|].
  unfold bind, Pandas.DataFrame_of_frames, raise.
  exists w2. split; [reflexivity|]. split; [congruence|].
  destruct Hstore as (Hkv & Ht & Hf). unfold same_store. rewrite Hr. auto.
Qed.

Lemma predict_batch_miss_raises_witness :
  fst (PredictionService.predict_batch example_config example_cache
         (example_service 0.7) [example_request; example_request_cool]
         example_world_warm)
  = inl (ValueError "Must pass 2-d input").
Proof.
  destruct (predict_batch_miss_raises example_config example_cache
              (example_service 0.7) [example_request; example_request_cool]
              example_world_warm) as (w' & Hrun & _).
  - apply Exists_cons_tl, Exists_cons_hd. vm_compute. reflexivity.
  - now rewrite Hrun.
Defined.

(** ** Shape of the keys and [clear_all] *)

Lemma hex_concat_length (l : list Z) :
  String.length (String.concat "" (map Hashlib.hex_byte l)) = (2 * List.length l)%nat.
Proof.
  induction l as [|b l IH]; [reflexivity|].
  assert (Hcons : String.concat "" (map Hashlib.hex_byte (b :: l))
            = String (Hashlib.hex_char (b / 16))
                (String (Hashlib.hex_char (b mod 16))
                   (String.concat "" (map Hashlib.hex_byte l))))
    by (destruct l; reflexivity).
  rewrite Hcons. cbn [String.length]. rewrite IH. simpl. lia.
Qed.

(** X8. Every key is the namespace prefix followed by the 32 hexadecimal
    characters of the digest: 43 characters in all. *)
Theorem generate_key_shape (d : Py.dict) :
  String.prefix "prediction:" (CacheService._generate_key d) = true
  /\ String.length (CacheService._generate_key d) = 43%nat
  /\ CacheService._generate_key d
     = "prediction:" ++ Hashlib.hexdigest (Hashlib.encode (Py.dumps true (Py.Dict d))).
Proof.
  split; [apply prefix_append|]. split; [|reflexivity].
  unfold CacheService._generate_key, Hashlib.hexdigest.
  rewrite append_length, hex_concat_length.
  destruct (digest_bytes_shape
              (Hashlib.md5 (Hashlib.encode (Py.dumps true (Py.Dict d))))) as [_ ->].
  reflexivity.
Qed.

Lemma lookup_fold_delete (ks : list string) (m : gmap string (json_text * Z))
    (k : string) :
  fold_right (fun k m => base.delete k m) m ks !! k
  = if in_dec string_dec k ks then None else m !! k.
Proof.
  induction ks as [|k0 ks IH]; cbn [fold_right].
  - reflexivity.
  - rewrite lookup_delete. destruct (decide (k0 = k)) as [->|Hne].
    + destruct (in_dec string_dec k (k :: ks)) as [_|Hn]; [reflexivity|].
      exfalso. apply Hn. now left.
    + rewrite IH. destruct (in_dec string_dec k ks) as [Hin|Hnin].
      * destruct (in_dec string_dec k (k0 :: ks)) as [_|Hn]; [reflexivity|].
        exfalso. apply Hn. now right.
      * destruct (in_dec string_dec k (k0 :: ks)) as [[E|Hin]|_];
          [congruence|tauto|reflexivity].
Qed.

Lemma clear_all_run (cs : CacheService.t) (w : World) :
  reachable cs w ->
  exists w',
    CacheService.clear_all cs w = (inr tt, w')
    /\ kv (redis w')
       = fold_right (fun k m => base.delete k m) (kv (redis w))
           (map fst (List.filter
                       (fun e => RedisClient.is_live (redis w) e
                                 && String.prefix "prediction:" (fst e))
                       (map_to_list (kv (redis w)))))
    /\ server_time (redis w') = server_time (redis w)
    /\ fault (redis w') = None
    /\ clock w' = clock w /\ ticks w' = ticks w /\ model_calls w' = model_calls w.
Proof.
  intros [Hclient Hfault].
  unfold CacheService.clear_all, try_except, bind, RedisClient.keys,
    RedisClient.delete, RedisClient.with_redis, ret.
  destruct (CacheService.redis_client cs); [|congruence].
  rewrite Hfault.
  destruct (map fst (List.filter _ (map_to_list (kv (redis w))))) as [|k ks] eqn:Hks.
  - eexists. split; [reflexivity|]. cbn [redis kv server_time fault clock ticks
      model_calls fold_right]. auto 10.
  - cbn [redis fault]. rewrite Hfault.
    eexists. split; [reflexivity|]. cbn [redis kv server_time fault clock ticks
      model_calls]. auto 10.
Qed.

(** X9. [clear_all] on a reachable store removes every entry the service
    could serve: afterwards the lookup of any request reports absent; keys
    outside the [prediction:] namespace keep their entries. *)
Theorem clear_all_empties_cache (cs : CacheService.t) (w : World) :
  reachable cs w ->
  exists w',
    CacheService.clear_all cs w = (inr tt, w')
    /\ (forall d, fst (CacheService.get cs d w') = inr None)
    /\ (forall k, String.prefix "prediction:" k = false ->
          kv (redis w') !! k = kv (redis w) !! k)
    /\ model_calls w' = model_calls w.
Proof.
  intros Hreach.
  destruct (clear_all_run cs w Hreach) as (w' & Hrun & Hkv & Htime & Hfault & _ & _ & Hm).
  exists w'. split; [exact Hrun|]. split; [|split; [|exact Hm]].
  - intros d. destruct (get_spec cs d w') as (w2 & -> & _). cbn [fst]. f_equal.
    unfold lookup. destruct (CacheService.redis_client cs); [|reflexivity].
    rewrite Hfault. unfold RedisClient.live. rewrite Hkv, lookup_fold_delete.
    destruct (in_dec string_dec _ _) as [_|Hnin]; [reflexivity|].
    destruct (kv (redis w) !! CacheService._generate_key d) as [[v expiry]|] eqn:Hk;
      [|reflexivity].
    rewrite Htime.
    destruct (server_time (redis w) <? expiry) eqn:Hlive; [|reflexivity].
    exfalso. apply Hnin. apply in_map_iff.
    exists (CacheService._generate_key d, (v, expiry)). split; [reflexivity|].
    apply filter_In. split.
    + apply list_elem_of_In, elem_of_map_to_list. exact Hk.
    + unfold RedisClient.is_live. cbn [fst snd]. rewrite Hlive.
      unfold CacheService._generate_key. apply prefix_append.
  - intros k Hk. rewrite Hkv, lookup_fold_delete.
    destruct (in_dec string_dec _ _) as [Hin|_]; [|reflexivity].
    exfalso. apply in_map_iff in Hin as ([k' e] & Hfst & Hin).
    apply filter_In in Hin as [_ Hp]. cbn [fst] in *. subst k'.
    apply andb_true_iff in Hp as [_ Hp]. congruence.
Qed.

Lemma clear_all_empties_cache_witness :
  exists w',
    CacheService.clear_all example_cache example_world_warm = (inr tt, w')
    /\ fst (CacheService.get example_cache (to_dict example_request) w') = inr None
    /\ fst (CacheService.get example_cache (to_dict example_request) example_world_warm)
       <> inr None.
Proof.
  destruct (clear_all_empties_cache example_cache example_world_warm)
    as (w' & Hrun & Hgone & _).
  - split; [discriminate|reflexivity].
  - exists w'. split; [exact Hrun|]. split; [apply Hgone|].
    vm_compute. discriminate.
Defined.

(** ** Start-up *)

(** X10. When Redis refuses the connection at start-up, the cache service is
    built without a client and stays without one: in every later world,
    reachable or not, lookups report absent, writes do nothing and the
    statistics say [connected: False].  Any other error of the start-up ping
    is not handled and leaves the constructor. *)
Theorem init_without_redis (w : World) :
  (fault (redis w) = Some ConnectionError ->
   exists cs,
     CacheService.init w = (inr cs, w)
     /\ forall (cfg : Config) (d p : Py.dict) (ttl : option Z) (w' : World),
          CacheService.get cs d w' = (inr None, w')
          /\ CacheService.set cfg cs d p ttl w' = (inr tt, w')
          /\ CacheService.get_stats cs w' = (inr [("connected", Py.Bool false)], w'))
  /\ (forall e, fault (redis w) = Some e -> e <> ConnectionError ->
        CacheService.init w = (inl (RedisError e), w)).
Proof.
  split.
  - intros Hf. exists (CacheService.mk None). split.
    + unfold CacheService.init, RedisClient.with_redis. now rewrite Hf.
    + intros cfg d p ttl w'. repeat split.
  - intros e Hf Hne. unfold CacheService.init, RedisClient.with_redis. rewrite Hf.
    destruct e; [congruence|reflexivity|reflexivity].
Qed.

Lemma init_without_redis_witness :
  CacheService.init example_world_down
    = (inr (CacheService.mk None), example_world_down)
  /\ CacheService.init example_world_timeout
     = (inl (RedisError TimeoutError), example_world_timeout).
Proof.
  split.
  - destruct (proj1 (init_without_redis example_world_down) eq_refl) as (cs & _ & _).
    reflexivity.
  - apply (proj2 (init_without_redis example_world_timeout) TimeoutError);
      [reflexivity|discriminate].
Defined.

(** ** Monotonicity of the categories *)

Lemma SFleb_ltb_trans (x y z : spec_float) :
  SFleb x y = true -> SFltb y z = true -> SFltb x z = true.
Proof.
  unfold SFleb, SFltb, SFcompare.
  destruct x as [sx|sx| |sx mx ex], y as [sy|sy| |sy my ey], z as [sz|sz| |sz mz ez];
    try (destruct sx); try (destruct sy); try (destruct sz); simpl;
    try congruence;
    change (Pos.compare_cont Eq) with Pos.compare;
    intros H1 H2; cmp_cases; simpl in *; try congruence; try lia.
Qed.

Lemma leb_ltb_trans (x y z : float) :
  (x <=? y)%float = true -> (y <? z)%float = true -> (x <? z)%float = true.
Proof.
  rewrite FloatAxioms.leb_spec, !FloatAxioms.ltb_spec. apply SFleb_ltb_trans.
Qed.

(** X11. A higher score never gets a lower category: [x <= y] implies that
    the category of [x] is at most that of [y] on the scale
    LOW < MODERATE < HIGH < EXTREME. *)
Theorem risk_level_monotone (x y : float) :
  (x <=? y)%float = true ->
  level_rank (PredictionService._get_risk_level x)
  <= level_rank (PredictionService._get_risk_level y).
Proof.
  intros Hxy.
  pose proof (leb_ltb_trans x y 0.3 Hxy) as H3.
  pose proof (leb_ltb_trans x y 0.6 Hxy) as H6.
  pose proof (leb_ltb_trans x y 0.8 Hxy) as H8.
  unfold PredictionService._get_risk_level.
  destruct (y <? 0.3)%float; [rewrite (H3 eq_refl); vm_compute; discriminate|].
  destruct (y <? 0.6)%float.
  { rewrite (H6 eq_refl). destruct (x <? 0.3)%float; vm_compute; discriminate. }
  destruct (y <? 0.8)%float.
  { rewrite (H8 eq_refl).
    destruct (x <? 0.3)%float, (x <? 0.6)%float; vm_compute; discriminate. }
  destruct (x <? 0.3)%float, (x <? 0.6)%float, (x <? 0.8)%float;
    vm_compute; discriminate.
Qed.

Lemma risk_level_monotone_witness :
  level_rank (PredictionService._get_risk_level 0.45)
  <= level_rank (PredictionService._get_risk_level 0.75).
Proof. apply (risk_level_monotone 0.45 0.75). reflexivity. Defined.

(** ** Clipping *)

Lemma np_clip_nan_passes (x : float) : is_nan x = true -> PyNum.np_clip x 0 1 = x.
Proof.
  intros H. unfold PyNum.np_clip, PyNum.np_maximum, PyNum.np_minimum.
  now rewrite !H.
Qed.

Lemma np_clip_nan_or_unit (x : float) : nan_or_unit (PyNum.np_clip x 0 1).
Proof.
  destruct (is_nan x) eqn:H.
  - left. now rewrite (np_clip_nan_passes x H).
  - right. now apply np_clip_unit.
Qed.

Lemma np_clip_idempotent (x : float) :
  PyNum.np_clip (PyNum.np_clip x 0 1) 0 1 = PyNum.np_clip x 0 1.
Proof.
  destruct (is_nan x) eqn:Hnan.
  - now rewrite !(np_clip_nan_passes x Hnan).
  - assert (Hc : PyNum.np_clip x 0 1
                 = if (0 <? x)%float then if (x <? 1)%float then x else 1%float
                   else 0%float).
    { unfold PyNum.np_clip, PyNum.np_maximum, PyNum.np_minimum. rewrite Hnan.
      destruct (0 <? x)%float; [now rewrite Hnan|reflexivity]. }
    destruct (0 <? x)%float eqn:Hpos; [destruct (x <? 1)%float eqn:Hlt|];
      rewrite Hc at 1 2; try reflexivity.
    unfold PyNum.np_clip, PyNum.np_maximum, PyNum.np_minimum.
    now rewrite !Hnan, Hpos, Hnan, Hlt.
Qed.

(** X12. [_normalize_risk] raises [ZeroDivisionError] exactly when the
    threshold is zero (of either sign); otherwise it returns a value that is
    not a number or lies in [[0, 1]], whatever [numpy.exp] returns.
    [create_features], whose thresholds are 85, 30 and 15, never raises, and
    its three normalized risks are not a number or lie in [[0, 1]]. *)
Theorem normalize_risk_range (np_exp : float -> float) (value threshold : float)
    (higher_is_riskier : bool) (obs : FeatureEngineer.WeatherData) :
  ((threshold =? 0)%float = true
   <-> FeatureEngineer._normalize_risk np_exp value threshold higher_is_riskier
       = inl (FeatureEngineer.ZeroDivisionError "float division by zero"))
  /\ ((threshold =? 0)%float = false
      <-> exists risk,
            FeatureEngineer._normalize_risk np_exp value threshold higher_is_riskier
            = inr risk
            /\ nan_or_unit risk)
  /\ exists f,
       FeatureEngineer.create_features np_exp obs = inr f
       /\ nan_or_unit (FeatureEngineer.temp_risk f)
       /\ nan_or_unit (FeatureEngineer.humidity_risk f)
       /\ nan_or_unit (FeatureEngineer.wind_risk f).
Proof.
  unfold FeatureEngineer._normalize_risk.
  split; [|split].
  - destruct (threshold =? 0)%float; split; intros H; congruence.
  - destruct (threshold =? 0)%float; split.
    + discriminate.
    + intros (risk & H & _). discriminate H.
    + intros _. eexists. split; [reflexivity|apply np_clip_nan_or_unit].
    + reflexivity.
  - eexists. split; [reflexivity|]. cbn [FeatureEngineer.temp_risk
      FeatureEngineer.humidity_risk FeatureEngineer.wind_risk].
    repeat split; apply np_clip_nan_or_unit.
Qed.

(** X13. [FireRiskXGBoost.predict] returns one score per score of the wrapped
    model, each not a number or within [[0, 1]]; the serving path's own clip
    leaves such a score unchanged. *)
Theorem wrapped_model_scores (model : Model) (X : DataFrame) :
  List.length (FireRiskXGBoost.predict model X) = List.length (model X)
  /\ Forall nan_or_unit (FireRiskXGBoost.predict model X)
  /\ Forall (fun s => PyNum.np_clip s 0 1 = s) (FireRiskXGBoost.predict model X).
Proof.
  unfold FireRiskXGBoost.predict. cbv zeta. split; [apply List.length_map|].
  split; apply List.Forall_forall; intros s Hs; apply in_map_iff in Hs as (raw & <- & _).
  - apply np_clip_nan_or_unit.
  - apply np_clip_idempotent.
Qed.

(** ** The endpoints *)

Lemma predict_single_no_score (cfg : Config) (cs : CacheService.t)
    (svc : PredictionService.t) (req : Request) (w : World) :
  served cs req w = None ->
  PredictionService.model svc
    [PredictionService.features_at req (clock w (ticks w))] = [] ->
  exists w',
    PredictionService.predict_single cfg cs svc req w
    = (inl (IndexError "index 0 is out of bounds"), w').
Proof.
  intros Hserved Hmodel. unfold served in Hserved.
  destruct (get_spec cs (to_dict req) w) as (wg & Hget & _ & Hc & Ht & _).
  unfold PredictionService.predict_single, bind at 1. rewrite Hget, Hserved.
  unfold PredictionService._prepare_features, Pandas.DataFrame_of_records,
    datetime_now, model_predict, bind, ret, raise.
  cbn [clock ticks model_calls redis]. rewrite Hc, Ht, Hmodel. eauto.
Qed.

(** What [predict_batch] does in any world: the cached documents when no
    request misses, [ValueError] otherwise; the model and the store are left
    alone either way. *)
Lemma predict_batch_outcome (cfg : Config) (cs : CacheService.t)
    (svc : PredictionService.t) (requests : list Request) (w : World) :
  exists w',
    same_store w w' /\ model_calls w' = model_calls w
    /\ PredictionService.predict_batch cfg cs svc requests w
       = (if forallb (fun r => match served cs r w with
                               | Some _ => true
                               | None => false
                               end) requests
          then inr (map (fun r => option_map (Py.dict_set "from_cache" (Py.Bool true))
                                    (served cs r w)) requests)
          else inl (ValueError "Must pass 2-d input"), w').
Proof.
  destruct (partition_requests_spec cs requests 0%nat w)
    as (idx & w1 & Hpart & _ & Hstore & _ & _ & Hm).
  assert (Hall : forallb (fun r => match served cs r w with
                                   | Some _ => true
                                   | None => false
                                   end) requests
                 = match List.filter (fun r => match served cs r w with
                                               | None => true
                                               | Some _ => false
                                               end) requests with
                   | [] => true
                   | _ => false
                   end).
  { clear. induction requests as [|r rs IH]; [reflexivity|].
    cbn [forallb List.filter]. destruct (served cs r w); [exact IH|reflexivity]. }
  rewrite Hall. unfold PredictionService.predict_batch, bind at 1. rewrite Hpart.
  destruct (List.filter _ requests) as [|u rest]; [unfold ret; eauto|].
  destruct (mapM_prepare_features (u :: rest) w1)
    as (frames & w2 & Hprep & Hlen & Hr & Hm2).
  unfold bind at 1. rewrite Hprep.
  destruct frames as [|f fs]; [discriminate Hlen|].
  unfold bind, Pandas.DataFrame_of_frames, raise.
  exists w2. split; [|split; [congruence|reflexivity]].
  destruct Hstore as (Hkv & Ht & Hf). unfold same_store. rewrite Hr. auto.
Qed.

(** X14. The batch endpoint answers 200 exactly when every request of the
    batch is served from the cache, with one entry per request; in every
    other world it answers 500 with [Batch prediction failed]. *)
Theorem batch_endpoint_status (cfg : Config) (cs : CacheService.t)
    (svc : PredictionService.t) (requests : list Request) (w : World) :
  (snd (fst (PredictionRoutes.predict_batch cfg cs svc requests w)) = 200
   <-> Forall (fun r => served cs r w <> None) requests)
  /\ ((exists predictions,
         fst (PredictionRoutes.predict_batch cfg cs svc requests w)
         = (PredictionRoutes.BatchResponse predictions (List.length requests)
              (PredictionService.model_version svc), 200)
         /\ List.length predictions = List.length requests)
      \/ fst (PredictionRoutes.predict_batch cfg cs svc requests w)
         = (PredictionRoutes.ErrorBody "Batch prediction failed"
              (ValueError "Must pass 2-d input"), 500)).
Proof.
  unfold PredictionRoutes.predict_batch.
  destruct (predict_batch_outcome cfg cs svc requests w) as (w' & _ & _ & ->).
  destruct (forallb _ requests) eqn:Hall; cbn [fst snd].
  - split.
    + split; [intros _|reflexivity].
      apply List.Forall_forall. intros r Hr.
      apply (proj1 (forallb_forall _ _) Hall) in Hr.
      destruct (served cs r w); [discriminate|discriminate Hr].
    + left. rewrite List.length_map. eexists. split; [reflexivity|apply List.length_map].
  - split; [|right; reflexivity].
    split; [discriminate|]. intros HF. exfalso.
    assert (forallb (fun r => match served cs r w with
                              | Some _ => true
                              | None => false
                              end) requests = true); [|congruence].
    apply forallb_forall. intros r Hr.
    apply (proj1 (List.Forall_forall _ _) HF) in Hr.
    destruct (served cs r w); [reflexivity|congruence].
Qed.

(** X15. The single endpoint, for a model whose [predict] returns. A request
    served from the cache is answered 200 with the cached document and
    [from_cache] set; a request that misses is answered 200 with a fresh
    prediction as soon as the model returns at least one score for its row,
    whatever the state of Redis; when the model returns no score the
    [IndexError] of [predict_single] becomes a 500 with [Prediction failed].
    So, for such a model, the answer is 200 exactly when the request is a hit
    or the model returns a score. *)
Theorem predict_endpoint_status (cfg : Config) (cs : CacheService.t)
    (svc : PredictionService.t) (req : Request) (w : World) :
  (forall doc, served cs req w = Some doc ->
     fst (PredictionRoutes.predict cfg cs svc req w)
     = (PredictionRoutes.Result (Py.dict_set "from_cache" (Py.Bool true) doc), 200))
  /\ (forall raw rest,
        served cs req w = None ->
        PredictionService.model svc
          [PredictionService.features_at req (clock w (ticks w))] = raw :: rest ->
        exists fresh,
          fst (PredictionRoutes.predict cfg cs svc req w)
          = (PredictionRoutes.Result fresh, 200)
          /\ Py.dict_get "from_cache" fresh = Some (Py.Bool false))
  /\ (served cs req w = None ->
      PredictionService.model svc
        [PredictionService.features_at req (clock w (ticks w))] = [] ->
      exists msg,
        fst (PredictionRoutes.predict cfg cs svc req w)
        = (PredictionRoutes.ErrorBody "Prediction failed" (IndexError msg), 500))
  /\ (snd (fst (PredictionRoutes.predict cfg cs svc req w)) = 200
      <-> served cs req w <> None
          \/ PredictionService.model svc
               [PredictionService.features_at req (clock w (ticks w))] <> []).
Proof.
  unfold PredictionRoutes.predict.
  destruct (served cs req w) as [doc|] eqn:Hserved.
  - destruct (predict_single_served cfg cs svc req w doc Hserved) as (w' & -> & _).
    cbn [fst snd]. split; [intros d [= <-]; reflexivity|].
    split; [discriminate|]. split; [discriminate|].
    split; [intros _; left; discriminate|reflexivity].
  - split; [discriminate|].
    destruct (PredictionService.model svc
                [PredictionService.features_at req (clock w (ticks w))])
      as [|raw rest] eqn:Hmodel.
    + destruct (predict_single_no_score cfg cs svc req w Hserved Hmodel) as (w' & ->).
      cbn [fst snd]. split; [discriminate|].
      split; [intros _ _; eexists; reflexivity|].
      split; [discriminate|intros [H|H]; congruence].
    + destruct (predict_single_miss_world cfg cs svc req w raw rest Hserved Hmodel)
        as (wg & _ & ->).
      cbn [fst snd]. split.
      * intros raw' rest' _ [= <- <-]. eexists. split; reflexivity.
      * split; [discriminate|].
        split; [intros _; right; discriminate|reflexivity].
Qed.

(** X16. The offline labelling and the serving path put every score in the
    same category. *)
Theorem training_and_serving_labels_agree (risk_score : float) :
  FeatureEngineer.create_risk_label risk_score
  = PredictionService._get_risk_level risk_score.
Proof. reflexivity. Qed.

(** ** Cache round trip, through both serving paths *)


